(** * py-motmetrics: the assignment-solver layer and the metrics engine

    A shallow embedding of [motmetrics/lap.py] and [motmetrics/metrics.py].

    - Costs are IEEE-754 binary64 values ([PrimFloat.float]), as in a NumPy
      [float64] array; NaN and the infinities are the "unassignable" markers.
    - NumPy arrays are mutable objects: they live in a heap and are passed by
      reference, so that in-place writes (and their absence) can be stated.
    - Third-party solvers (scipy, lapsolver, munkres, ortools) are not part
      of the repository: they are parameters, collected in [third_party].
      So is the floating-point sum of a pandas column, [Series_sum].
    - Python exceptions are the [Raise] outcomes; unbounded recursion is the
      [Diverge] outcome of a fuel-indexed function at every fuel. *)

From Stdlib Require Import Floats ZArith List String Ascii Bool Lia Uint63.
From stdpp Require Import base option list gmap strings.
Import ListNotations.

Set Warnings "-inexact-float".

Local Open Scope string_scope.
Local Open Scope list_scope.
Local Open Scope nat_scope.

(** ** Python outcomes

    [Unmodelled] marks an operation on operands that the embedding does not
    cover (it is never the outcome of a call examined below). *)

Inductive exn : Type :=
| AssertionError (msg : string)
| KeyError (key : string)
| ImportError (module_name : string)
| NameError (name : string)
| TypeError (msg : string)
| ValueError (msg : string)
| IndexError (msg : string)
| AttributeError (msg : string)
| OverflowError (msg : string)
| ZeroDivisionError (msg : string)
| UnsortedIndexError (msg : string)
| Unmodelled (what : string).

Inductive outcome (A : Type) : Type :=
| Ok (a : A)
| Raise (e : exn)
| Diverge.

Arguments Ok {A} a.
Arguments Raise {A} e.
Arguments Diverge {A}.

Definition obind {A B : Type} (m : outcome A) (k : A -> outcome B) : outcome B :=
  match m with
  | Ok a => k a
  | Raise e => Raise e
  | Diverge => Diverge
  end.

Declare Scope outcome_scope.
Delimit Scope outcome_scope with outcome.
Notation "'let?' x := m 'in' k" := (obind m (fun x => k))
  (at level 10, x name, m at level 100, k at level 200) : outcome_scope.
Local Open Scope outcome_scope.

(** ** Stateful computations that may raise

    [SO S A]: a computation over a state [S] (the heap of arrays for
    [lap.py], the cache of one evaluation for [metrics.py]). *)

Definition SO (S A : Type) : Type := S -> outcome A * S.

Definition ret {S A : Type} (a : A) : SO S A := fun w => (Ok a, w).

Definition raise {S A : Type} (e : exn) : SO S A := fun w => (Raise e, w).

Definition bind {S A B : Type} (m : SO S A) (k : A -> SO S B) : SO S B :=
  fun w =>
    match m w with
    | (Ok a, w') => k a w'
    | (Raise e, w') => (Raise e, w')
    | (Diverge, w') => (Diverge, w')
    end.

Definition lift {S A : Type} (o : outcome A) : SO S A := fun w => (o, w).

Declare Scope so_scope.
Delimit Scope so_scope with so.
Notation "x <- m ;; k" := (bind m (fun x => k))
  (at level 100, m at next level, right associativity) : so_scope.
Notation "m ;;; k" := (bind m (fun _ => k))
  (at level 100, right associativity) : so_scope.
Local Open Scope so_scope.

(** [float(n)] for a non-negative count [n] (a NumPy [int64] or a Python
    [int] below [2^63]). *)
Definition float_of_nat (n : nat) : float :=
  PrimFloat.of_uint63 (Uint63.of_Z (Z.of_nat n)).

(** [int(x)] for a float [x]: truncation towards zero; Python raises
    [ValueError] on NaN and [OverflowError] on an infinity. *)
Definition py_int (x : float) : outcome Z :=
  match Prim2SF x with
  | S754_nan => Raise (ValueError "cannot convert float NaN to integer")
  | S754_infinity _ => Raise (OverflowError "cannot convert float infinity to integer")
  | S754_zero _ => Ok 0%Z
  | S754_finite s m e =>
      let mag := match e with
                 | Zneg k => Z.shiftr (Zpos m) (Zpos k)
                 | _ => Z.shiftl (Zpos m) e
                 end in
      Ok (if s then Z.opp mag else mag)
  end.

(** [str.lower()] on ASCII text. *)
Definition lower_ascii (a : ascii) : ascii :=
  let n := nat_of_ascii a in
  if (65 <=? n) && (n <=? 90) then ascii_of_nat (n + 32) else a.

Fixpoint lower (s : string) : string :=
  match s with
  | EmptyString => EmptyString
  | String a s' => String (lower_ascii a) (lower s')
  end.

(** * motmetrics/lap.py *)

Module lap.

(** ** NumPy arrays and the heap *)

(** A cell of an [object] array, as munkres reads it. *)
Inductive cell : Type :=
| Num (x : float)
| DISALLOWED.

Inductive ndarray : Type :=
| FloatArr (a : list (list float))
| ObjArr (a : list (list cell)).

Abbreviation ref := nat.

(** What third-party code returns: row indices and column indices. *)
Definition assignment : Type := list nat * list nat.

Inductive arc : Type := Arc (r c : nat) (cost : Z).

(** [pywrapgraph.LinearSumAssignment] after the arcs were added. *)
Inductive status : Type := OPTIMAL | INFEASIBLE | POSSIBLE_OVERFLOW.

Record LinearSumAssignment : Type := {
  Solve : status;
  NumNodes : nat;
  RightMate : nat -> nat
}.

(** The third-party code [lap.py] imports inside its functions. A backend
    that is [None] is not installed: importing it raises [ImportError] and
    [importlib.util.find_spec] returns [None] for it. Each backend reads the
    array it is given and returns indices (or raises). *)
Record third_party : Type := {
  scipy_solve : option (list (list float) -> outcome assignment);
  solve_dense : option (list (list float) -> outcome assignment);
  munkres_compute : option (list (list cell) -> outcome (list (nat * nat)));
  pywrapgraph : option (list arc -> LinearSumAssignment);
  np_log10 : float -> float
}.

(** The calls made to third-party solvers, with the array each received. *)
Inductive call : Type :=
| CallScipy (c : list (list float))
| CallLapsolver (c : list (list float))
| CallMunkres (c : list (list cell))
| CallOrtools (arcs : list arc).

Record world : Type := {
  heap : list ndarray;
  calls : list call
}.

Definition M : Type -> Type := SO world.

(** Reading the array behind a reference. *)
Definition deref (r : ref) : M ndarray :=
  fun w =>
    match heap w !! r with
    | Some a => (Ok a, w)
    | None => (Raise (TypeError "not an array"), w)
    end.

Definition float_array (r : ref) : M (list (list float)) :=
  a <- deref r ;;
  match a with
  | FloatArr c => ret c
  | ObjArr _ => raise (TypeError "ufunc not supported for the input types")
  end.

(** A fresh array: [a.copy()], [a.astype(object)]. *)
Definition alloc (a : ndarray) : M ref :=
  fun w => (Ok (length (heap w)), {| heap := heap w ++ [a]; calls := calls w |}).

(** An in-place write of the whole array behind [r]. *)
Definition store (r : ref) (a : ndarray) : M unit :=
  fun w => (Ok tt, {| heap := <[r := a]> (heap w); calls := calls w |}).

(** A call into third-party code, recorded with its argument. *)
Definition invoke {A : Type} (c : call) (result : outcome A) : M A :=
  fun w => (result, {| heap := heap w; calls := calls w ++ [c] |}).

(** [from <module> import ...] inside a function. *)
Definition import_from {A : Type} (module_name : string) (o : option A) : M A :=
  match o with
  | Some f => ret f
  | None => raise (ImportError module_name)
  end.

(** ** NumPy operations on values *)

Definition np_isfinite (c : list (list float)) : list (list bool) :=
  map (map PrimFloat.is_finite) c.

(** [~mask] *)
Definition np_invert (mask : list (list bool)) : list (list bool) :=
  map (map negb) mask.

(** [mask.any()] *)
Definition np_any (mask : list (list bool)) : bool :=
  existsb (existsb id) mask.

Fixpoint select_row {A : Type} (row : list A) (mask : list bool) : list A :=
  match row, mask with
  | x :: row', b :: mask' =>
      if b then x :: select_row row' mask' else select_row row' mask'
  | _, _ => []
  end.

(** [c[mask]]: the selected entries, flattened in row-major order. *)
Fixpoint getitem_mask {A : Type} (c : list (list A)) (mask : list (list bool)) : list A :=
  match c, mask with
  | row :: c', mrow :: mask' => select_row row mrow ++ getitem_mask c' mask'
  | _, _ => []
  end.

Fixpoint assign_row {A : Type} (row : list A) (mask : list bool) (v : A) : list A :=
  match row, mask with
  | x :: row', b :: mask' => (if b then v else x) :: assign_row row' mask' v
  | _, _ => row
  end.

(** [c[mask] = v], as the new contents of [c]. *)
Fixpoint setitem_mask {A : Type} (c : list (list A)) (mask : list (list bool)) (v : A)
  : list (list A) :=
  match c, mask with
  | row :: c', mrow :: mask' => assign_row row mrow v :: setitem_mask c' mask' v
  | _, _ => c
  end.

(** The largest entry of a non-empty list of finite values. *)
Definition max_list (x : float) (xs : list float) : float :=
  fold_left (fun m y => if PrimFloat.ltb m y then y else m) xs x.

(** [a.max()]; NumPy raises on an empty array. *)
Definition np_max (xs : list float) : outcome float :=
  match xs with
  | [] => Raise (ValueError "zero-size array to reduction operation maximum which has no identity")
  | x :: xs' => Ok (max_list x xs')
  end.

(** [np.unique]: the distinct values, sorted. *)
Fixpoint insert_unique (x : float) (l : list float) : list float :=
  match l with
  | [] => [x]
  | y :: l' =>
      if PrimFloat.ltb x y then x :: l
      else if PrimFloat.eqb x y then l
      else y :: insert_unique x l'
  end.

Definition np_unique (xs : list float) : list float :=
  fold_right insert_unique [] xs.

(** [np.diff]: the differences of consecutive entries. *)
Fixpoint np_diff (xs : list float) : list float :=
  match xs with
  | x :: (y :: _) as xs' => PrimFloat.sub y x :: np_diff xs'
  | _ => []
  end.

Definition min_list (x : float) (xs : list float) : float :=
  fold_left (fun m y => if PrimFloat.ltb y m then y else m) xs x.

(** [a.min()] *)
Definition np_min (xs : list float) : outcome float :=
  match xs with
  | [] => Raise (ValueError "zero-size array to reduction operation minimum which has no identity")
  | x :: xs' => Ok (min_list x xs')
  end.

Definition float_of_Z (z : Z) : float :=
  PrimFloat.of_uint63 (Uint63.of_Z z).

(** ** Module state *)

Record lap_globals : Type := {
  available_solvers : list string;
  default_solver : string
}.

(** [importlib.util.find_spec(s) is not None] *)
Definition find_spec (tp : third_party) (s : string) : bool :=
  if String.eqb s "scipy" then bool_decide (is_Some (scipy_solve tp))
  else if String.eqb s "ortools" then bool_decide (is_Some (pywrapgraph tp))
  else if String.eqb s "munkres" then bool_decide (is_Some (munkres_compute tp))
  else if String.eqb s "lapsolver" then bool_decide (is_Some (solve_dense tp))
  else false.

(** Runs when the module is imported; the import fails when it raises. *)
Definition init_standard_solvers (tp : third_party) : outcome lap_globals :=
  let available := List.filter (find_spec tp) ["scipy"; "ortools"; "munkres"] in
  match available with
  | [] => Raise (AssertionError "No LAP solvers are available. Try `pip install lapsolver` or `pip install scipy`")
  | s :: _ => Ok {| available_solvers := available; default_solver := s |}
  end.

(** ** The adapters *)

Section Adapters.

Context (tp : third_party) (g : lap_globals).

Definition lsa_solve_scipy (costs : ref) : M assignment :=
  scipy_solve <- import_from "scipy.optimize" (scipy_solve tp) ;;
  c <- float_array costs ;;
  let inv := np_invert (np_isfinite c) in
  costs <- (if np_any inv then
              costs <- alloc (FloatArr c) ;;
              c <- float_array costs ;;
              let valid := getitem_mask c (np_invert inv) in
              INVDIST <- (if 0 <? length valid
                          then m <- lift (np_max valid) ;;
                               ret (PrimFloat.add (PrimFloat.mul 2 m) 1)
                          else ret 1%float) ;;
              store costs (FloatArr (setitem_mask c inv INVDIST)) ;;;
              ret costs
            else ret costs) ;;
  c <- float_array costs ;;
  invoke (CallScipy c) (scipy_solve c).

Definition lsa_solve_lapsolver (costs : ref) : M assignment :=
  solve_dense <- import_from "lapsolver" (solve_dense tp) ;;
  c <- float_array costs ;;
  invoke (CallLapsolver c) (solve_dense c).

Definition lsa_solve_munkres (costs : ref) : M assignment :=
  compute <- import_from "munkres" (munkres_compute tp) ;;
  a <- deref costs ;;
  costs <- alloc a ;;
  c <- float_array costs ;;
  let inv := np_invert (np_isfinite c) in
  costs <- (if np_any inv then
              costs <- alloc (ObjArr (map (map Num) c)) ;;
              store costs (ObjArr (setitem_mask (map (map Num) c) inv DISALLOWED)) ;;;
              ret costs
            else ret costs) ;;
  a <- deref costs ;;
  let cells := match a with
               | FloatArr c => map (map Num) c
               | ObjArr o => o
               end in
  indices <- invoke (CallMunkres cells) (compute cells) ;;
  match indices with
  | [] => raise (IndexError "too many indices for array")
  | _ => ret (map fst indices, map snd indices)
  end.

(** The arcs of one row: [AddArcWithCost(r, c, int(costs[r,c]*f))] for the
    finite entries, columns in increasing order. *)
Fixpoint row_arcs (f : Z) (r c : nat) (row : list float) : outcome (list arc) :=
  match row with
  | [] => Ok []
  | x :: row' =>
      if PrimFloat.is_finite x then
        let? k := py_int (PrimFloat.mul x (float_of_Z f)) in
        let? rest := row_arcs f r (S c) row' in
        Ok (Arc r c k :: rest)
      else row_arcs f r (S c) row'
  end.

Fixpoint matrix_arcs (f : Z) (r : nat) (c : list (list float)) : outcome (list arc) :=
  match c with
  | [] => Ok []
  | row :: c' =>
      let? here := row_arcs f r 0 row in
      let? rest := matrix_arcs f (S r) c' in
      Ok (here ++ rest)
  end.

(** The arcs handed to ortools: the finite costs, scaled by [f = 10^|e|]
    and truncated ([lsa_solve_ortools], from [valid = ...] to the end of the
    double loop). *)
Definition scaled_arcs (c : list (list float)) : outcome (list arc) :=
  let valid := np_isfinite c in
  let min_e := (-8)%Z in
  let unique := np_unique (getitem_mask c valid) in
  let? min_diff := (if length unique =? 1 then Ok (hd 1%float unique)
                    else if 1 <? length unique then np_min (np_diff unique)
                    else Ok 1%float) in
  let? min_diff_e := (if negb (PrimFloat.eqb min_diff 0)
                      then let? e := py_int (np_log10 tp (PrimFloat.abs min_diff)) in
                           Ok (if (e <? 0)%Z then (e - 1)%Z else e)
                      else Ok 0%Z) in
  let e := Z.min (Z.max min_e min_diff_e) 0 in
  let f := (10 ^ Z.abs e)%Z in
  matrix_arcs f 0 c.

(** [lsa_solve_ortools]; [recur] is [linear_sum_assignment], which the
    fallback calls back into. *)
Definition lsa_solve_ortools (recur : ref -> option string -> M assignment)
    (costs : ref) : M assignment :=
  pywrapgraph <- import_from "ortools.graph" (pywrapgraph tp) ;;
  c <- float_array costs ;;
  arcs <- lift (scaled_arcs c) ;;
  assignment <- invoke (CallOrtools arcs) (Ok (pywrapgraph arcs)) ;;
  match Solve assignment with
  | OPTIMAL =>
      if NumNodes assignment =? 0 then ret ([], [])
      else
        let pairings := map (fun i => (i, RightMate assignment i)) (seq 0 (NumNodes assignment)) in
        ret (map fst pairings, map snd pairings)
  | _ =>
      if String.eqb (default_solver g) "ortools" then raise (AssertionError "")
      else recur costs (Some (default_solver g))
  end.

Fixpoint linear_sum_assignment (fuel : nat) (costs : ref) (solver : option string)
  : M assignment :=
  match fuel with
  | 0 => lift Diverge
  | S fuel' =>
      let solver := match solver with
                    | None => default_solver g
                    | Some s => s
                    end in
      let key := lower solver in
      if String.eqb key "lapsolver" then lsa_solve_lapsolver costs
      else if String.eqb key "scipy" then lsa_solve_scipy costs
      else if String.eqb key "munkres" then lsa_solve_munkres costs
      else if String.eqb key "ortools"
           then lsa_solve_ortools (linear_sum_assignment fuel') costs
      else raise (KeyError key)
  end.

End Adapters.

End lap.

(** * motmetrics/metrics.py

    The module is taken as imported: on a Python that still has
    [collections.Iterable] and [inspect.getargspec], with pandas, NumPy and
    [motmetrics.mot] available. *)

Module metrics.

(** ** The event log *)

(** Object and hypothesis identities are arbitrary hashable labels; strings
    stand for them. *)
Abbreviation ident := string.

(** A row of the events data frame. The index is [(FrameId, EventId)];
    [None] is a null cell ([OId] of an [FP] row, [HId] of a [MISS] row); a
    missing distance [D] is NaN. *)
Record row : Type := {
  FrameId : Z;
  EventId : Z;
  Type_ : string;
  OId : option ident;
  HId : option ident;
  D : float
}.

Abbreviation DataFrame := (list row).

(** ** Python values *)

Inductive value : Type :=
| VNone
| VInt (n : Z)
| VFloat (x : float)                    (* a Python [float] *)
| VFloat64 (x : float)                  (* a [numpy.float64] *)
| VCounts (s : list (ident * nat))      (* a Series of counts, indexed by [OId] *)
| VRatios (s : list (ident * float))    (* a Series of floats, indexed by [OId] *)
| VFrame (df : DataFrame)
| VObject (name : string).              (* a function, class or module of the module scope *)

(** The names bound at module level in [metrics.py]. *)
Definition module_names : list string :=
  ["pd"; "np"; "OrderedDict"; "Iterable"; "MOTAccumulator"; "MetricsContainer";
   "num_frames"; "obj_frequencies"; "num_unique_objects"; "num_matches";
   "num_switches"; "num_falsepositives"; "num_misses"; "num_detections";
   "num_objects"; "track_ratios"; "mostly_tracked"; "partially_tracked";
   "mostly_lost"; "num_fragmentation"; "motp"; "mota"; "precision"; "recall";
   "default_metrics"; "compute_metrics"; "summarize"].

(** Reading a name that is not a local variable of the function: the module
    scope is searched (then the builtins, which hold none of the names read
    this way below). *)
Definition load_global (name : string) : outcome value :=
  if existsb (String.eqb name) module_names then Ok (VObject name)
  else Raise (NameError name).

(** ** pandas operations *)

Fixpoint distinct (l : list Z) : list Z :=
  match l with
  | [] => []
  | x :: l' => x :: List.filter (fun y => negb (Z.eqb x y)) (distinct l')
  end.

(** [df.Type.isin([t]).sum()] *)
Definition count_type (t : string) (df : DataFrame) : nat :=
  length (List.filter (fun r => String.eqb (Type_ r) t) df).

(** The non-null cells of the [OId] column. *)
Definition oids (df : DataFrame) : list ident :=
  omap OId df.

Fixpoint bump (o : ident) (s : list (ident * nat)) : list (ident * nat) :=
  match s with
  | [] => [(o, 1)]
  | (o', n) :: s' => if String.eqb o o' then (o', S n) :: s' else (o', n) :: bump o s'
  end.

(** [Series.value_counts()]: how often each label occurs. pandas orders the
    result by decreasing count; the labels are kept here in order of first
    occurrence, as the values read below do not depend on the order ([len],
    a label-aligned [div], an integer sum over the index). When the
    fragmentation loop fails for several objects, the order decides which of
    them is reported. *)
Definition value_counts (labels : list ident) : list (ident * nat) :=
  fold_left (fun s o => bump o s) labels [].

Fixpoint series_get {A : Type} (o : ident) (s : list (ident * A)) : option A :=
  match s with
  | [] => None
  | (o', a) :: s' => if String.eqb o o' then Some a else series_get o s'
  end.

(** [df[df.Type != 'MISS']] *)
Definition not_missed (df : DataFrame) : DataFrame :=
  List.filter (fun r => negb (String.eqb (Type_ r) "MISS")) df.

(** [tracked.div(objs).fillna(1.)]: label-aligned division over the union of
    the two indexes; a label that one side lacks gives NaN, which [fillna]
    turns into [1.0]. *)
Definition div_fillna (tracked objs : list (ident * nat)) : list (ident * float) :=
  map (fun '(o, n) =>
         match series_get o tracked with
         | Some t =>
             let q := PrimFloat.div (float_of_nat t) (float_of_nat n) in
             (o, if PrimFloat.is_nan q then 1%float else q)
         | None => (o, 1%float)
         end) objs
  ++ map (fun '(o, _) => (o, 1%float))
         (List.filter (fun '(o, _) => negb (bool_decide (is_Some (series_get o objs)))) tracked).

(** [s.count()] for a Series of floats: the cells that are not NaN. *)
Definition count_notna (s : list (ident * float)) : nat :=
  length (List.filter (fun '(_, x) => negb (PrimFloat.is_nan x)) s).

Fixpoint select {A : Type} (s : list A) (mask : list bool) : list A :=
  match s, mask with
  | x :: s', b :: mask' => if b then x :: select s' mask' else select s' mask'
  | _, _ => []
  end.

(** Lexicographic order of index labels [(FrameId, EventId)]. *)
Definition index_leb (a b : Z * Z) : bool :=
  (fst a <? fst b)%Z || ((fst a =? fst b)%Z && (snd a <=? snd b)%Z).

Definition index_of (r : row) : Z * Z := (FrameId r, EventId r).

(** [diffs[diffs == 1].count()] for [diffs = flags.diff()]: the positions
    where a [0] is followed by a [1]. *)
Fixpoint count_rises (flags : list bool) : nat :=
  match flags with
  | a :: (b :: _) as flags' =>
      (if negb a && b then 1 else 0) + count_rises flags'
  | _ => 0
  end.

(** [libalgos.is_lexsorted]: the index labels do not decrease. *)
Fixpoint is_lexsorted (index : list (Z * Z)) : bool :=
  match index with
  | a :: (b :: _) as index' => index_leb a b && is_lexsorted index'
  | _ => true
  end.

Fixpoint is_sorted (l : list Z) : bool :=
  match l with
  | a :: (b :: _) as l' => (a <=? b)%Z && is_sorted l'
  | _ => true
  end.

(** [MultiIndex.lexsort_depth]: the number of leading levels by which the
    index is sorted. The levels hold their values in increasing order, as
    [MultiIndex.from_tuples] and [from_arrays] build them, so that the order
    of the codes is the order of the labels. *)
Definition lexsort_depth (index : list (Z * Z)) : nat :=
  if is_lexsorted index then 2
  else if is_sorted (map fst index) then 1
  else 0.

(** [dfo.loc[first:last]] for two index labels: a label slice, which pandas
    refuses on a [MultiIndex] that is not sorted by both levels; on a sorted
    one it keeps the rows whose label lies between the two, ends included. *)
Definition loc_slice (dfo : DataFrame) (first last : Z * Z) : outcome DataFrame :=
  match lexsort_depth (map index_of dfo) with
  | 0 => Raise (UnsortedIndexError
                  "Key length (2) was greater than MultiIndex lexsort depth (0)")
  | 1 => Raise (UnsortedIndexError
                  "Key length (2) was greater than MultiIndex lexsort depth (1)")
  | _ => Ok (List.filter (fun r => index_leb first (index_of r)
                                   && index_leb (index_of r) last) dfo)
  end.

(** One iteration of the fragmentation loop, for the object [o]. *)
Definition fragments_of (df : DataFrame) (o : ident) : outcome nat :=
  let dfo := List.filter (fun r => bool_decide (OId r = Some o)) df in
  let notmiss := not_missed dfo in
  match notmiss with
  | [] => Ok 0
  | r0 :: _ =>
      let first := index_of r0 in
      let last := index_of (List.last notmiss r0) in
      let? span := loc_slice dfo first last in
      Ok (count_rises (map (fun r => String.eqb (Type_ r) "MISS") span))
  end.

(** The loop [for o in obj_frequencies.index: ... fra += ...], entered with
    the count [fra]. *)
Fixpoint fragmentation_loop (df : DataFrame) (index : list ident) (fra : nat) : outcome nat :=
  match index with
  | [] => Ok fra
  | o :: index' =>
      let? n := fragments_of df o in
      fragmentation_loop df index' (fra + n)
  end.

Definition fragmentation (df : DataFrame) (index : list ident) : outcome nat :=
  fragmentation_loop df index 0.

(** ** Python arithmetic on the values the metrics exchange *)

Definition type_name (v : value) : string :=
  match v with
  | VNone => "NoneType"
  | VInt _ => "int"
  | VFloat _ => "float"
  | VFloat64 _ => "numpy.float64"
  | VCounts _ | VRatios _ => "Series"
  | VFrame _ => "DataFrame"
  | VObject _ => "function"
  end.

Definition unsupported (op : string) (a b : value) : exn :=
  TypeError ("unsupported operand type(s) for " ++ op ++ ": '" ++ type_name a
             ++ "' and '" ++ type_name b ++ "'").

(** Operand combinations the metric functions are never given in the
    registry (integers and Series as operands) are outside the model. *)
Definition py_add (a b : value) : outcome value :=
  match a, b with
  | VFloat x, VFloat y => Ok (VFloat (PrimFloat.add x y))
  | VFloat64 x, VFloat y | VFloat x, VFloat64 y | VFloat64 x, VFloat64 y =>
      Ok (VFloat64 (PrimFloat.add x y))
  | VNone, _ | _, VNone | VObject _, _ | _, VObject _ => Raise (unsupported "+" a b)
  | _, _ => Raise (Unmodelled "operands")
  end.

Definition py_sub (a b : value) : outcome value :=
  match a, b with
  | VFloat x, VFloat y => Ok (VFloat (PrimFloat.sub x y))
  | VFloat64 x, VFloat y | VFloat x, VFloat64 y | VFloat64 x, VFloat64 y =>
      Ok (VFloat64 (PrimFloat.sub x y))
  | VNone, _ | _, VNone | VObject _, _ | _, VObject _ => Raise (unsupported "-" a b)
  | _, _ => Raise (Unmodelled "operands")
  end.

(** [a / b]: Python floats raise on a zero divisor, NumPy scalars do not. *)
Definition py_div (a b : value) : outcome value :=
  match a, b with
  | VFloat x, VFloat y =>
      if PrimFloat.eqb y 0 then Raise (ZeroDivisionError "float division by zero")
      else Ok (VFloat (PrimFloat.div x y))
  | VFloat64 x, VFloat y | VFloat x, VFloat64 y | VFloat64 x, VFloat64 y =>
      Ok (VFloat64 (PrimFloat.div x y))
  | VNone, _ | _, VNone | VObject _, _ | _, VObject _ => Raise (unsupported "/" a b)
  | _, _ => Raise (Unmodelled "operands")
  end.

(** [len(v)] *)
Definition py_len (v : value) : outcome nat :=
  match v with
  | VCounts s => Ok (length s)
  | VRatios s => Ok (length s)
  | VFrame df => Ok (length df)
  | _ => Raise (TypeError ("object of type '" ++ type_name v ++ "' has no len()"))
  end.

Inductive comparison_op : Type := GE | LT.

Definition op_name (op : comparison_op) : string :=
  match op with GE => ">=" | LT => "<" end.

(** [v >= x], [v < x] for a float literal [x]: a boolean mask when [v] is a
    Series of floats. Masks are positional: they are only applied to the
    Series they were computed from. *)
Definition py_compare (op : comparison_op) (v : value) (x : float) : outcome (list bool) :=
  match v with
  | VRatios s =>
      Ok (map (fun '(_, y) => match op with
                              | GE => PrimFloat.leb x y
                              | LT => PrimFloat.ltb y x
                              end) s)
  | VNone | VObject _ =>
      Raise (TypeError ("'" ++ op_name op ++ "' not supported between instances of '"
                        ++ type_name v ++ "' and 'float'"))
  | _ => Raise (Unmodelled "operands")
  end.

(** [v[mask]] *)
Definition py_getitem_mask (v : value) (mask : list bool) : outcome value :=
  match v with
  | VRatios s => Ok (VRatios (select s mask))
  | VCounts s => Ok (VCounts (select s mask))
  | VFrame df => Ok (VFrame (select df mask))
  | VNone | VInt _ | VFloat _ | VObject _ =>
      Raise (TypeError ("'" ++ type_name v ++ "' object is not subscriptable"))
  | VFloat64 _ => Raise (Unmodelled "operands")
  end.

(** [v.count()] *)
Definition py_count (v : value) : outcome value :=
  match v with
  | VRatios s => Ok (VInt (Z.of_nat (count_notna s)))
  | VCounts s => Ok (VInt (Z.of_nat (length s)))
  | VNone | VInt _ | VFloat _ | VObject _ =>
      Raise (AttributeError ("'" ++ type_name v ++ "' object has no attribute 'count'"))
  | _ => Raise (Unmodelled "operands")
  end.

(** [v['OId'].value_counts()] *)
Definition py_oid_value_counts (v : value) : outcome value :=
  match v with
  | VFrame df => Ok (VCounts (value_counts (oids df)))
  | VNone | VInt _ | VFloat _ | VObject _ =>
      Raise (TypeError ("'" ++ type_name v ++ "' object is not subscriptable"))
  | _ => Raise (Unmodelled "operands")
  end.

(** [tracked.div(obj_frequencies).fillna(1.)] *)
Definition py_div_fillna (tracked obj_frequencies : value) : outcome value :=
  match tracked, obj_frequencies with
  | VCounts t, VCounts f => Ok (VRatios (div_fillna t f))
  | (VNone | VInt _ | VFloat _ | VObject _), _ =>
      Raise (AttributeError ("'" ++ type_name tracked ++ "' object has no attribute 'div'"))
  | _, _ => Raise (Unmodelled "operands")
  end.

(** [v.index] of a Series, as the list of its labels. *)
Definition py_index (v : value) : outcome (list ident) :=
  match v with
  | VCounts s => Ok (map fst s)
  | VRatios s => Ok (map fst s)
  | VNone | VInt _ | VFloat _ | VFloat64 _ | VObject _ =>
      Raise (AttributeError ("'" ++ type_name v ++ "' object has no attribute 'index'"))
  | VFrame _ => Raise (Unmodelled "operands")
  end.

(** ** The metric functions *)

(** A Python function: its name, its parameter names (what
    [inspect.getargspec(fnc).args] returns) and its body, which receives the
    data frame and the remaining positional arguments. *)
Record function : Type := {
  __name__ : string;
  args : list string;
  body : DataFrame -> list value -> outcome value
}.

(** [fnc(df, *vals)]: the call binds [df] and [vals] to the parameters. *)
Definition py_call (f : function) (df : DataFrame) (vals : list value) : outcome value :=
  if S (length vals) =? length (args f) then body f df vals
  else Raise (TypeError (__name__ f ++ "() called with the wrong number of positional arguments")).

(** The body of a function applied to an argument list it was not bound to. *)
Definition bad_arity : outcome value := Raise (TypeError "wrong number of arguments").

Definition num_frames : function :=
  {| __name__ := "num_frames"; args := ["df"];
     body := fun df vals =>
       match vals with
       | [] => Ok (VFloat (float_of_nat (length (distinct (map FrameId df)))))
       | _ => bad_arity
       end |}.

Definition obj_frequencies : function :=
  {| __name__ := "obj_frequencies"; args := ["df"];
     body := fun df vals =>
       match vals with
       | [] => Ok (VCounts (value_counts (oids df)))
       | _ => bad_arity
       end |}.

Definition num_unique_objects : function :=
  {| __name__ := "num_unique_objects"; args := ["df"; "obj_frequencies"];
     body := fun df vals =>
       match vals with
       | [obj_frequencies] =>
           let? n := py_len obj_frequencies in Ok (VFloat (float_of_nat n))
       | _ => bad_arity
       end |}.

Definition num_matches : function :=
  {| __name__ := "num_matches"; args := ["df"];
     body := fun df vals =>
       match vals with
       | [] => Ok (VFloat (float_of_nat (count_type "MATCH" df)))
       | _ => bad_arity
       end |}.

Definition num_switches : function :=
  {| __name__ := "num_switches"; args := ["df"];
     body := fun df vals =>
       match vals with
       | [] => Ok (VFloat (float_of_nat (count_type "SWITCH" df)))
       | _ => bad_arity
       end |}.

Definition num_falsepositives : function :=
  {| __name__ := "num_falsepositives"; args := ["df"];
     body := fun df vals =>
       match vals with
       | [] => Ok (VFloat (float_of_nat (count_type "FP" df)))
       | _ => bad_arity
       end |}.

(** The body is an expression statement: its value is dropped and the
    function falls off its end, returning [None]. *)
Definition num_misses : function :=
  {| __name__ := "num_misses"; args := ["df"];
     body := fun df vals =>
       match vals with
       | [] => let _ := VFloat (float_of_nat (count_type "MISS" df)) in Ok VNone
       | _ => bad_arity
       end |}.

Definition num_detections : function :=
  {| __name__ := "num_detections"; args := ["df"; "num_matches"; "num_switches"];
     body := fun df vals =>
       match vals with
       | [num_matches; num_switches] => py_add num_matches num_switches
       | _ => bad_arity
       end |}.

Definition num_objects : function :=
  {| __name__ := "num_objects"; args := ["df"];
     body := fun df vals =>
       match vals with
       | [] => Ok (VFloat (float_of_nat (length (oids df))))
       | _ => bad_arity
       end |}.

(** [data] is neither a parameter nor a local variable of [track_ratios]. *)
Definition track_ratios : function :=
  {| __name__ := "track_ratios"; args := ["df"; "obj_frequencies"];
     body := fun df vals =>
       match vals with
       | [obj_frequencies] =>
           let? data := load_global "data" in
           let mask := map (fun r => negb (String.eqb (Type_ r) "MISS")) df in
           let? rows := py_getitem_mask data mask in
           let? tracked := py_oid_value_counts rows in
           py_div_fillna tracked obj_frequencies
       | _ => bad_arity
       end |}.

(** [track_ratio] is neither a parameter nor a local variable here. *)
Definition mostly_tracked : function :=
  {| __name__ := "mostly_tracked"; args := ["df"; "track_ratios"];
     body := fun df vals =>
       match vals with
       | [track_ratios] =>
           let? track_ratio := load_global "track_ratio" in
           let? mask := py_compare GE track_ratios 0.8 in
           let? selected := py_getitem_mask track_ratio mask in
           py_count selected
       | _ => bad_arity
       end |}.

Definition partially_tracked : function :=
  {| __name__ := "partially_tracked"; args := ["df"; "track_ratios"];
     body := fun df vals =>
       match vals with
       | [track_ratios] =>
           let? ge := py_compare GE track_ratios 0.2 in
           let? lt := py_compare LT track_ratios 0.8 in
           let? selected := py_getitem_mask track_ratios (zip_with andb ge lt) in
           py_count selected
       | _ => bad_arity
       end |}.

Definition mostly_lost : function :=
  {| __name__ := "mostly_lost"; args := ["df"; "track_ratios"];
     body := fun df vals =>
       match vals with
       | [track_ratios] =>
           let? track_ratio := load_global "track_ratio" in
           let? track_ratio' := load_global "track_ratio" in
           let? mask := py_compare LT track_ratio' 0.2 in
           let? selected := py_getitem_mask track_ratio mask in
           py_count selected
       | _ => bad_arity
       end |}.

Definition num_fragmentation : function :=
  {| __name__ := "num_fragmentation"; args := ["df"; "obj_frequencies"];
     body := fun df vals =>
       match vals with
       | [obj_frequencies] =>
           let? index := py_index obj_frequencies in
           let? fra := fragmentation df index in
           Ok (VInt (Z.of_nat fra))
       | _ => bad_arity
       end |}.

(** [df['D'].sum()] is pandas and NumPy code: the sum of the cells of the
    column that are not NaN, a [numpy.float64]. The order in which the cells
    are added, and with it the last bits of the sum, depends on the length
    of the column and on the libraries; the sum is a parameter,
    [Series_sum], of the definitions that read it. *)
Definition motp (Series_sum : list float -> float) : function :=
  {| __name__ := "motp"; args := ["df"; "num_detections"];
     body := fun df vals =>
       match vals with
       | [num_detections] => py_div (VFloat64 (Series_sum (map D df))) num_detections
       | _ => bad_arity
       end |}.

Definition mota : function :=
  {| __name__ := "mota";
     args := ["df"; "num_misses"; "num_switches"; "num_falsepositives"; "num_objects"];
     body := fun df vals =>
       match vals with
       | [num_misses; num_switches; num_falsepositives; num_objects] =>
           let? a := py_add num_misses num_switches in
           let? b := py_add a num_falsepositives in
           let? q := py_div b num_objects in
           py_sub (VFloat 1) q
       | _ => bad_arity
       end |}.

Definition precision : function :=
  {| __name__ := "precision"; args := ["df"; "num_detections"; "num_falsepositives"];
     body := fun df vals =>
       match vals with
       | [num_detections; num_falsepositives] =>
           let? d := py_add num_falsepositives num_detections in
           py_div num_detections d
       | _ => bad_arity
       end |}.

Definition recall : function :=
  {| __name__ := "recall"; args := ["df"; "num_detections"; "num_objects"];
     body := fun df vals =>
       match vals with
       | [num_detections; num_objects] => py_div num_detections num_objects
       | _ => bad_arity
       end |}.

(** ** MetricsContainer *)

(** A Python [dict] with string keys: insertion-ordered; assigning to a key
    that is present replaces its value where it stands. *)
Abbreviation dict V := (list (string * V)).

Fixpoint dict_get {V : Type} (k : string) (d : dict V) : option V :=
  match d with
  | [] => None
  | (k', v) :: d' => if String.eqb k k' then Some v else dict_get k d'
  end.

Fixpoint dict_set {V : Type} (k : string) (v : V) (d : dict V) : dict V :=
  match d with
  | [] => [(k, v)]
  | (k', v') :: d' =>
      if String.eqb k k' then (k, v) :: d' else (k', v') :: dict_set k v d'
  end.

(** The entry [register] stores for a metric. *)
Record minfo : Type := {
  name : string;
  fnc : function;
  deps : list string
}.

Record MetricsContainer : Type := {
  metrics : dict minfo
}.

(** [MetricsContainer()] *)
Definition __init__ : MetricsContainer := {| metrics := [] |}.

(** The [deps] argument of [register]: [None], the string ['auto'] (which
    [deps is 'auto'] recognises), or a list of names. *)
Inductive deps_arg : Type :=
| DepsNone
| DepsAuto
| DepsList (l : list string).

Definition register (self : MetricsContainer) (fnc : option function)
    (deps : deps_arg) (name : option string) : outcome MetricsContainer :=
  match fnc with
  | None =>
      Raise (AssertionError ("No function given for metric "
                             ++ match name with Some n => n | None => "None" end))
  | Some fnc =>
      let deps := match deps with
                  | DepsNone => []
                  | DepsAuto => tail (args fnc)
                  | DepsList l => l
                  end in
      let name := match name with
                  | None => __name__ fnc
                  | Some n => n
                  end in
      Ok {| metrics := dict_set name {| name := name; fnc := fnc; deps := deps |}
                                (metrics self) |}
  end.

Definition names (self : MetricsContainer) : list string :=
  map (fun kv => name (snd kv)) (metrics self).

(** The state of one [summarize] call: the [cache] dictionary, and the names
    of the metric functions executed so far, oldest first. *)
Record evaluation : Type := {
  cache : gmap string value;
  executed : list string
}.

Abbreviation E := (SO evaluation).

Definition in_cache (k : string) : E bool :=
  fun st => (Ok (bool_decide (is_Some (cache st !! k))), st).

(** [cache[k] = v] *)
Definition cache_set (k : string) (v : value) : E unit :=
  fun st => (Ok tt, {| cache := <[k := v]> (cache st); executed := executed st |}).

(** [cache[k]] *)
Definition cache_get (k : string) : E value :=
  fun st =>
    match cache st !! k with
    | Some v => (Ok v, st)
    | None => (Raise (KeyError k), st)
    end.

(** [minfo['fnc'](df, *vals)], recorded. *)
Definition execute (m : minfo) (df : DataFrame) (vals : list value) : E value :=
  fun st => (py_call (fnc m) df vals,
             {| cache := cache st; executed := executed st ++ [name m] |}).

(** The loop over [minfo['deps']] in [_compute]; [compute depname] is the
    recursive call [self._compute(df, depname, cache, parent=name)]. *)
Fixpoint deps_loop (compute : string -> E value) (deps : list string)
    (vals : list value) : E (list value) :=
  match deps with
  | [] => ret vals
  | depname :: deps' =>
      known <- in_cache depname ;;
      (if negb known
       then v <- compute depname ;; cache_set depname v
       else ret tt) ;;;
      v <- cache_get depname ;;
      deps_loop compute deps' (vals ++ [v])
  end.

(** [_compute]; the recursion is bounded by [fuel], and a call that needs
    more is [Diverge]. *)
Fixpoint _compute (self : MetricsContainer) (fuel : nat) (df : DataFrame)
    (name parent : string) : E value :=
  match fuel with
  | 0 => lift Diverge
  | S fuel' =>
      match dict_get name (metrics self) with
      | None =>
          raise (AssertionError ("Cannot find metric " ++ name ++ " required by "
                                 ++ parent ++ "."))
      | Some minfo =>
          vals <- deps_loop (fun depname => _compute self fuel' df depname name)
                            (deps minfo) [] ;;
          execute minfo df vals
      end
  end.

(** The loop [for mname in metrics: cache[mname] = self._compute(...)]. *)
Fixpoint summarize_loop (self : MetricsContainer) (fuel : nat) (df : DataFrame)
    (metrics : list string) : E unit :=
  match metrics with
  | [] => ret tt
  | mname :: metrics' =>
      v <- _compute self fuel df mname "summarize" ;;
      cache_set mname v ;;;
      summarize_loop self fuel df metrics'
  end.

(** [OrderedDict([(k, cache[k]) for k in metrics])] *)
Fixpoint collect (metrics : list string) : E (list (string * value)) :=
  match metrics with
  | [] => ret []
  | k :: metrics' =>
      v <- cache_get k ;;
      rest <- collect metrics' ;;
      ret ((k, v) :: rest)
  end.

Definition OrderedDict {V : Type} (pairs : list (string * V)) : dict V :=
  fold_left (fun d kv => dict_set (fst kv) (snd kv) d) pairs [].

(** [MetricsContainer.summarize(df, metrics)], from a fresh cache; the
    final state tells which functions were executed. *)
Definition MetricsContainer_summarize (self : MetricsContainer) (fuel : nat) (df : DataFrame)
    (metrics : option (list string)) : outcome (dict value) * evaluation :=
  let metrics := match metrics with
                 | None => names self
                 | Some l => l
                 end in
  (summarize_loop self fuel df metrics ;;;
   pairs <- collect metrics ;;
   ret (OrderedDict pairs)) {| cache := ∅; executed := [] |}.

(** [default_metrics()]: the [register] calls in source order. *)
Definition default_metrics (Series_sum : list float -> float) : outcome MetricsContainer :=
  let m := __init__ in
  let? m := register m (Some num_frames) DepsNone None in
  let? m := register m (Some obj_frequencies) DepsNone None in
  let? m := register m (Some num_matches) DepsNone None in
  let? m := register m (Some num_switches) DepsNone None in
  let? m := register m (Some num_falsepositives) DepsNone None in
  let? m := register m (Some num_misses) DepsNone None in
  let? m := register m (Some num_detections) DepsNone None in
  let? m := register m (Some num_objects) DepsNone None in
  let? m := register m (Some num_unique_objects) DepsAuto None in
  let? m := register m (Some track_ratios) DepsAuto None in
  let? m := register m (Some mostly_tracked) DepsAuto None in
  let? m := register m (Some partially_tracked) DepsAuto None in
  let? m := register m (Some mostly_lost) DepsAuto None in
  let? m := register m (Some num_fragmentation) DepsAuto None in
  let? m := register m (Some (motp Series_sum)) DepsAuto None in
  let? m := register m (Some mota) DepsAuto None in
  let? m := register m (Some precision) DepsAuto None in
  let? m := register m (Some recall) DepsAuto None in
  Ok m.

(** ** compute_metrics and the module-level summarize *)

(** What [summarize] is given for one tracker run: a [MOTAccumulator], of
    which only the [events] property is read, or the events data frame. *)
Inductive accumulator : Type :=
| MOTAccumulator (events : DataFrame)
| Frame (df : DataFrame).

Definition events_of (d : accumulator) : DataFrame :=
  match d with
  | MOTAccumulator events => events
  | Frame df => df
  end.

(** [savediv = lambda a,b: a / b if b != 0 else np.nan] on floats. *)
Definition savediv (a b : float) : float :=
  if negb (PrimFloat.eqb b 0) then PrimFloat.div a b else PrimFloat.nan.

(** [savediv(data['D'].sum(), nc)]: the quotient of a [numpy.float64] by a
    [float] is a [numpy.float64]; when there is no division the value is
    [np.nan], a Python [float]. *)
Definition savediv_float64 (a b : float) : value :=
  if negb (PrimFloat.eqb b 0) then VFloat64 (PrimFloat.div a b) else VFloat PrimFloat.nan.

Definition compute_metrics (Series_sum : list float -> float) (data : accumulator)
  : outcome (dict value) :=
  let data := events_of data in
  let nframes := float_of_nat (length (distinct (map FrameId data))) in
  let nmatch := float_of_nat (count_type "MATCH" data) in
  let nswitch := float_of_nat (count_type "SWITCH" data) in
  let nfp := float_of_nat (count_type "FP" data) in
  let nmiss := float_of_nat (count_type "MISS" data) in
  let nc := PrimFloat.add nmatch nswitch in
  let ng := float_of_nat (length (oids data)) in
  let objs := value_counts (oids data) in
  let tracked := value_counts (oids (not_missed data)) in
  let track_ratio := div_fillna tracked objs in
  let? fra := fragmentation data (map fst objs) in
  let? Frames := py_int nframes in
  let? Match := py_int nmatch in
  let? Switch := py_int nswitch in
  let? FalsePos := py_int nfp in
  let? Miss := py_int nmiss in
  Ok (OrderedDict
        [("Frames", VInt Frames);
         ("Match", VInt Match);
         ("Switch", VInt Switch);
         ("FalsePos", VInt FalsePos);
         ("Miss", VInt Miss);
         ("MOTP", savediv_float64 (Series_sum (map D data)) nc);
         ("MOTA", VFloat (PrimFloat.sub 1
                            (savediv (PrimFloat.add (PrimFloat.add nmiss nswitch) nfp) ng)));
         ("Precision", VFloat (savediv nc (PrimFloat.add nfp nc)));
         ("Recall", VFloat (savediv nc ng));
         ("Frag", VInt (Z.of_nat fra));
         ("Objs", VInt (Z.of_nat (length objs)));
         ("MT", VInt (Z.of_nat (count_notna
                  (List.filter (fun '(_, x) => PrimFloat.leb 0.8 x) track_ratio))));
         ("PT", VInt (Z.of_nat (count_notna
                  (List.filter (fun '(_, x) => PrimFloat.leb 0.2 x && PrimFloat.ltb x 0.8)
                               track_ratio))));
         ("ML", VInt (Z.of_nat (count_notna
                  (List.filter (fun '(_, x) => PrimFloat.ltb x 0.2) track_ratio))))]).

(** A row label of the summary. *)
Inductive label : Type :=
| LInt (n : Z)
| LStr (s : string).

(** The [accs] argument: one accumulator or data frame, or a list. *)
Inductive accs_arg : Type :=
| One (d : accumulator)
| Several (l : list accumulator).

(** The [names] argument: omitted, a string, a list, or a value that is not
    iterable (a number). *)
Inductive names_arg : Type :=
| NamesNone
| NamesStr (s : string)
| NamesList (l : list label)
| NamesScalar (n : Z).

(** A data frame of metrics: its rows, each a label and the cells by column
    name. *)
Abbreviation table := (list (label * dict value)).

(** [pd.concat(dfs)] of one-row frames with the same columns. *)
Definition pd_concat (dfs : list (label * dict value)) : outcome table :=
  match dfs with
  | [] => Raise (ValueError "No objects to concatenate")
  | _ => Ok dfs
  end.

(** Iterating over a string yields its characters, as strings. *)
Fixpoint characters (s : string) : list label :=
  match s with
  | EmptyString => []
  | String a s' => LStr (String a EmptyString) :: characters s'
  end.

(** The loop [for name, ev in zip(names, events): dfs.append(...)]. *)
Fixpoint rows_of (Series_sum : list float -> float) (pairs : list (label * DataFrame))
  : outcome (list (label * dict value)) :=
  match pairs with
  | [] => Ok []
  | (name, ev) :: pairs' =>
      let? metr := compute_metrics Series_sum (Frame ev) in
      let? rest := rows_of Series_sum pairs' in
      Ok ((name, metr) :: rest)
  end.

(** The module-level [summarize(accs, names=None)]. *)
Definition summarize (Series_sum : list float -> float) (accs : accs_arg) (names : names_arg)
  : outcome table :=
  let accs := match accs with
              | One d => [d]
              | Several l => l
              end in
  let names := match names with
               | NamesNone => map (fun i => LInt (Z.of_nat i)) (seq 0 (length accs))
               | NamesStr s => characters s
               | NamesList l => l
               | NamesScalar n => [LInt n]
               end in
  let events := map events_of accs in
  let? dfs := rows_of Series_sum (zip names events) in
  pd_concat dfs.

End metrics.

(** * Closed configurations for the examples *)

Module examples.

Import lap.

(** A backend that matches row [i] with column [i]: it returns as many pairs
    as the smaller dimension, like scipy or lapsolver on finite costs. *)
Definition identity_matching {A : Type} (c : list (list A)) : outcome assignment :=
  let k := Nat.min (length c) (length (hd [] c)) in
  Ok (seq 0 k, seq 0 k).

(** An ortools that never reaches an optimal solution. *)
Definition failing_ortools (arcs : list arc) : LinearSumAssignment :=
  {| Solve := INFEASIBLE; NumNodes := 0; RightMate := fun i => i |}.

(** An installation with scipy and ortools. The examples take no logarithm:
    their finite costs are all equal to zero. *)
Definition installed : third_party :=
  {| scipy_solve := Some identity_matching;
     solve_dense := None;
     munkres_compute := None;
     pywrapgraph := Some failing_ortools;
     np_log10 := fun _ => PrimFloat.nan |}.

Definition globals : lap_globals :=
  {| available_solvers := ["scipy"; "ortools"]; default_solver := "scipy" |}.

Definition one_array (c : list (list float)) : world :=
  {| heap := [FloatArr c]; calls := [] |}.

(** A two-frame event log: object [a] is matched, then switched to another
    hypothesis; object [b] is missed; one hypothesis is a false positive. *)
Definition log : metrics.DataFrame :=
  [ {| metrics.FrameId := 0; metrics.EventId := 0; metrics.Type_ := "MATCH";
       metrics.OId := Some "a"; metrics.HId := Some "1"; metrics.D := 0.1 |};
    {| metrics.FrameId := 0; metrics.EventId := 1; metrics.Type_ := "MISS";
       metrics.OId := Some "b"; metrics.HId := None; metrics.D := PrimFloat.nan |};
    {| metrics.FrameId := 1; metrics.EventId := 0; metrics.Type_ := "SWITCH";
       metrics.OId := Some "a"; metrics.HId := Some "2"; metrics.D := 0.3 |};
    {| metrics.FrameId := 1; metrics.EventId := 1; metrics.Type_ := "FP";
       metrics.OId := None; metrics.HId := Some "3"; metrics.D := PrimFloat.nan |} ].

(** One way of adding up a column: the cells that are not NaN, from first
    to last. *)
Definition left_to_right (column : list float) : float :=
  fold_left (fun acc x => if PrimFloat.is_nan x then acc else PrimFloat.add acc x)
            column 0%float.

End examples.

(** * Facts about binary64 values

    [float(n)] of a machine integer is never NaN or an infinity, so [int]
    of it never raises; and [<] orders the values that are not NaN. *)

Module float_facts.

Local Open Scope Z_scope.

Lemma digits2_pos_bound p : forall k, 0 <= k -> Zpos p < 2 ^ k -> Zpos (SpecFloat.digits2_pos p) <= k.
Proof.
  induction p as [p IH|p IH|]; intros k Hk Hlt; simpl.
  - assert (k <> 0) by (intros ->; simpl in Hlt; lia).
    replace k with (Z.succ (k - 1)) in Hlt by lia.
    rewrite Z.pow_succ_r in Hlt by lia.
    specialize (IH (k - 1)). rewrite Pos2Z.inj_succ. lia.
  - assert (k <> 0) by (intros ->; simpl in Hlt; lia).
    replace k with (Z.succ (k - 1)) in Hlt by lia.
    rewrite Z.pow_succ_r in Hlt by lia.
    specialize (IH (k - 1)). rewrite Pos2Z.inj_succ. lia.
  - assert (k <> 0) by (intros ->; simpl in Hlt; lia). lia.
Qed.

Lemma digits2_pos_succ p :
  Zpos (SpecFloat.digits2_pos (Pos.succ p)) <= Zpos (SpecFloat.digits2_pos p) + 1.
Proof.
  induction p as [p IH|p IH|]; simpl; rewrite ?Pos2Z.inj_succ; lia.
Qed.

Lemma digits2_pos_iter_xO p k :
  Zpos (SpecFloat.digits2_pos (Pos.iter xO p k)) = Zpos (SpecFloat.digits2_pos p) + Zpos k.
Proof.
  induction k as [|k IH] using Pos.peano_ind.
  - simpl. rewrite Pos2Z.inj_succ. lia.
  - rewrite Pos.iter_succ. simpl. rewrite !Pos2Z.inj_succ. lia.
Qed.

Definition small (K : Z) (mrs : SpecFloat.shr_record) : Prop :=
  0 <= SpecFloat.shr_m mrs /\ SpecFloat.Zdigits2 (SpecFloat.shr_m mrs) <= K.

Lemma shr_1_small K mrs : small K mrs -> small K (SpecFloat.shr_1 mrs).
Proof.
  unfold small. destruct mrs as [m r s]. simpl.
  destruct m as [|[p|p|]|p]; simpl; rewrite ?Pos2Z.inj_succ; lia.
Qed.

Lemma iter_pos_small K n : forall mrs, small K mrs -> small K (SpecFloat.iter_pos SpecFloat.shr_1 n mrs).
Proof.
  induction n as [n IH|n IH|]; intros mrs H; simpl.
  - apply IH, IH, shr_1_small, H.
  - apply IH, IH, H.
  - apply shr_1_small, H.
Qed.

Lemma Zdigits2_nonneg m : 0 <= SpecFloat.Zdigits2 m.
Proof. destruct m; simpl; lia. Qed.

Lemma shr_fexp_small m e l mrs e' :
  0 <= m ->
  SpecFloat.shr_fexp prec emax m e l = (mrs, e') ->
  small (SpecFloat.Zdigits2 m) mrs /\
  e' = Z.max e (SpecFloat.fexp prec emax (SpecFloat.Zdigits2 m + e)).
Proof.
  intros Hm. unfold SpecFloat.shr_fexp, SpecFloat.shr.
  assert (Hinit : small (SpecFloat.Zdigits2 m) (SpecFloat.shr_record_of_loc m l)).
  { unfold small. destruct l as [|[]]; simpl; lia. }
  destruct (SpecFloat.fexp prec emax (SpecFloat.Zdigits2 m + e) - e) as [|n|n] eqn:Hn;
    intros H; inversion H; subst; clear H.
  - split; [exact Hinit|lia].
  - split; [apply iter_pos_small; exact Hinit|lia].
  - split; [exact Hinit|lia].
Qed.

Lemma round_nearest_even_small m l :
  0 <= m ->
  0 <= SpecFloat.round_nearest_even m l /\
  SpecFloat.Zdigits2 (SpecFloat.round_nearest_even m l) <= SpecFloat.Zdigits2 m + 1.
Proof.
  intros Hm.
  assert (Hsucc : SpecFloat.Zdigits2 (m + 1) <= SpecFloat.Zdigits2 m + 1).
  { destruct m as [|p|p]; [simpl; lia| |lia].
    replace (Z.pos p + 1) with (Z.pos (Pos.succ p)) by lia.
    simpl. apply digits2_pos_succ. }
  unfold SpecFloat.round_nearest_even.
  destruct l as [|[]]; try destruct (Z.even m); split; lia.
Qed.

Definition not_special (x : SpecFloat.spec_float) : Prop :=
  match x with
  | S754_nan | S754_infinity _ => False
  | _ => True
  end.

Lemma binary_round_aux_not_special sx mx ex lx :
  0 <= mx -> ex <= 0 -> SpecFloat.Zdigits2 mx + ex <= 63 -> SpecFloat.Zdigits2 mx <= 63 ->
  not_special (SpecFloat.binary_round_aux prec emax sx mx ex lx).
Proof.
  intros Hmx Hex Hd Hd'. unfold SpecFloat.binary_round_aux.
  destruct (SpecFloat.shr_fexp prec emax mx ex lx) as [mrs' e'] eqn:H1.
  destruct (shr_fexp_small _ _ _ _ _ Hmx H1) as [[Hm1 Hd1] He1].
  destruct (round_nearest_even_small (SpecFloat.shr_m mrs') (SpecFloat.loc_of_shr_record mrs') Hm1)
    as [Hm2 Hd2].
  destruct (SpecFloat.shr_fexp prec emax _ e' SpecFloat.loc_Exact) as [mrs'' e''] eqn:H2.
  destruct (shr_fexp_small _ _ _ _ _ Hm2 H2) as [[Hm3 Hd3] He3].
  unfold SpecFloat.fexp, SpecFloat.emin, prec, emax in *.
  destruct (SpecFloat.shr_m mrs'') as [|p|p]; [exact I| |lia].
  assert (He : (e'' <=? 1024 - 53) = true) by (apply Z.leb_le; lia).
  cbv beta iota. rewrite He. exact I.
Qed.

Lemma binary_normalize_uint63_not_special z :
  0 <= z < 2 ^ 63 -> not_special (SpecFloat.binary_normalize prec emax z 0 false).
Proof.
  intros [Hz Hlt]. destruct z as [|p|p]; [exact I| |lia].
  unfold SpecFloat.binary_normalize, SpecFloat.binary_round.
  pose proof (digits2_pos_bound p 63 ltac:(lia) Hlt) as Hd.
  assert (Hd1 : 1 <= Zpos (SpecFloat.digits2_pos p)) by lia.
  unfold SpecFloat.shl_align.
  set (ex' := SpecFloat.fexp prec emax (Z.pos (SpecFloat.digits2_pos p) + 0)).
  assert (Hex' : ex' = Zpos (SpecFloat.digits2_pos p) - 53).
  { unfold ex', SpecFloat.fexp, SpecFloat.emin, prec, emax. lia. }
  destruct (ex' - 0) as [|k|k] eqn:Hk.
  - apply binary_round_aux_not_special; unfold SpecFloat.Zdigits2; lia.
  - apply binary_round_aux_not_special; unfold SpecFloat.Zdigits2; lia.
  - apply binary_round_aux_not_special; unfold SpecFloat.Zdigits2;
      rewrite ?digits2_pos_iter_xO; lia.
Qed.

Lemma of_uint63_not_special i : not_special (Prim2SF (PrimFloat.of_uint63 i)).
Proof.
  rewrite of_uint63_spec. apply binary_normalize_uint63_not_special.
  exact (Uint63.to_Z_bounded i).
Qed.

Lemma py_int_float_of_nat n : exists z, py_int (float_of_nat n) = Ok z.
Proof.
  unfold py_int, float_of_nat.
  pose proof (of_uint63_not_special (Uint63.of_Z (Z.of_nat n))) as H.
  destruct (Prim2SF (PrimFloat.of_uint63 (Uint63.of_Z (Z.of_nat n)))) as [sg|sg| |sg m e];
    simpl in H; try contradiction; eexists; reflexivity.
Qed.

(** ** The order of floats *)

Ltac cmp_cases :=
  repeat match goal with
  | |- context [Z.compare ?a ?b] => destruct (Z.compare_spec a b); subst
  | H : context [Z.compare ?a ?b] |- _ => destruct (Z.compare_spec a b); subst
  | |- context [Pos.compare_cont Eq ?a ?b] =>
      change (Pos.compare_cont Eq a b) with (Pos.compare a b);
      destruct (Pos.compare_spec a b); subst
  | H : context [Pos.compare_cont Eq ?a ?b] |- _ =>
      change (Pos.compare_cont Eq a b) with (Pos.compare a b) in H;
      destruct (Pos.compare_spec a b); subst
  end.

Lemma SFltb_neg_trans a b c :
  b <> S754_nan ->
  SpecFloat.SFltb a b = false -> SpecFloat.SFltb b c = false -> SpecFloat.SFltb a c = false.
Proof.
  unfold SpecFloat.SFltb, SpecFloat.SFcompare.
  destruct a as [sa|sa| |sa ma ea], b as [sb|sb| |sb mb eb], c as [sc|sc| |sc mc ec];
    intros Hb; try congruence; try reflexivity;
    try destruct sa; try destruct sb; try destruct sc; simpl;
    try congruence; try reflexivity;
    intros H1 H2; cmp_cases; simpl in *; try congruence; try reflexivity; try lia.
Qed.


Lemma not_nan_spec x : PrimFloat.is_nan x = false -> Prim2SF x <> S754_nan.
Proof.
  unfold PrimFloat.is_nan. rewrite FloatAxioms.eqb_spec. intros H Hn. rewrite Hn in H. discriminate.
Qed.

Lemma ltb_neg_trans a b c :
  PrimFloat.is_nan b = false ->
  PrimFloat.ltb a b = false -> PrimFloat.ltb b c = false -> PrimFloat.ltb a c = false.
Proof.
  rewrite !FloatAxioms.ltb_spec. intros Hb. apply SFltb_neg_trans, not_nan_spec, Hb.
Qed.




End float_facts.

(** * Properties of the assignment-solver layer *)

Module lap_spec.

Import lap.

(** The finite entries of a cost matrix, in row-major order: [costs[~inv]]. *)
Definition finite_costs (c : list (list float)) : list float :=
  getitem_mask c (np_isfinite c).

(** The value [lsa_solve_scipy] names [INVDIST]. *)
Definition INVDIST (c : list (list float)) : float :=
  match finite_costs c with
  | [] => 1%float
  | x :: xs => PrimFloat.add (PrimFloat.mul 2 (max_list x xs)) 1
  end.

(** The matrix with every non-finite entry replaced by [v]. *)
Definition replace_nonfinite (v : float) (c : list (list float)) : list (list float) :=
  map (map (fun x => if PrimFloat.is_finite x then x else v)) c.

(** Entry [(i, j)] of a matrix. *)
Definition entry {A : Type} (c : list (list A)) (i j : nat) : option A :=
  match c !! i with
  | Some row => row !! j
  | None => None
  end.

(** An array of shape [(n, m)]. *)
Definition shape {A : Type} (c : list (list A)) (n m : nat) : Prop :=
  length c = n /\ Forall (fun row => length row = m) c.

Lemma np_invert_involutive mask : np_invert (np_invert mask) = mask.
Proof.
  unfold np_invert. induction mask as [|row mask IH]; simpl; [reflexivity|].
  rewrite IH. f_equal.
  induction row as [|b row IHrow]; simpl; [reflexivity|].
  rewrite IHrow, negb_involutive. reflexivity.
Qed.

Lemma assign_row_nonfinite v row :
  assign_row row (map negb (map PrimFloat.is_finite row)) v
  = map (fun x => if PrimFloat.is_finite x then x else v) row.
Proof.
  induction row as [|x row IH]; simpl; [reflexivity|].
  rewrite IH. destruct (PrimFloat.is_finite x); reflexivity.
Qed.

Lemma setitem_mask_nonfinite v c :
  setitem_mask c (np_invert (np_isfinite c)) v = replace_nonfinite v c.
Proof.
  unfold np_invert, np_isfinite, replace_nonfinite.
  induction c as [|row c IH]; simpl; [reflexivity|].
  rewrite IH, assign_row_nonfinite. reflexivity.
Qed.

Lemma replace_nonfinite_all_finite v c :
  np_any (np_invert (np_isfinite c)) = false -> replace_nonfinite v c = c.
Proof.
  unfold np_any, np_invert, np_isfinite, replace_nonfinite.
  induction c as [|row c IH]; simpl; [reflexivity|].
  intros H. apply orb_false_iff in H as [Hrow Hc].
  rewrite (IH Hc). f_equal.
  clear IH Hc. induction row as [|x row IHrow]; simpl in *; [reflexivity|].
  apply orb_false_iff in Hrow as [Hx Hrow].
  rewrite (IHrow Hrow). unfold id in Hx.
  destruct (PrimFloat.is_finite x); [reflexivity|discriminate].
Qed.

Lemma entry_replace_nonfinite v c i j :
  entry (replace_nonfinite v c) i j
  = (fun x => if PrimFloat.is_finite x then x else v) <$> entry c i j.
Proof.
  unfold entry, replace_nonfinite.
  rewrite list_lookup_fmap. destruct (c !! i) as [row|]; simpl; [|reflexivity].
  apply list_lookup_fmap.
Qed.

(** ** The model at work *)

Example lower_mixed_case : lower "SciPy" = "scipy".
Proof. reflexivity. Qed.

Example py_int_truncates :
  py_int 3.7 = Ok 3%Z /\ py_int (-2.5) = Ok (-2)%Z /\ py_int 1e8 = Ok 100000000%Z /\
  py_int PrimFloat.nan = Raise (ValueError "cannot convert float NaN to integer").
Proof. repeat split; vm_compute; reflexivity. Qed.

(** The distance matrix of [apps/example.py]: scipy receives it with the
    NaN replaced by [2 * 0.5 + 1]. *)
Example example_matrix_for_scipy :
  calls (snd (lsa_solve_scipy examples.installed 0
                (examples.one_array [[0.1%float; PrimFloat.nan; 0.3%float];
                                     [0.5%float; 0.2%float; 0.3%float]])))
  = [CallScipy [[0.1%float; 2%float; 0.3%float]; [0.5%float; 0.2%float; 0.3%float]]].
Proof. vm_compute. reflexivity. Qed.

(** One step of a computation in [M]. *)
Lemma bind_ret {A B} (a : A) (k : A -> M B) (w : world) : bind (ret a) k w = k a w.
Proof. reflexivity. Qed.

Lemma bind_lift_ok {A B} (a : A) (k : A -> M B) w : bind (lift (Ok a)) k w = k a w.
Proof. reflexivity. Qed.

Lemma bind_import {A B} name (f : A) (k : A -> M B) w :
  bind (import_from name (Some f)) k w = k f w.
Proof. reflexivity. Qed.

Lemma bind_float_array {B} r c (k : list (list float) -> M B) w :
  heap w !! r = Some (FloatArr c) -> bind (float_array r) k w = k c w.
Proof. intros H. unfold float_array, deref, bind. rewrite H. reflexivity. Qed.

Lemma bind_deref {B} r a (k : ndarray -> M B) w :
  heap w !! r = Some a -> bind (deref r) k w = k a w.
Proof. intros H. unfold bind, deref. rewrite H. reflexivity. Qed.

Lemma bind_alloc {B} a (k : ref -> M B) w :
  bind (alloc a) k w
  = k (length (heap w)) {| heap := heap w ++ [a]; calls := calls w |}.
Proof. reflexivity. Qed.

Lemma bind_store {B} r a (k : unit -> M B) w :
  bind (store r a) k w = k tt {| heap := <[r := a]> (heap w); calls := calls w |}.
Proof. reflexivity. Qed.

Lemma bind_invoke_ok {A B} c (a : A) (k : A -> M B) w :
  bind (invoke c (Ok a)) k w = k a {| heap := heap w; calls := calls w ++ [c] |}.
Proof. reflexivity. Qed.

Lemma bind_assoc {A B C} (m : M A) (k : A -> M B) (h : B -> M C) w :
  bind (bind m k) h w = bind m (fun a => bind (k a) h) w.
Proof. unfold bind. destruct (m w) as [[a| |] w']; reflexivity. Qed.

Lemma lookup_fresh (l : list ndarray) a : (l ++ [a]) !! length l = Some a.
Proof. rewrite lookup_app_r by lia. rewrite Nat.sub_diag. reflexivity. Qed.

Lemma insert_fresh (l : list ndarray) a b : <[length l := b]> (l ++ [a]) = l ++ [b].
Proof. rewrite insert_app_r_alt by lia. rewrite Nat.sub_diag. reflexivity. Qed.

Lemma INVDIST_run c (w : world) :
  ((if 0 <? length (finite_costs c)
    then m <- lift (np_max (finite_costs c)) ;; ret (PrimFloat.add (PrimFloat.mul 2 m) 1)
    else ret 1%float)%so) w = (Ok (INVDIST c), w).
Proof.
  unfold INVDIST. destruct (finite_costs c) as [|x xs]; reflexivity.
Qed.

(** What [lsa_solve_scipy] does on a float array, step by step. *)
Lemma lsa_solve_scipy_run tp s w costs c :
  scipy_solve tp = Some s ->
  heap w !! costs = Some (FloatArr c) ->
  let c' := replace_nonfinite (INVDIST c) c in
  exists fresh,
    lsa_solve_scipy tp costs w
    = (s c', {| heap := heap w ++ fresh; calls := calls w ++ [CallScipy c'] |}).
Proof.
  intros Hs Hc c'. unfold lsa_solve_scipy. rewrite Hs, bind_import.
  rewrite (bind_float_array _ _ _ _ Hc).
  destruct (np_any (np_invert (np_isfinite c))) eqn:Hany.
  - rewrite !bind_assoc, bind_alloc.
    rewrite bind_assoc. erewrite bind_float_array by apply lookup_fresh.
    rewrite np_invert_involutive. fold (finite_costs c).
    rewrite bind_assoc. unfold bind at 1. rewrite INVDIST_run.
    rewrite bind_assoc, bind_store, bind_ret. simpl heap. simpl calls.
    rewrite insert_fresh, setitem_mask_nonfinite. fold c'.
    erewrite bind_float_array by apply lookup_fresh.
    exists [FloatArr c']. reflexivity.
  - rewrite bind_ret. rewrite (bind_float_array _ _ _ _ Hc).
    subst c'. rewrite (replace_nonfinite_all_finite _ _ Hany).
    exists []. unfold invoke. rewrite app_nil_r. reflexivity.
Qed.

(** The solver name [linear_sum_assignment] looks up. *)
Definition solver_key (g : lap_globals) (solver : option string) : string :=
  lower (match solver with
         | None => default_solver g
         | Some s => s
         end).

Lemma dispatch_scipy tp g fuel costs solver :
  solver_key g solver = "scipy" ->
  linear_sum_assignment tp g (S fuel) costs solver = lsa_solve_scipy tp costs.
Proof.
  unfold solver_key. intros H. cbn [linear_sum_assignment]. rewrite H. reflexivity.
Qed.

(** The contract of a solver that only accepts finite costs (scipy's
    [linear_sum_assignment]): on a finite [n x m] matrix it assigns
    [min n m] rows to columns, all indices within the matrix. *)
Definition complete_matching (solve : list (list float) -> outcome assignment) : Prop :=
  forall c n m,
    shape c n m ->
    Forall (Forall (fun x => PrimFloat.is_finite x = true)) c ->
    exists rows cols,
      solve c = Ok (rows, cols) /\
      length rows = Nat.min n m /\ length cols = Nat.min n m /\
      Forall (fun i => i < n) rows /\ Forall (fun j => j < m) cols.

Lemma finite_costs_none c :
  Forall (Forall (fun x => PrimFloat.is_finite x = false)) c -> finite_costs c = [].
Proof.
  unfold finite_costs, np_isfinite.
  induction 1 as [|row c Hrow _ IH]; simpl; [reflexivity|].
  rewrite IH, app_nil_r.
  induction Hrow as [|x row Hx _ IHrow]; simpl; [reflexivity|].
  rewrite Hx. exact IHrow.
Qed.

Lemma replace_nonfinite_shape v c n m :
  shape c n m -> shape (replace_nonfinite v c) n m.
Proof.
  unfold shape, replace_nonfinite. intros [Hn Hm]. split.
  - rewrite length_map. exact Hn.
  - apply Forall_fmap. eapply Forall_impl; [exact Hm|].
    intros row Hrow. simpl. rewrite length_map. exact Hrow.
Qed.

Lemma replace_nonfinite_finite v c :
  PrimFloat.is_finite v = true ->
  Forall (Forall (fun x => PrimFloat.is_finite x = true)) (replace_nonfinite v c).
Proof.
  intros Hv. unfold replace_nonfinite.
  apply Forall_fmap, Forall_forall. intros row _. simpl.
  apply Forall_fmap, Forall_forall. intros x _. simpl.
  destruct (PrimFloat.is_finite x) eqn:Hx; [exact Hx|exact Hv].
Qed.

Lemma entry_in_shape {A} (c : list (list A)) n m i j :
  shape c n m -> i < n -> j < m -> exists x, entry c i j = Some x.
Proof.
  intros [Hn Hm] Hi Hj. unfold entry.
  destruct (c !! i) as [row|] eqn:Hrow.
  - assert (Hlen : length row = m).
    { rewrite Forall_forall in Hm. apply Hm. eapply list_elem_of_lookup_2. exact Hrow. }
    destruct (row !! j) as [x|] eqn:Hx; [eauto|].
    apply lookup_ge_None in Hx. lia.
  - apply lookup_ge_None in Hrow. lia.
Qed.

Lemma entry_all {A} (P : A -> Prop) (c : list (list A)) i j x :
  Forall (Forall P) c -> entry c i j = Some x -> P x.
Proof.
  unfold entry. intros Hall Hx.
  destruct (c !! i) as [row|] eqn:Hrow; [|discriminate].
  rewrite Forall_forall in Hall.
  assert (Hr : Forall P row) by (apply Hall; eapply list_elem_of_lookup_2; exact Hrow).
  rewrite Forall_forall in Hr. apply Hr. eapply list_elem_of_lookup_2. exact Hx.
Qed.

(** ** The finite costs and their maximum *)










(** C1, on the code: when the solver is scipy (named, in any letter case, or
    as the default), a non-empty cost matrix whose entries are all
    non-finite does not yield empty index sequences. The adapter returns
    what the backend computes on the all-sentinel copy: [min n m] pairs,
    every one of them a pair whose original cost is non-finite. *)
Theorem scipy_assigns_unassignable_pairs tp g fuel solver s w costs c n m :
  solver_key g solver = "scipy" ->
  scipy_solve tp = Some s ->
  complete_matching s ->
  heap w !! costs = Some (FloatArr c) ->
  shape c n m -> 0 < n -> 0 < m ->
  Forall (Forall (fun x => PrimFloat.is_finite x = false)) c ->
  exists rows cols w',
    linear_sum_assignment tp g (S fuel) costs solver w = (Ok (rows, cols), w') /\
    length rows = Nat.min n m /\ length cols = Nat.min n m /\
    rows <> [] /\
    Forall (fun p => exists x, entry c (fst p) (snd p) = Some x /\
                               PrimFloat.is_finite x = false)
           (zip rows cols).
Proof.
  intros Hkey Hs Hcontract Hc Hshape Hn Hm Hall.
  rewrite (dispatch_scipy _ _ _ _ _ Hkey).
  destruct (lsa_solve_scipy_run tp s w costs c Hs Hc) as [fresh Hrun].
  cbv zeta in Hrun.
  destruct (Hcontract (replace_nonfinite (INVDIST c) c) n m) as
    (rows & cols & Hsolve & Hrows & Hcols & Hin_rows & Hin_cols).
  { apply replace_nonfinite_shape. exact Hshape. }
  { apply replace_nonfinite_finite. unfold INVDIST.
    rewrite (finite_costs_none c Hall). reflexivity. }
  rewrite Hsolve in Hrun.
  exists rows, cols. eexists. split; [exact Hrun|].
  split; [exact Hrows|]. split; [exact Hcols|]. split.
  - intros ->. simpl in Hrows. lia.
  - apply Forall_forall. intros [i j] Hij. simpl.
    assert (Hi : i < n).
    { rewrite Forall_forall in Hin_rows. apply Hin_rows. eapply elem_of_zip_l. exact Hij. }
    assert (Hj : j < m).
    { rewrite Forall_forall in Hin_cols. apply Hin_cols. eapply elem_of_zip_r. exact Hij. }
    destruct (entry_in_shape c n m i j Hshape Hi Hj) as [x Hx].
    exists x. split; [exact Hx|].
    exact (entry_all _ c i j x Hall Hx).
Qed.

Lemma identity_matching_complete : complete_matching examples.identity_matching.
Proof.
  intros c n m [Hn Hm] _. unfold examples.identity_matching.
  assert (Hk : Nat.min (length c) (length (hd [] c)) = Nat.min n m).
  { destruct c as [|row c]; simpl in *; [subst n; reflexivity|].
    inversion Hm; subst. reflexivity. }
  rewrite Hk. eexists _, _. split; [reflexivity|].
  rewrite length_seq. repeat split; apply Forall_forall; intros i Hi;
    apply elem_of_seq in Hi; lia.
Qed.

(** C1, witness: the failing input, the [1 x 1] matrix [[NaN]] with scipy
    as the default solver. *)
Lemma scipy_assigns_unassignable_pairs_witness :
  exists rows cols w',
    linear_sum_assignment examples.installed examples.globals 1 0 None
      (examples.one_array [[PrimFloat.nan]])
    = (Ok (rows, cols), w') /\
    length rows = 1 /\ length cols = 1 /\ rows <> [] /\
    Forall (fun p => exists x, entry [[PrimFloat.nan]] (fst p) (snd p) = Some x /\
                               PrimFloat.is_finite x = false)
           (zip rows cols).
Proof.
  refine (scipy_assigns_unassignable_pairs examples.installed examples.globals 0 None
            examples.identity_matching (examples.one_array [[PrimFloat.nan]]) 0
            [[PrimFloat.nan]] 1 1 eq_refl eq_refl identity_matching_complete eq_refl _ _ _ _).
  - split; [reflexivity|]. repeat constructor.
  - lia.
  - lia.
  - repeat constructor.
Defined.

(** ** The caller's arrays *)

(** A computation that leaves every array of the heap as it was and at most
    allocates new ones. *)
Definition only_allocates {A : Type} (m : M A) : Prop :=
  forall w, exists fresh, heap (snd (m w)) = heap w ++ fresh.

Lemma only_allocates_same {A} (m : M A) w : heap (snd (m w)) = heap w ->
  exists fresh, heap (snd (m w)) = heap w ++ fresh.
Proof. intros H. exists []. rewrite app_nil_r. exact H. Qed.

Lemma float_array_fails {B} r (k : list (list float) -> M B) w :
  (forall c, heap w !! r <> Some (FloatArr c)) ->
  snd (bind (float_array r) k w) = w.
Proof.
  intros H. unfold float_array, deref, bind.
  destruct (heap w !! r) as [[c|o]|] eqn:Hr; try reflexivity.
  exfalso. exact (H c eq_refl).
Qed.

Lemma float_array_cases w r :
  (exists c, heap w !! r = Some (FloatArr c)) \/
  (forall c, heap w !! r <> Some (FloatArr c)).
Proof.
  destruct (heap w !! r) as [[c|o]|]; [left; eauto | right; congruence ..].
Qed.

Lemma lsa_solve_scipy_only_allocates tp costs : only_allocates (lsa_solve_scipy tp costs).
Proof.
  intros w. destruct (scipy_solve tp) as [s|] eqn:Hs.
  - destruct (float_array_cases w costs) as [[c Hc]|Hc].
    + destruct (lsa_solve_scipy_run tp s w costs c Hs Hc) as [fresh Hrun].
      rewrite Hrun. exists fresh. reflexivity.
    + apply only_allocates_same. unfold lsa_solve_scipy. rewrite Hs, bind_import.
      rewrite float_array_fails by exact Hc. reflexivity.
  - apply only_allocates_same. unfold lsa_solve_scipy. rewrite Hs. reflexivity.
Qed.

Lemma lsa_solve_lapsolver_only_allocates tp costs :
  only_allocates (lsa_solve_lapsolver tp costs).
Proof.
  intros w. apply only_allocates_same. unfold lsa_solve_lapsolver.
  destruct (solve_dense tp) as [s|]; [|reflexivity].
  rewrite bind_import.
  destruct (float_array_cases w costs) as [[c Hc]|Hc].
  - rewrite (bind_float_array _ _ _ _ Hc). reflexivity.
  - rewrite float_array_fails by exact Hc. reflexivity.
Qed.

(** The array munkres receives for the costs [c]. *)
Definition munkres_cells (c : list (list float)) : list (list cell) :=
  map (map (fun x => if PrimFloat.is_finite x then Num x else DISALLOWED)) c.

Lemma setitem_mask_disallowed c :
  setitem_mask (map (map Num) c) (np_invert (np_isfinite c)) DISALLOWED = munkres_cells c.
Proof.
  unfold np_invert, np_isfinite, munkres_cells.
  induction c as [|row c IH]; simpl; [reflexivity|].
  rewrite IH. f_equal.
  induction row as [|x row IHrow]; simpl; [reflexivity|].
  rewrite IHrow. destruct (PrimFloat.is_finite x); reflexivity.
Qed.

Lemma munkres_cells_all_finite c :
  np_any (np_invert (np_isfinite c)) = false -> map (map Num) c = munkres_cells c.
Proof.
  unfold np_any, np_invert, np_isfinite, munkres_cells.
  induction c as [|row c IH]; simpl; [reflexivity|].
  intros H. apply orb_false_iff in H as [Hrow Hc].
  rewrite (IH Hc). f_equal.
  clear IH Hc. induction row as [|x row IHrow]; simpl in *; [reflexivity|].
  apply orb_false_iff in Hrow as [Hx Hrow].
  rewrite (IHrow Hrow). unfold id in Hx.
  destruct (PrimFloat.is_finite x); [reflexivity|discriminate].
Qed.

(** What [lsa_solve_munkres] does on a float array. *)
Lemma lsa_solve_munkres_run tp compute w costs c :
  munkres_compute tp = Some compute ->
  heap w !! costs = Some (FloatArr c) ->
  exists fresh,
    lsa_solve_munkres tp costs w
    = (match compute (munkres_cells c) with
       | Ok [] => Raise (IndexError "too many indices for array")
       | Ok indices => Ok (map fst indices, map snd indices)
       | Raise e => Raise e
       | Diverge => Diverge
       end,
       {| heap := heap w ++ fresh; calls := calls w ++ [CallMunkres (munkres_cells c)] |}).
Proof.
  intros Hm Hc. unfold lsa_solve_munkres. rewrite Hm, bind_import.
  rewrite (bind_deref _ _ _ _ Hc), bind_alloc.
  erewrite bind_float_array by apply lookup_fresh.
  destruct (np_any (np_invert (np_isfinite c))) eqn:Hany.
  - rewrite !bind_assoc, bind_alloc, bind_assoc, bind_store, bind_ret.
    simpl heap. simpl calls. rewrite length_app. simpl length.
    replace (length (heap w) + 1) with (length (heap w ++ [FloatArr c]))
      by (rewrite length_app; reflexivity).
    rewrite insert_fresh, setitem_mask_disallowed.
    erewrite bind_deref by apply lookup_fresh.
    cbv beta iota. exists [FloatArr c; ObjArr (munkres_cells c)].
    unfold bind, invoke. simpl.
    rewrite <- app_assoc. simpl.
    destruct (compute (munkres_cells c)) as [[|p l]| |]; reflexivity.
  - rewrite bind_ret. erewrite bind_deref by apply lookup_fresh.
    cbv beta iota. rewrite (munkres_cells_all_finite _ Hany).
    exists [FloatArr c]. unfold bind, invoke. simpl.
    destruct (compute (munkres_cells c)) as [[|p l]| |]; reflexivity.
Qed.

Lemma deref_fails {B} r (k : ndarray -> M B) w :
  heap w !! r = None -> snd (bind (deref r) k w) = w.
Proof. intros H. unfold deref, bind. rewrite H. reflexivity. Qed.

Lemma float_array_object {B} r o (k : list (list float) -> M B) w :
  heap w !! r = Some (ObjArr o) -> snd (bind (float_array r) k w) = w.
Proof. intros H. unfold float_array, deref, bind. rewrite H. reflexivity. Qed.

Lemma lsa_solve_munkres_only_allocates tp costs : only_allocates (lsa_solve_munkres tp costs).
Proof.
  intros w. destruct (munkres_compute tp) as [compute|] eqn:Hm.
  - destruct (heap w !! costs) as [[c|o]|] eqn:Hc.
    + destruct (lsa_solve_munkres_run tp compute w costs c Hm Hc) as [fresh Hrun].
      rewrite Hrun. exists fresh. reflexivity.
    + (* an object array is copied, then [np.isfinite] rejects the copy *)
      exists [ObjArr o]. unfold lsa_solve_munkres. rewrite Hm, bind_import.
      rewrite (bind_deref _ _ _ _ Hc), bind_alloc.
      erewrite float_array_object by apply lookup_fresh. reflexivity.
    + apply only_allocates_same. unfold lsa_solve_munkres. rewrite Hm, bind_import.
      rewrite deref_fails by exact Hc. reflexivity.
  - apply only_allocates_same. unfold lsa_solve_munkres. rewrite Hm. reflexivity.
Qed.

(** What [lsa_solve_ortools] does once the arcs are built. *)
Lemma lsa_solve_ortools_run tp g recur pw w costs c arcs :
  pywrapgraph tp = Some pw ->
  heap w !! costs = Some (FloatArr c) ->
  scaled_arcs tp c = Ok arcs ->
  lsa_solve_ortools tp g recur costs w
  = let w' := {| heap := heap w; calls := calls w ++ [CallOrtools arcs] |} in
    match Solve (pw arcs) with
    | OPTIMAL =>
        (Ok (if NumNodes (pw arcs) =? 0 then ([], [])
             else (map fst (map (fun i => (i, RightMate (pw arcs) i)) (seq 0 (NumNodes (pw arcs)))),
                   map snd (map (fun i => (i, RightMate (pw arcs) i)) (seq 0 (NumNodes (pw arcs)))))),
         w')
    | _ =>
        if String.eqb (default_solver g) "ortools" then (Raise (AssertionError ""), w')
        else recur costs (Some (default_solver g)) w'
    end.
Proof.
  intros Hp Hc Harcs. unfold lsa_solve_ortools. rewrite Hp, bind_import.
  rewrite (bind_float_array _ _ _ _ Hc), Harcs, bind_lift_ok, bind_invoke_ok.
  cbv zeta.
  destruct (Solve (pw arcs)); try reflexivity.
  - destruct (NumNodes (pw arcs) =? 0); reflexivity.
  - destruct (String.eqb (default_solver g) "ortools"); reflexivity.
  - destruct (String.eqb (default_solver g) "ortools"); reflexivity.
Qed.

Lemma lsa_solve_ortools_only_allocates tp g recur costs :
  (forall r solver, only_allocates (recur r solver)) ->
  only_allocates (lsa_solve_ortools tp g recur costs).
Proof.
  intros Hrec w. destruct (pywrapgraph tp) as [pw|] eqn:Hp.
  - destruct (float_array_cases w costs) as [[c Hc]|Hc].
    + destruct (scaled_arcs tp c) as [arcs| |] eqn:Harcs.
      * rewrite (lsa_solve_ortools_run tp g recur pw w costs c arcs Hp Hc Harcs).
        cbv zeta.
        destruct (Solve (pw arcs));
          [exists []; rewrite app_nil_r; reflexivity | |];
          (destruct (String.eqb (default_solver g) "ortools");
           [exists []; rewrite app_nil_r; reflexivity|];
           destruct (Hrec costs (Some (default_solver g))
                       {| heap := heap w; calls := calls w ++ [CallOrtools arcs] |})
             as [fresh Hfresh];
           exists fresh; exact Hfresh).
      * apply only_allocates_same. unfold lsa_solve_ortools. rewrite Hp, bind_import.
        rewrite (bind_float_array _ _ _ _ Hc), Harcs. reflexivity.
      * apply only_allocates_same. unfold lsa_solve_ortools. rewrite Hp, bind_import.
        rewrite (bind_float_array _ _ _ _ Hc), Harcs. reflexivity.
    + apply only_allocates_same. unfold lsa_solve_ortools. rewrite Hp, bind_import.
      rewrite float_array_fails by exact Hc. reflexivity.
  - apply only_allocates_same. unfold lsa_solve_ortools. rewrite Hp. reflexivity.
Qed.

Lemma linear_sum_assignment_only_allocates tp g fuel costs solver :
  only_allocates (linear_sum_assignment tp g fuel costs solver).
Proof.
  revert costs solver. induction fuel as [|fuel IH]; intros costs solver.
  - intros w. apply only_allocates_same. reflexivity.
  - cbn [linear_sum_assignment].
    destruct (String.eqb _ "lapsolver"); [apply lsa_solve_lapsolver_only_allocates|].
    destruct (String.eqb _ "scipy"); [apply lsa_solve_scipy_only_allocates|].
    destruct (String.eqb _ "munkres"); [apply lsa_solve_munkres_only_allocates|].
    destruct (String.eqb _ "ortools").
    + apply lsa_solve_ortools_only_allocates. exact IH.
    + intros w. apply only_allocates_same. reflexivity.
Qed.

(** The sibling adapter: ortools is only given the finite arcs. On a matrix
    without a finite cost it is given none, and the adapter returns empty
    index sequences when ortools then reports an optimal, empty assignment. *)
Lemma row_arcs_none f r k row :
  Forall (fun x => PrimFloat.is_finite x = false) row -> row_arcs f r k row = Ok [].
Proof.
  intros H. revert k. induction H as [|x row Hx _ IH]; intros k; simpl; [reflexivity|].
  rewrite Hx. apply IH.
Qed.

Lemma matrix_arcs_none f r c :
  Forall (Forall (fun x => PrimFloat.is_finite x = false)) c -> matrix_arcs f r c = Ok [].
Proof.
  intros H. revert r. induction H as [|row c Hrow _ IH]; intros r; simpl; [reflexivity|].
  rewrite (row_arcs_none _ _ _ _ Hrow), IH. reflexivity.
Qed.

Lemma ortools_all_unassignable tp g recur pw w costs c :
  pywrapgraph tp = Some pw ->
  heap w !! costs = Some (FloatArr c) ->
  Forall (Forall (fun x => PrimFloat.is_finite x = false)) c ->
  np_log10 tp 1 = 0%float ->
  Solve (pw []) = OPTIMAL -> NumNodes (pw []) = 0 ->
  fst (lsa_solve_ortools tp g recur costs w) = Ok ([], []).
Proof.
  intros Hp Hc Hall Hlog Hsolve Hnodes.
  assert (Harcs : scaled_arcs tp c = Ok []).
  { unfold scaled_arcs. fold (finite_costs c). rewrite (finite_costs_none c Hall).
    cbn [np_unique fold_right length Nat.eqb Nat.ltb Nat.leb obind].
    change (PrimFloat.eqb 1 0) with false. cbn [negb].
    change (PrimFloat.abs 1) with 1%float. rewrite Hlog.
    change (py_int 0) with (Ok 0%Z). cbn [obind].
    apply matrix_arcs_none. exact Hall. }
  rewrite (lsa_solve_ortools_run tp g recur pw w costs c [] Hp Hc Harcs).
  cbv zeta. rewrite Hsolve, Hnodes. reflexivity.
Qed.

(** ** The recursion budget *)

Lemma lsa_solve_ortools_ext tp g recur1 recur2 costs w :
  (forall w', recur1 costs (Some (default_solver g)) w'
              = recur2 costs (Some (default_solver g)) w') ->
  lsa_solve_ortools tp g recur1 costs w = lsa_solve_ortools tp g recur2 costs w.
Proof.
  intros Hrec. unfold lsa_solve_ortools.
  destruct (pywrapgraph tp) as [pw|]; [|reflexivity].
  rewrite !bind_import.
  destruct (heap w !! costs) as [[c|o]|] eqn:Hc.
  - rewrite !(bind_float_array _ _ _ _ Hc).
    destruct (scaled_arcs tp c) as [arcs| |]; try reflexivity.
    rewrite !bind_lift_ok, !bind_invoke_ok.
    destruct (Solve (pw arcs)); try reflexivity;
      destruct (String.eqb (default_solver g) "ortools"); try reflexivity; apply Hrec.
  - unfold float_array, deref, bind. rewrite Hc. reflexivity.
  - unfold float_array, deref, bind. rewrite Hc. reflexivity.
Qed.

Lemma linear_sum_assignment_S tp g fuel costs solver :
  linear_sum_assignment tp g (S fuel) costs solver
  = let key := solver_key g solver in
    if String.eqb key "lapsolver" then lsa_solve_lapsolver tp costs
    else if String.eqb key "scipy" then lsa_solve_scipy tp costs
    else if String.eqb key "munkres" then lsa_solve_munkres tp costs
    else if String.eqb key "ortools"
         then lsa_solve_ortools tp g (linear_sum_assignment tp g fuel) costs
    else raise (KeyError key).
Proof. reflexivity. Qed.

(** One level of fallback is all there is when the default solver is not
    ortools: from a budget of two calls on, the budget does not matter. *)
Lemma linear_sum_assignment_fuel tp g fuel costs solver w :
  lower (default_solver g) <> "ortools" ->
  linear_sum_assignment tp g (S (S fuel)) costs solver w
  = linear_sum_assignment tp g 2 costs solver w.
Proof.
  intros Hdefault. apply String.eqb_neq in Hdefault.
  rewrite !linear_sum_assignment_S. cbv zeta.
  destruct (String.eqb (solver_key g solver) "lapsolver"); [reflexivity|].
  destruct (String.eqb (solver_key g solver) "scipy"); [reflexivity|].
  destruct (String.eqb (solver_key g solver) "munkres"); [reflexivity|].
  destruct (String.eqb (solver_key g solver) "ortools"); [|reflexivity].
  apply lsa_solve_ortools_ext. intros w'.
  rewrite !linear_sum_assignment_S. cbv zeta.
  unfold solver_key. rewrite Hdefault. reflexivity.
Qed.

(** C10: [linear_sum_assignment] writes to no array that existed before the
    call, whatever the solver: the heap after the call is the heap before it
    followed by the arrays the adapters allocated (the copies that receive
    the sentinel or [DISALLOWED] values). In particular the caller's cost
    matrix is read back unchanged. *)
Theorem caller_cost_matrix_unchanged tp g fuel costs solver w :
  let w' := snd (linear_sum_assignment tp g fuel costs solver w) in
  (exists fresh, heap w' = heap w ++ fresh) /\
  heap w' !! costs = heap w !! costs.
Proof.
  cbv zeta.
  destruct (linear_sum_assignment_only_allocates tp g fuel costs solver w) as [fresh Hfresh].
  split; [exists fresh; exact Hfresh|].
  destruct (heap w !! costs) as [a|] eqn:Hc.
  - rewrite Hfresh. apply lookup_app_l_Some. exact Hc.
  - (* no array behind [costs]: every adapter stops before it allocates *)
    assert (Hfail : forall c, heap w !! costs <> Some (FloatArr c)) by (rewrite Hc; congruence).
    assert (Hsame : forall fuel' solver',
               snd (linear_sum_assignment tp g fuel' costs solver' w) = w).
    { intros [|fuel'] solver'; [reflexivity|].
      cbn [linear_sum_assignment].
      destruct (String.eqb _ "lapsolver").
      { unfold lsa_solve_lapsolver. destruct (solve_dense tp); [|reflexivity].
        rewrite bind_import. apply float_array_fails. exact Hfail. }
      destruct (String.eqb _ "scipy").
      { unfold lsa_solve_scipy. destruct (scipy_solve tp); [|reflexivity].
        rewrite bind_import. apply float_array_fails. exact Hfail. }
      destruct (String.eqb _ "munkres").
      { unfold lsa_solve_munkres. destruct (munkres_compute tp); [|reflexivity].
        rewrite bind_import. apply deref_fails. exact Hc. }
      destruct (String.eqb _ "ortools"); [|reflexivity].
      unfold lsa_solve_ortools. destruct (pywrapgraph tp); [|reflexivity].
      rewrite bind_import. apply float_array_fails. exact Hfail. }
    rewrite Hsame. exact Hc.
Qed.

(** The default solver that [init_standard_solvers] selects is scipy,
    ortools or munkres. *)
Lemma init_standard_solvers_default tp g :
  init_standard_solvers tp = Ok g ->
  default_solver g = "scipy" \/ default_solver g = "ortools" \/ default_solver g = "munkres".
Proof.
  unfold init_standard_solvers. simpl.
  destruct (find_spec tp "scipy"), (find_spec tp "ortools"), (find_spec tp "munkres");
    intros H; inversion H; subst; simpl; auto.
Qed.

Lemma examples_globals_initial : init_standard_solvers examples.installed = Ok examples.globals.
Proof. reflexivity. Qed.

(** With ortools itself as the default solver the fallback is an
    [AssertionError]. *)
Lemma ortools_without_fallback tp g recur pw w costs c arcs :
  pywrapgraph tp = Some pw ->
  heap w !! costs = Some (FloatArr c) ->
  scaled_arcs tp c = Ok arcs ->
  Solve (pw arcs) <> OPTIMAL ->
  default_solver g = "ortools" ->
  fst (lsa_solve_ortools tp g recur costs w) = Raise (AssertionError "").
Proof.
  intros Hp Hc Harcs Hsolve Hdefault.
  rewrite (lsa_solve_ortools_run tp g recur pw w costs c arcs Hp Hc Harcs).
  cbv zeta. rewrite Hdefault.
  destruct (Solve (pw arcs)); [contradiction|reflexivity|reflexivity].
Qed.

(** C8: when ortools does not reach an optimal solution and the default
    solver is not ortools, [lsa_solve_ortools] returns what
    [linear_sum_assignment] returns for the same array reference and
    [solver=default_solver]; the heap is the one it was called with, so the
    default solver reads the original, unscaled costs. With scipy or
    munkres as the default this is the result of that adapter. *)
Theorem ortools_falls_back_to_default tp g fuel pw w costs c arcs :
  pywrapgraph tp = Some pw ->
  heap w !! costs = Some (FloatArr c) ->
  scaled_arcs tp c = Ok arcs ->
  Solve (pw arcs) <> OPTIMAL ->
  default_solver g <> "ortools" ->
  let w' := {| heap := heap w; calls := calls w ++ [CallOrtools arcs] |} in
  linear_sum_assignment tp g (S (S fuel)) costs (Some "ortools") w
  = linear_sum_assignment tp g (S fuel) costs (Some (default_solver g)) w' /\
  heap w' !! costs = Some (FloatArr c) /\
  (default_solver g = "scipy" ->
   linear_sum_assignment tp g (S (S fuel)) costs (Some "ortools") w
   = lsa_solve_scipy tp costs w') /\
  (default_solver g = "munkres" ->
   linear_sum_assignment tp g (S (S fuel)) costs (Some "ortools") w
   = lsa_solve_munkres tp costs w').
Proof.
  intros Hp Hc Harcs Hsolve Hdefault w'.
  assert (Hrun : linear_sum_assignment tp g (S (S fuel)) costs (Some "ortools") w
                 = linear_sum_assignment tp g (S fuel) costs (Some (default_solver g)) w').
  { change (linear_sum_assignment tp g (S (S fuel)) costs (Some "ortools") w)
      with (lsa_solve_ortools tp g (linear_sum_assignment tp g (S fuel)) costs w).
    rewrite (lsa_solve_ortools_run tp g _ pw w costs c arcs Hp Hc Harcs).
    cbv zeta. fold w'.
    apply String.eqb_neq in Hdefault. rewrite Hdefault.
    destruct (Solve (pw arcs)); [contradiction|reflexivity|reflexivity]. }
  split; [exact Hrun|]. split; [exact Hc|]. split.
  - intros Hd. rewrite Hrun, Hd. reflexivity.
  - intros Hd. rewrite Hrun, Hd. reflexivity.
Qed.

(** C8, witness: an ortools that reports [INFEASIBLE] on the costs
    [[0, 0]], with scipy as the default solver. *)
Lemma ortools_falls_back_to_default_witness :
  let w' := {| heap := [FloatArr [[0%float; 0%float]]];
               calls := [CallOrtools [Arc 0 0 0; Arc 0 1 0]] |} in
  linear_sum_assignment examples.installed examples.globals 2 0 (Some "ortools")
    (examples.one_array [[0%float; 0%float]])
  = linear_sum_assignment examples.installed examples.globals 1 0 (Some "scipy") w' /\
  heap w' !! 0 = Some (FloatArr [[0%float; 0%float]]) /\
  ("scipy" = "scipy" ->
   linear_sum_assignment examples.installed examples.globals 2 0 (Some "ortools")
     (examples.one_array [[0%float; 0%float]])
   = lsa_solve_scipy examples.installed 0 w') /\
  ("scipy" = "munkres" ->
   linear_sum_assignment examples.installed examples.globals 2 0 (Some "ortools")
     (examples.one_array [[0%float; 0%float]])
   = lsa_solve_munkres examples.installed 0 w').
Proof.
  refine (ortools_falls_back_to_default examples.installed examples.globals 0
            examples.failing_ortools (examples.one_array [[0%float; 0%float]]) 0
            [[0%float; 0%float]] [Arc 0 0 0; Arc 0 1 0] eq_refl eq_refl _ _ _).
  - vm_compute. reflexivity.
  - simpl. discriminate.
  - simpl. discriminate.
Defined.

End lap_spec.

(** * Properties of the metrics engine *)

Module metrics_spec.

Import metrics.

(** The registry [default_metrics()] builds. *)
Definition registry (Series_sum : list float -> float) : MetricsContainer :=
  match default_metrics Series_sum with
  | Ok m => m
  | _ => __init__
  end.

Lemma default_metrics_registry Series_sum :
  default_metrics Series_sum = Ok (registry Series_sum).
Proof. reflexivity. Qed.

(** [compute_metrics] on the example log. *)
Example compute_metrics_example :
  compute_metrics examples.left_to_right (Frame examples.log)
  = Ok [("Frames", VInt 2); ("Match", VInt 1); ("Switch", VInt 1); ("FalsePos", VInt 1);
        ("Miss", VInt 1); ("MOTP", VFloat64 0.2); ("MOTA", VFloat 0);
        ("Precision", VFloat (PrimFloat.div 2 3)); ("Recall", VFloat (PrimFloat.div 2 3));
        ("Frag", VInt 0); ("Objs", VInt 2); ("MT", VInt 2); ("PT", VInt 0); ("ML", VInt 0)].
Proof. vm_compute. reflexivity. Qed.

(** The metrics of the default registry that evaluate on the example log. *)
Example registry_example :
  fst (MetricsContainer_summarize (registry examples.left_to_right) 3 examples.log
         (Some ["num_frames"; "num_matches"; "num_switches"; "num_falsepositives";
                "num_objects"; "num_unique_objects"; "num_fragmentation"]))
  = Ok [("num_frames", VFloat 2); ("num_matches", VFloat 1); ("num_switches", VFloat 1);
        ("num_falsepositives", VFloat 1); ("num_objects", VFloat 3);
        ("num_unique_objects", VFloat 2); ("num_fragmentation", VInt 0)].
Proof. vm_compute. reflexivity. Qed.

(** In any registry, a metric without dependencies that is requested twice
    is executed twice. *)
Lemma metric_requested_twice self df fuel n mi v :
  dict_get n (metrics self) = Some mi ->
  deps mi = [] ->
  py_call (fnc mi) df [] = Ok v ->
  MetricsContainer_summarize self (S fuel) df (Some [n; n])
  = (Ok [(n, v)], {| cache := {[ n := v ]}; executed := [name mi; name mi] |}).
Proof.
  intros Hget Hdeps Hcall.
  unfold MetricsContainer_summarize. cbn [summarize_loop _compute collect].
  rewrite Hget, Hdeps. cbn [deps_loop].
  unfold bind, ret, execute, cache_set, cache_get. simpl.
  rewrite Hcall. simpl.
  rewrite ?insert_insert_eq, ?lookup_insert_eq. simpl.
  rewrite ?insert_insert_eq, ?lookup_insert_eq. simpl.
  unfold OrderedDict. simpl. rewrite String.eqb_refl.
  rewrite insert_empty. reflexivity.
Qed.

(** C3, on the code: [summarize] calls [_compute] for every requested name
    without looking in the cache; only the loop over dependencies looks.
    Requesting ["num_matches"] twice executes the function twice, and
    requesting ["obj_frequencies"] after a metric that depends on it executes
    it again, although its value is cached. The values are the same and each
    is stored under the metric's name. *)
Theorem requested_metric_is_recomputed (Series_sum : list float -> float)
    (df : DataFrame) (fuel : nat) :
  let registry := registry Series_sum in
  let v := VFloat (float_of_nat (count_type "MATCH" df)) in
  MetricsContainer_summarize registry (S fuel) df (Some ["num_matches"; "num_matches"])
  = (Ok [("num_matches", v)],
     {| cache := {[ "num_matches" := v ]};
        executed := ["num_matches"; "num_matches"] |}) /\
  executed (snd (MetricsContainer_summarize registry (S (S fuel)) df
                   (Some ["num_unique_objects"; "obj_frequencies"])))
  = ["obj_frequencies"; "num_unique_objects"; "obj_frequencies"] /\
  executed (snd (MetricsContainer_summarize registry (S (S fuel)) df
                   (Some ["num_unique_objects"; "num_fragmentation"])))
  = ["obj_frequencies"; "num_unique_objects"; "num_fragmentation"].
Proof.
  repeat split; try (vm_compute; reflexivity).
  vm_compute.
  repeat match goal with
         | |- context [match ?x with Ok _ => _ | Raise _ => _ | Diverge => _ end] =>
             destruct x
         end.
  all: reflexivity.
Qed.

(** C5, on the code: [num_misses] evaluates the count of [MISS] rows and
    drops it; the call returns [None], whatever the event log. The registry
    caches [None] for it, and [mota], which adds it to [num_switches],
    raises [TypeError]. *)
Theorem num_misses_returns_none (Series_sum : list float -> float)
    (df : DataFrame) (fuel : nat) :
  let registry := registry Series_sum in
  py_call num_misses df [] = Ok VNone /\
  fst (MetricsContainer_summarize registry (S fuel) df (Some ["num_misses"]))
  = Ok [("num_misses", VNone)] /\
  fst (MetricsContainer_summarize registry (S (S fuel)) df (Some ["mota"]))
  = Raise (TypeError "unsupported operand type(s) for +: 'NoneType' and 'float'").
Proof.
  repeat split; vm_compute; reflexivity.
Qed.

(** C6, on the code: [mostly_tracked] and [mostly_lost] read the name
    [track_ratio], which is bound neither in the function nor in the module,
    so a call raises [NameError] for every event log and every argument.
    Through the registry the evaluation stops earlier, in their dependency
    [track_ratios], which reads the unbound name [data]. *)
Theorem mostly_tracked_raises_name_error (Series_sum : list float -> float)
    (df : DataFrame) (v : value) (fuel : nat) :
  let registry := registry Series_sum in
  py_call mostly_tracked df [v] = Raise (NameError "track_ratio") /\
  py_call mostly_lost df [v] = Raise (NameError "track_ratio") /\
  fst (MetricsContainer_summarize registry (S (S (S fuel))) df (Some ["mostly_tracked"]))
  = Raise (NameError "data") /\
  fst (MetricsContainer_summarize registry (S (S (S fuel))) df (Some ["mostly_lost"]))
  = Raise (NameError "data").
Proof.
  repeat split; vm_compute; reflexivity.
Qed.

(** ** The recursion budget *)

(** A result obtained within a budget is the result for every larger
    budget: [Diverge] alone depends on the fuel. *)
Lemma deps_loop_more_fuel (compute1 compute2 : string -> E value) :
  (forall d st, fst (compute1 d st) <> Diverge -> compute2 d st = compute1 d st) ->
  forall deps vals st,
    fst (deps_loop compute1 deps vals st) <> Diverge ->
    deps_loop compute2 deps vals st = deps_loop compute1 deps vals st.
Proof.
  intros H deps. induction deps as [|d deps IH]; intros vals st Hnd; [reflexivity|].
  simpl in *. unfold bind, in_cache in *. simpl in *.
  destruct (bool_decide (is_Some (cache st !! d))); simpl in *.
  - destruct (cache_get d st) as [[v| |] st']; try reflexivity.
    apply IH. exact Hnd.
  - destruct (compute1 d st) as [o1 st1] eqn:H1.
    assert (H2 : fst (compute1 d st) <> Diverge -> compute2 d st = (o1, st1))
      by (rewrite <- H1; apply H).
    rewrite H1 in H2. simpl in H2.
    destruct o1 as [v| |].
    + rewrite H2 by discriminate. simpl in *.
      destruct (cache_get d _) as [[v'| |] st']; try reflexivity.
      apply IH. exact Hnd.
    + rewrite H2 by discriminate. reflexivity.
    + simpl in Hnd. contradiction.
Qed.

Lemma compute_more_fuel self df fuel :
  forall name parent st,
    fst (_compute self fuel df name parent st) <> Diverge ->
    _compute self (S fuel) df name parent st = _compute self fuel df name parent st.
Proof.
  induction fuel as [|fuel IH]; intros name parent st Hnd.
  - simpl in Hnd. contradiction.
  - remember (S fuel) as fuel1 eqn:Hfuel1.
    rewrite Hfuel1 at 2. rewrite Hfuel1 in Hnd.
    simpl in *. destruct (dict_get name (metrics self)) as [mi|]; [|reflexivity].
    unfold bind in *.
    destruct (deps_loop (fun depname => _compute self fuel df depname name) (deps mi) [] st)
      as [o st'] eqn:Hloop.
    rewrite (deps_loop_more_fuel (fun depname => _compute self fuel df depname name)
               (fun depname => _compute self fuel1 df depname name)).
    + rewrite Hloop. reflexivity.
    + intros d st0 Hd. subst fuel1. apply IH. exact Hd.
    + rewrite Hloop. destruct o; simpl in *; [discriminate|discriminate|contradiction].
Qed.

Lemma summarize_loop_more_fuel self df fuel metrics :
  forall st,
    fst (summarize_loop self fuel df metrics st) <> Diverge ->
    summarize_loop self (S fuel) df metrics st = summarize_loop self fuel df metrics st.
Proof.
  induction metrics as [|mname metrics IH]; intros st Hnd; [reflexivity|].
  cbn [summarize_loop] in *. unfold bind in *.
  destruct (_compute self fuel df mname "summarize" st) as [o st'] eqn:Hc.
  rewrite compute_more_fuel by (rewrite Hc; destruct o; simpl in *; congruence).
  rewrite Hc. destruct o as [v| |]; try reflexivity.
  simpl in *. apply IH. exact Hnd.
Qed.

(** An evaluation that ends within the budget [fuel] ends the same way with
    the budget [S fuel]. *)
Lemma summarize_more_fuel self df fuel metrics :
  fst (MetricsContainer_summarize self fuel df metrics) <> Diverge ->
  MetricsContainer_summarize self (S fuel) df metrics
  = MetricsContainer_summarize self fuel df metrics.
Proof.
  unfold MetricsContainer_summarize. intros Hnd. unfold bind at 1 in Hnd. unfold bind at 1 3.
  destruct (summarize_loop self fuel df _ _) as [o st'] eqn:Hloop.
  rewrite summarize_loop_more_fuel by (rewrite Hloop; destruct o; simpl in *; congruence).
  rewrite Hloop. reflexivity.
Qed.

(** ** Dependency cycles *)

Lemma deps_loop_cached_prefix compute pre rest vals st :
  Forall (fun d => is_Some (cache st !! d)) pre ->
  exists vals', deps_loop compute (pre ++ rest) vals st = deps_loop compute rest vals' st.
Proof.
  intros Hpre. revert vals.
  induction Hpre as [|d pre [v Hd] _ IH]; intros vals; simpl.
  - exists vals. reflexivity.
  - destruct (IH (vals ++ [v])) as [vals' Hvals'].
    exists vals'. rewrite <- Hvals'.
    unfold bind, in_cache, cache_get, ret. rewrite Hd. simpl.
    rewrite Hd. reflexivity.
Qed.

Lemma deps_loop_diverges compute next post vals st :
  cache st !! next = None ->
  compute next st = (Diverge, st) ->
  deps_loop compute (next :: post) vals st = (Diverge, st).
Proof.
  intros Hnone Hdiv. simpl. unfold bind, in_cache. rewrite Hnone.
  rewrite bool_decide_eq_false_2 by (intros [v Hv]; discriminate).
  simpl. rewrite Hdiv. reflexivity.
Qed.

(** A set of metrics closed under "the first dependency that is not cached
    yet": each is registered and not cached, and the first of its
    dependencies that the cache lacks is in the set again. *)
Definition cyclic (self : MetricsContainer) (st : evaluation) (on_cycle : string -> Prop)
  : Prop :=
  forall n, on_cycle n ->
    cache st !! n = None /\
    exists mi pre next post,
      dict_get n (metrics self) = Some mi /\
      deps mi = pre ++ next :: post /\
      Forall (fun d => is_Some (cache st !! d)) pre /\
      on_cycle next.

(** [_compute] on a metric of such a set makes no progress: whatever the
    recursion budget, it is used up before any function is executed. *)
Lemma compute_on_cycle_diverges self df on_cycle st :
  cyclic self st on_cycle ->
  forall fuel n parent, on_cycle n -> _compute self fuel df n parent st = (Diverge, st).
Proof.
  intros Hcyc fuel. induction fuel as [|fuel IH]; intros n parent Hn.
  - reflexivity.
  - destruct (Hcyc n Hn) as (_ & mi & pre & next & post & Hget & Hdeps & Hpre & Hnext).
    simpl. rewrite Hget, Hdeps. unfold bind at 1.
    destruct (deps_loop_cached_prefix
                (fun depname => _compute self fuel df depname n) pre (next :: post) [] st Hpre)
      as [vals' Hvals'].
    rewrite Hvals'.
    rewrite deps_loop_diverges; [reflexivity| |].
    + exact (proj1 (Hcyc next Hnext)).
    + apply IH. exact Hnext.
Qed.

(** A function that returns the value of its dependency. *)
Definition same_as (fname dep : string) : function :=
  {| __name__ := fname; args := ["df"; dep];
     body := fun df vals => match vals with [v] => Ok v | _ => bad_arity end |}.

(** A registry in which the metric ["a"] depends on itself. *)
Definition self_dependent : MetricsContainer :=
  match register __init__ (Some (same_as "a" "a")) DepsAuto None with
  | Ok m => m
  | _ => __init__
  end.

(** C4, counterexample: registering a metric that depends on itself
    succeeds, and evaluating it reports no error at any recursion depth. *)
Lemma self_dependency_is_not_reported :
  register __init__ (Some (same_as "a" "a")) DepsAuto None = Ok self_dependent /\
  deps <$> dict_get "a" (metrics self_dependent) = Some ["a"] /\
  ~ exists fuel e st,
      MetricsContainer_summarize self_dependent fuel [] (Some ["a"]) = (Raise e, st).
Proof.
  split; [reflexivity|]. split; [reflexivity|].
  intros (fuel & e & st & H).
  unfold MetricsContainer_summarize in H. simpl in H.
  unfold bind at 1 2 in H.
  rewrite (compute_on_cycle_diverges self_dependent [] (fun n => n = "a")) in H.
  - discriminate.
  - intros n ->. split; [reflexivity|].
    eexists _, [], "a", []. repeat split; constructor.
  - reflexivity.
Qed.

(** C4, amended: a dependency cycle is neither rejected by [register] nor
    detected by the evaluation. [register] accepts any dependency list, and
    when the requested metric lies on a cycle of first dependencies,
    [summarize] recurses without bound: at every recursion depth it has
    produced neither a result nor an error, and no metric function has run.
    (CPython ends such a recursion with [RecursionError] when the stack is
    exhausted.) *)
Theorem dependency_cycle_recurses_without_bound
    self (on_cycle : string -> Prop) df n rest fuel :
  (forall k, on_cycle k ->
     exists mi next post,
       dict_get k (metrics self) = Some mi /\ deps mi = next :: post /\ on_cycle next) ->
  on_cycle n ->
  (forall f d nm, exists m, register self (Some f) d nm = Ok m) /\
  MetricsContainer_summarize self fuel df (Some (n :: rest))
  = (Diverge, {| cache := ∅; executed := [] |}).
Proof.
  intros Hcyc Hn. split.
  - intros f d nm. eexists. reflexivity.
  - unfold MetricsContainer_summarize. simpl. unfold bind at 1 2.
    rewrite (compute_on_cycle_diverges self df on_cycle); [reflexivity| |exact Hn].
    intros k Hk. split; [reflexivity|].
    destruct (Hcyc k Hk) as (mi & next & post & Hget & Hdeps & Hnext).
    exists mi, [], next, post. repeat split; [exact Hget|exact Hdeps|constructor|exact Hnext].
Qed.

(** C4, witness: the registry in which ["a"] depends on itself, at a
    recursion depth of 1000. *)
Lemma dependency_cycle_recurses_without_bound_witness :
  (forall f d nm, exists m, register self_dependent (Some f) d nm = Ok m) /\
  MetricsContainer_summarize self_dependent 1000 [] (Some ["a"; "num_frames"])
  = (Diverge, {| cache := ∅; executed := [] |}).
Proof.
  refine (dependency_cycle_recurses_without_bound self_dependent (fun k => k = "a") []
            "a" ["num_frames"] 1000 _ eq_refl).
  intros k ->. eexists _, "a", []. repeat split.
Defined.

(** ** The summary table *)

(** The columns of a row that [compute_metrics] produces. *)
Definition columns : list string :=
  ["Frames"; "Match"; "Switch"; "FalsePos"; "Miss"; "MOTP"; "MOTA"; "Precision";
   "Recall"; "Frag"; "Objs"; "MT"; "PT"; "ML"].

(** The rows of the object [o] can be sliced by label: [o] was never
    tracked (the fragmentation loop then skips it), or its rows are in index
    order. *)
Definition object_sliceable (df : DataFrame) (o : ident) : bool :=
  let dfo := List.filter (fun r => bool_decide (OId r = Some o)) df in
  match not_missed dfo with
  | [] => true
  | _ => is_lexsorted (map index_of dfo)
  end.

(** An event log on which the fragmentation loop slices every object. *)
Definition sliceable (df : DataFrame) : bool :=
  forallb (object_sliceable df) (map fst (value_counts (oids df))).

(** An event log whose rows are in index order, as a [MOTAccumulator] that
    is updated frame after frame builds it. *)
Definition index_sorted (df : DataFrame) : bool :=
  is_lexsorted (map index_of df).

Lemma loc_slice_sorted dfo first last :
  is_lexsorted (map index_of dfo) = true ->
  loc_slice dfo first last
  = Ok (List.filter (fun r => index_leb first (index_of r)
                              && index_leb (index_of r) last) dfo).
Proof. intros H. unfold loc_slice, lexsort_depth. rewrite H. reflexivity. Qed.

Lemma loc_slice_unsorted dfo first last :
  is_lexsorted (map index_of dfo) = false ->
  exists msg, loc_slice dfo first last = Raise (UnsortedIndexError msg).
Proof.
  intros H. unfold loc_slice, lexsort_depth. rewrite H.
  destruct (is_sorted _); eexists; reflexivity.
Qed.

Lemma fragments_of_sliceable df o :
  object_sliceable df o = true -> exists n, fragments_of df o = Ok n.
Proof.
  unfold object_sliceable, fragments_of. cbv zeta.
  destruct (not_missed _) as [|r0 notmiss]; intros H; [eexists; reflexivity|].
  rewrite (loc_slice_sorted _ _ _ H). eexists. reflexivity.
Qed.

Lemma fragments_of_unsliceable df o :
  object_sliceable df o = false ->
  exists msg, fragments_of df o = Raise (UnsortedIndexError msg).
Proof.
  unfold object_sliceable, fragments_of. cbv zeta.
  destruct (not_missed _) as [|r0 notmiss]; intros H; [discriminate|].
  destruct (loc_slice_unsorted _ (index_of r0)
              (index_of (List.last (r0 :: notmiss) r0)) H) as [msg Hmsg].
  rewrite Hmsg. exists msg. reflexivity.
Qed.

Lemma fragmentation_loop_sliceable df index :
  forallb (object_sliceable df) index = true ->
  forall fra, exists n, fragmentation_loop df index fra = Ok n.
Proof.
  induction index as [|o index IH]; intros H fra; [eexists; reflexivity|].
  cbn [forallb] in H. apply andb_true_iff in H as [Ho Hindex].
  destruct (fragments_of_sliceable df o Ho) as [n Hn].
  cbn [fragmentation_loop]. rewrite Hn. cbn [obind]. apply IH, Hindex.
Qed.

Lemma fragmentation_loop_unsliceable df index :
  forallb (object_sliceable df) index = false ->
  forall fra, exists msg, fragmentation_loop df index fra = Raise (UnsortedIndexError msg).
Proof.
  induction index as [|o index IH]; intros H fra; [discriminate|].
  cbn [forallb] in H. cbn [fragmentation_loop].
  destruct (object_sliceable df o) eqn:Ho.
  - destruct (fragments_of_sliceable df o Ho) as [n Hn]. rewrite Hn. cbn [obind].
    apply IH, H.
  - destruct (fragments_of_unsliceable df o Ho) as [msg Hmsg]. rewrite Hmsg.
    exists msg. reflexivity.
Qed.

Lemma fragmentation_sliceable df :
  sliceable df = true ->
  exists fra, fragmentation df (map fst (value_counts (oids df))) = Ok fra.
Proof. intros H. apply fragmentation_loop_sliceable, H. Qed.

(** On a sliceable log [compute_metrics] returns its fourteen columns. *)
Lemma compute_metrics_total Series_sum d :
  sliceable (events_of d) = true ->
  exists metr, compute_metrics Series_sum d = Ok metr /\ map fst metr = columns.
Proof.
  intros Hd. unfold compute_metrics.
  destruct (fragmentation_sliceable _ Hd) as [fra Hfra].
  destruct (float_facts.py_int_float_of_nat (length (distinct (map FrameId (events_of d)))))
    as [z1 H1].
  destruct (float_facts.py_int_float_of_nat (count_type "MATCH" (events_of d))) as [z2 H2].
  destruct (float_facts.py_int_float_of_nat (count_type "SWITCH" (events_of d))) as [z3 H3].
  destruct (float_facts.py_int_float_of_nat (count_type "FP" (events_of d))) as [z4 H4].
  destruct (float_facts.py_int_float_of_nat (count_type "MISS" (events_of d))) as [z5 H5].
  cbv zeta. rewrite Hfra, H1, H2, H3, H4, H5. cbn [obind].
  eexists. split; reflexivity.
Qed.

Lemma compute_metrics_events Series_sum d :
  compute_metrics Series_sum (Frame (events_of d)) = compute_metrics Series_sum d.
Proof. destruct d; reflexivity. Qed.

(** [t] has one row per pair, in order: the row carries the pair's label
    and the metrics of the pair's event log, under the fourteen columns. *)
Definition table_for (Series_sum : list float -> float) (t : table)
    (pairs : list (label * accumulator)) : Prop :=
  Forall2 (fun r p => fst r = fst p /\
                      compute_metrics Series_sum (snd p) = Ok (snd r) /\
                      map fst (snd r) = columns) t pairs.

(** The logs that [zip] pairs with a name are sliceable. *)
Definition paired_sliceable {A : Type} (names : list A) (accs : list accumulator) : Prop :=
  Forall (fun d => sliceable (events_of d) = true) (take (length names) accs).

Lemma rows_of_total Series_sum (names : list label) (accs : list accumulator) :
  paired_sliceable names accs ->
  exists t, rows_of Series_sum (zip names (map events_of accs)) = Ok t /\
            table_for Series_sum t (zip names accs).
Proof.
  unfold paired_sliceable. revert accs. induction names as [|n names IH]; intros accs Hs.
  - exists []. split; [reflexivity|constructor].
  - destruct accs as [|d accs].
    + exists []. split; [reflexivity|constructor].
    + cbn [length take] in Hs. apply Forall_cons in Hs as [Hd Hs].
      destruct (IH accs Hs) as (t & Ht & Hfor).
      destruct (compute_metrics_total Series_sum d Hd) as (metr & Hmetr & Hcols).
      exists ((n, metr) :: t). split.
      * simpl. rewrite compute_metrics_events, Hmetr. simpl.
        change (zip_with pair names (map events_of accs))
          with (zip names (map events_of accs)).
        rewrite Ht. reflexivity.
      * constructor; [|exact Hfor]. simpl. auto.
Qed.

Lemma table_for_labels Series_sum t pairs :
  table_for Series_sum t pairs -> map fst t = map fst pairs.
Proof.
  induction 1 as [|r p t pairs (Hl & _ & _) _ IH]; simpl; [reflexivity|].
  rewrite Hl, IH. reflexivity.
Qed.

Lemma fst_zip_take {A B} (l : list A) (k : list B) :
  map fst (zip l k) = take (length k) l.
Proof.
  revert k. induction l as [|x l IH]; intros [|y k]; simpl; try reflexivity.
  rewrite IH. reflexivity.
Qed.

(** The table [summarize] returns when at least one (name, log) pair is
    formed. *)
Lemma summarize_pairs Series_sum (names : list label) (accs : list accumulator) :
  zip names accs <> [] ->
  paired_sliceable names accs ->
  exists t,
    (let? dfs := rows_of Series_sum (zip names (map events_of accs)) in pd_concat dfs) = Ok t /\
    length t = Nat.min (length names) (length accs) /\
    map fst t = take (length accs) names /\
    table_for Series_sum t (zip names accs).
Proof.
  intros Hne Hs. destruct (rows_of_total Series_sum names accs Hs) as (t & Ht & Hfor).
  exists t. rewrite Ht. simpl.
  assert (Hlen : length t = length (zip names accs)) by (eapply Forall2_length; exact Hfor).
  repeat split.
  - destruct t as [|r t]; [|reflexivity].
    destruct (zip names accs); [contradiction|discriminate].
  - rewrite Hlen. apply length_zip_with.
  - rewrite (table_for_labels _ _ _ Hfor). apply fst_zip_take.
  - exact Hfor.
Qed.

(** Two event logs and one explicit name: [summarize] does not fail; it
    returns the one-row table of the first log. *)
Example fewer_names_do_not_fail :
  exists t,
    summarize examples.left_to_right
      (Several [Frame examples.log; MOTAccumulator []]) (NamesList [LStr "first"])
    = Ok t /\
    map fst t = [LStr "first"].
Proof.
  eexists. split; vm_compute; reflexivity.
Qed.

(** C7, on the code: [summarize] pairs names and logs with [zip] and checks
    no length. Over [N >= 1] logs whose paired logs are sliceable it returns
    one row per (name, log) pair, each with the fourteen columns of
    [compute_metrics] and the metrics of its log. Without names that is an
    [N]-row table labelled [0 .. N-1]. With [k >= 1] explicit names it is a
    table of [min k N] rows labelled by the first names: with fewer names
    than logs nothing fails, and the logs beyond the names have no row. *)
Theorem summarize_rows_follow_zip (Series_sum : list float -> float)
    (accs : list accumulator) (names : list label) :
  accs <> [] ->
  (Forall (fun d => sliceable (events_of d) = true) accs ->
   exists t,
     summarize Series_sum (Several accs) NamesNone = Ok t /\
     length t = length accs /\
     map fst t = map (fun i => LInt (Z.of_nat i)) (seq 0 (length accs)) /\
     table_for Series_sum t (zip (map fst t) accs)) /\
  (names <> [] ->
   paired_sliceable names accs ->
   exists t,
     summarize Series_sum (Several accs) (NamesList names) = Ok t /\
     length t = Nat.min (length names) (length accs) /\
     (length names < length accs -> length t < length accs) /\
     map fst t = take (length accs) names /\
     table_for Series_sum t (zip names accs)).
Proof.
  intros Haccs. split.
  - intros Hs.
    set (idx := map (fun i => LInt (Z.of_nat i)) (seq 0 (length accs))).
    assert (Hidx : length idx = length accs).
    { unfold idx. rewrite length_map, length_seq. reflexivity. }
    destruct (summarize_pairs Series_sum idx accs) as (t & Hrun & Hlen & Hlabels & Hfor).
    { destruct accs as [|d accs]; [contradiction|]. discriminate. }
    { unfold paired_sliceable. rewrite Hidx, firstn_all. exact Hs. }
    exists t. split; [exact Hrun|].
    rewrite <- Hidx in Hlabels. rewrite firstn_all in Hlabels.
    split; [lia|]. split; [exact Hlabels|].
    rewrite Hlabels. exact Hfor.
  - intros Hnames Hs.
    destruct (summarize_pairs Series_sum names accs) as (t & Hrun & Hlen & Hlabels & Hfor).
    { destruct names; [contradiction|]. destruct accs; [contradiction|]. discriminate. }
    { exact Hs. }
    exists t. split; [exact Hrun|]. split; [exact Hlen|]. split; [lia|]. auto.
Qed.

(** An event log in which the rows of object [a] are out of index order. *)
Definition unsorted_log : DataFrame :=
  [ {| FrameId := 1; EventId := 0; Type_ := "MATCH"; OId := Some "a"; HId := Some "1";
       D := 0.1 |};
    {| FrameId := 0; EventId := 0; Type_ := "MATCH"; OId := Some "a"; HId := Some "1";
       D := 0.2 |} ].

(** C7, witness: the example log and an empty log, without names and with
    the one name ["first"]: one row for two logs. *)
Lemma summarize_rows_follow_zip_witness :
  (exists t,
     summarize examples.left_to_right
       (Several [Frame examples.log; MOTAccumulator []]) NamesNone = Ok t /\
     length t = 2 /\
     map fst t = [LInt 0; LInt 1] /\
     table_for examples.left_to_right t
       (zip (map fst t) [Frame examples.log; MOTAccumulator []])) /\
  (exists t,
     summarize examples.left_to_right
       (Several [Frame examples.log; MOTAccumulator []]) (NamesList [LStr "first"])
     = Ok t /\
     length t = 1 /\
     (1 < 2 -> length t < 2) /\
     map fst t = [LStr "first"] /\
     table_for examples.left_to_right t
       (zip [LStr "first"] [Frame examples.log; MOTAccumulator []])).
Proof.
  destruct (summarize_rows_follow_zip examples.left_to_right
              [Frame examples.log; MOTAccumulator []] [LStr "first"]) as [Hnone Hnames].
  { discriminate. }
  split.
  - apply Hnone. repeat constructor.
  - apply Hnames; [discriminate|]. repeat constructor.
Defined.

Lemma characters_ascii s :
  characters s = map (fun a => LStr (String a EmptyString)) (list_ascii_of_string s).
Proof. induction s as [|a s IH]; simpl; [reflexivity|]. rewrite IH. reflexivity. Qed.

Lemma length_list_ascii_of_string s : length (list_ascii_of_string s) = String.length s.
Proof. induction s as [|a s IH]; simpl; [reflexivity|]. rewrite IH. reflexivity. Qed.

(** C9: a string given as [names] is iterated character by character. The
    rows [summarize] assembles pair the [i]-th input with the one-character
    string of the [i]-th character as its label, for the first
    [min (length names) N] inputs; the inputs beyond the length of the
    string get no row, are not read and raise no error. [pd.concat] makes
    the table from these rows, so a non-empty string over at least one input
    gives exactly this table, and a single accumulator is labelled by the
    first character of the string. The paired logs are taken sliceable: on
    another one [compute_metrics] raises. *)
Theorem string_names_are_iterated_by_character (Series_sum : list float -> float)
    (s : string) (accs : list accumulator) :
  Forall (fun d => sliceable (events_of d) = true) (take (String.length s) accs) ->
  let label_of := fun a => LStr (String a EmptyString) in
  exists dfs,
    summarize Series_sum (Several accs) (NamesStr s) = pd_concat dfs /\
    length dfs = Nat.min (String.length s) (length accs) /\
    map fst dfs = map label_of (take (length accs) (list_ascii_of_string s)) /\
    table_for Series_sum dfs (zip (map label_of (list_ascii_of_string s)) accs) /\
    (s <> "" -> accs <> [] -> summarize Series_sum (Several accs) (NamesStr s) = Ok dfs) /\
    (forall d, accs = [d] -> summarize Series_sum (One d) (NamesStr s) = pd_concat dfs).
Proof.
  intros Hs label_of.
  assert (Hpaired : paired_sliceable (characters s) accs).
  { unfold paired_sliceable.
    rewrite characters_ascii, length_map, length_list_ascii_of_string. exact Hs. }
  destruct (rows_of_total Series_sum (characters s) accs Hpaired) as (dfs & Hrows & Hfor).
  assert (Hrun : summarize Series_sum (Several accs) (NamesStr s) = pd_concat dfs).
  { unfold summarize. rewrite Hrows. reflexivity. }
  rewrite characters_ascii in Hfor. fold label_of in Hfor.
  assert (Hlen : length dfs = Nat.min (String.length s) (length accs)).
  { rewrite (Forall2_length _ _ _ Hfor), length_zip_with, length_map,
      length_list_ascii_of_string. reflexivity. }
  exists dfs. split; [exact Hrun|]. split; [exact Hlen|]. split.
  { rewrite (table_for_labels _ _ _ Hfor), fst_zip_take. apply firstn_map. }
  split; [exact Hfor|]. split.
  - intros Hne Haccs. rewrite Hrun.
    destruct dfs as [|r dfs]; [|reflexivity].
    destruct s as [|a s]; [contradiction|]. destruct accs as [|d accs]; [contradiction|].
    simpl in Hlen. discriminate.
  - intros d ->. exact Hrun.
Qed.

(** C9, witness: the string ["xy"] over three logs. The third log is not
    sliceable; it is beyond the length of the string and is not read. *)
Lemma string_names_are_iterated_by_character_witness :
  exists dfs,
    summarize examples.left_to_right
      (Several [Frame examples.log; MOTAccumulator []; Frame unsorted_log]) (NamesStr "xy")
    = pd_concat dfs /\
    length dfs = Nat.min 2 3 /\
    map fst dfs = map (fun a => LStr (String a EmptyString))
                      (take 3 (list_ascii_of_string "xy")) /\
    table_for examples.left_to_right dfs
      (zip (map (fun a => LStr (String a EmptyString)) (list_ascii_of_string "xy"))
           [Frame examples.log; MOTAccumulator []; Frame unsorted_log]) /\
    ("xy" <> "" ->
     [Frame examples.log; MOTAccumulator []; Frame unsorted_log] <> [] ->
     summarize examples.left_to_right
       (Several [Frame examples.log; MOTAccumulator []; Frame unsorted_log]) (NamesStr "xy")
     = Ok dfs) /\
    (forall d,
       [Frame examples.log; MOTAccumulator []; Frame unsorted_log] = [d] ->
       summarize examples.left_to_right (One d) (NamesStr "xy") = pd_concat dfs).
Proof.
  refine (string_names_are_iterated_by_character examples.left_to_right "xy"
            [Frame examples.log; MOTAccumulator []; Frame unsorted_log] _).
  repeat constructor.
Defined.

End metrics_spec.

(** * Further properties of the assignment-solver layer *)

Module lap_more.

Import lap lap_spec.

(** ** Dispatch on the solver name *)

Lemma lower_ascii_idempotent a : lower_ascii (lower_ascii a) = lower_ascii a.
Proof. destruct a as [[] [] [] [] [] [] [] []]; reflexivity. Qed.

Lemma lower_idempotent s : lower (lower s) = lower s.
Proof.
  induction s as [|a s IH]; simpl; [reflexivity|].
  rewrite lower_ascii_idempotent, IH. reflexivity.
Qed.

(** X1: a solver name that, in lower case, is none of the four known names
    makes [linear_sum_assignment] raise [KeyError] with the lower-cased
    name; no backend is imported or called and the heap is untouched. *)
Theorem unknown_solver_raises_key_error tp g fuel costs solver w :
  solver_key g solver <> "lapsolver" ->
  solver_key g solver <> "scipy" ->
  solver_key g solver <> "munkres" ->
  solver_key g solver <> "ortools" ->
  linear_sum_assignment tp g (S fuel) costs solver w
  = (Raise (KeyError (solver_key g solver)), w).
Proof.
  intros H1 H2 H3 H4. rewrite linear_sum_assignment_S. cbv zeta.
  apply String.eqb_neq in H1, H2, H3, H4. rewrite H1, H2, H3, H4. reflexivity.
Qed.

(** X1, witness: the solver name ["Hungarian"]. *)
Lemma unknown_solver_raises_key_error_witness :
  linear_sum_assignment examples.installed examples.globals 1 0 (Some "Hungarian")
    (examples.one_array [[1%float]])
  = (Raise (KeyError "hungarian"), examples.one_array [[1%float]]).
Proof.
  refine (unknown_solver_raises_key_error examples.installed examples.globals 0 0
            (Some "Hungarian") (examples.one_array [[1%float]]) _ _ _ _);
    vm_compute; discriminate.
Defined.

(** X2: solver names are case-insensitive: a name and its lower-case form
    select the same adapter, for every budget, array and state. *)
Theorem solver_name_is_case_insensitive tp g fuel costs s :
  linear_sum_assignment tp g fuel costs (Some s)
  = linear_sum_assignment tp g fuel costs (Some (lower s)).
Proof.
  destruct fuel as [|fuel]; [reflexivity|].
  rewrite !linear_sum_assignment_S. unfold solver_key.
  rewrite lower_idempotent. reflexivity.
Qed.

(** X3: an adapter whose backend is not installed raises [ImportError] for
    the module it imports, before it reads the costs: nothing is called and
    the state is as before. *)
Theorem missing_backend_raises_import_error tp g fuel costs w :
  (scipy_solve tp = None ->
   linear_sum_assignment tp g (S fuel) costs (Some "scipy") w
   = (Raise (ImportError "scipy.optimize"), w)) /\
  (solve_dense tp = None ->
   linear_sum_assignment tp g (S fuel) costs (Some "lapsolver") w
   = (Raise (ImportError "lapsolver"), w)) /\
  (munkres_compute tp = None ->
   linear_sum_assignment tp g (S fuel) costs (Some "munkres") w
   = (Raise (ImportError "munkres"), w)) /\
  (pywrapgraph tp = None ->
   linear_sum_assignment tp g (S fuel) costs (Some "ortools") w
   = (Raise (ImportError "ortools.graph"), w)).
Proof.
  repeat split; intros H; rewrite linear_sum_assignment_S; cbv zeta;
    change (solver_key g (Some "scipy")) with "scipy";
    change (solver_key g (Some "lapsolver")) with "lapsolver";
    change (solver_key g (Some "munkres")) with "munkres";
    change (solver_key g (Some "ortools")) with "ortools";
    cbn [String.eqb Ascii.eqb Bool.eqb];
    unfold lsa_solve_scipy, lsa_solve_lapsolver, lsa_solve_munkres, lsa_solve_ortools;
    rewrite H; reflexivity.
Qed.

(** X4: [init_standard_solvers] prefers scipy, then ortools, then munkres.
    It fails exactly when none of these three is installed; lapsolver is
    not among the candidates, so an installation that only has lapsolver
    fails too. *)
Theorem init_standard_solvers_preference tp :
  match init_standard_solvers tp with
  | Ok g =>
      default_solver g
      = (if find_spec tp "scipy" then "scipy"
         else if find_spec tp "ortools" then "ortools" else "munkres") /\
      find_spec tp (default_solver g) = true /\
      available_solvers g = List.filter (find_spec tp) ["scipy"; "ortools"; "munkres"]
  | Raise e =>
      find_spec tp "scipy" = false /\ find_spec tp "ortools" = false /\
      find_spec tp "munkres" = false /\
      e = AssertionError "No LAP solvers are available. Try `pip install lapsolver` or `pip install scipy`"
  | Diverge => False
  end.
Proof.
  unfold init_standard_solvers. cbn [List.filter].
  destruct (find_spec tp "scipy") eqn:H1, (find_spec tp "ortools") eqn:H2,
    (find_spec tp "munkres") eqn:H3; cbn [default_solver available_solvers];
    rewrite ?H1, ?H2, ?H3; auto.
Qed.

(** ** The scipy adapter *)

Lemma all_finite_no_invalid c :
  Forall (Forall (fun x => PrimFloat.is_finite x = true)) c ->
  np_any (np_invert (np_isfinite c)) = false.
Proof.
  unfold np_any, np_invert, np_isfinite.
  induction 1 as [|row c Hrow _ IH]; simpl; [reflexivity|].
  rewrite IH, orb_false_r.
  induction Hrow as [|x row Hx _ IHrow]; simpl; [reflexivity|].
  rewrite Hx, IHrow. reflexivity.
Qed.

(** X5: when every cost is finite, [lsa_solve_scipy] makes no copy: scipy
    is called once, on the caller's array as it is, the heap is unchanged
    and scipy's result is returned as it is. *)
Theorem scipy_finite_costs_pass_through tp s w costs c :
  scipy_solve tp = Some s ->
  heap w !! costs = Some (FloatArr c) ->
  Forall (Forall (fun x => PrimFloat.is_finite x = true)) c ->
  lsa_solve_scipy tp costs w
  = (s c, {| heap := heap w; calls := calls w ++ [CallScipy c] |}).
Proof.
  intros Hs Hc Hfin. unfold lsa_solve_scipy. rewrite Hs, bind_import.
  rewrite (bind_float_array _ _ _ _ Hc), (all_finite_no_invalid c Hfin).
  rewrite bind_ret, (bind_float_array _ _ _ _ Hc). reflexivity.
Qed.

(** X5, witness: the costs [[0.5, 2]]. *)
Lemma scipy_finite_costs_pass_through_witness :
  lsa_solve_scipy examples.installed 0 (examples.one_array [[0.5%float; 2%float]])
  = (examples.identity_matching [[0.5%float; 2%float]],
     {| heap := [FloatArr [[0.5%float; 2%float]]];
        calls := [CallScipy [[0.5%float; 2%float]]] |}).
Proof.
  refine (scipy_finite_costs_pass_through examples.installed examples.identity_matching
            (examples.one_array [[0.5%float; 2%float]]) 0 [[0.5%float; 2%float]]
            eq_refl eq_refl _).
  repeat constructor.
Defined.

(** X6: the sentinel is not always finite. When [2 * max + 1] overflows,
    scipy receives an array that is still non-finite wherever the costs
    were. *)
Theorem scipy_sentinel_can_overflow tp s w costs c :
  scipy_solve tp = Some s ->
  heap w !! costs = Some (FloatArr c) ->
  PrimFloat.is_finite (INVDIST c) = false ->
  exists c' w',
    lsa_solve_scipy tp costs w = (s c', w') /\
    calls w' = calls w ++ [CallScipy c'] /\
    forall i j x,
      entry c i j = Some x -> PrimFloat.is_finite x = false ->
      exists y, entry c' i j = Some y /\ PrimFloat.is_finite y = false.
Proof.
  intros Hs Hc Hinf.
  destruct (lsa_solve_scipy_run tp s w costs c Hs Hc) as [fresh Hrun].
  eexists _, _. split; [exact Hrun|]. split; [reflexivity|].
  intros i j x Hx Hxinf. exists (INVDIST c).
  rewrite entry_replace_nonfinite, Hx. simpl. rewrite Hxinf. auto.
Qed.

(** X6, witness: the costs [[1e308, NaN]], for which [2 * 1e308 + 1] is
    infinite. *)
Lemma scipy_sentinel_can_overflow_witness :
  exists c' w',
    lsa_solve_scipy examples.installed 0 (examples.one_array [[1e308%float; PrimFloat.nan]])
    = (examples.identity_matching c', w') /\
    calls w' = [CallScipy c'] /\
    forall i j x,
      entry [[1e308%float; PrimFloat.nan]] i j = Some x -> PrimFloat.is_finite x = false ->
      exists y, entry c' i j = Some y /\ PrimFloat.is_finite y = false.
Proof.
  refine (scipy_sentinel_can_overflow examples.installed examples.identity_matching
            (examples.one_array [[1e308%float; PrimFloat.nan]]) 0
            [[1e308%float; PrimFloat.nan]] eq_refl eq_refl _).
  vm_compute. reflexivity.
Defined.

(** ** The munkres adapter *)

(** X7: [lsa_solve_munkres] copies the costs and calls munkres once, on an
    array of the same shape in which each finite cost is kept and each
    non-finite cost is [DISALLOWED]. The pairs munkres returns are split
    into the row and the column indices; when it returns no pair, indexing
    the empty array raises [IndexError]. *)
Theorem munkres_receives_disallowed tp compute w costs c :
  munkres_compute tp = Some compute ->
  heap w !! costs = Some (FloatArr c) ->
  exists cells fresh,
    lsa_solve_munkres tp costs w
    = (match compute cells with
       | Ok [] => Raise (IndexError "too many indices for array")
       | Ok indices => Ok (map fst indices, map snd indices)
       | Raise e => Raise e
       | Diverge => Diverge
       end,
       {| heap := heap w ++ fresh; calls := calls w ++ [CallMunkres cells] |}) /\
    fresh <> [] /\
    length cells = length c /\
    forall i j,
      entry cells i j
      = (fun x => if PrimFloat.is_finite x then Num x else DISALLOWED) <$> entry c i j.
Proof.
  intros Hm Hc. unfold lsa_solve_munkres. rewrite Hm, bind_import.
  rewrite (bind_deref _ _ _ _ Hc), bind_alloc.
  erewrite bind_float_array by apply lookup_fresh.
  exists (munkres_cells c).
  assert (Hcells : forall i j,
             entry (munkres_cells c) i j
             = (fun x => if PrimFloat.is_finite x then Num x else DISALLOWED) <$> entry c i j).
  { intros i j. unfold entry, munkres_cells. rewrite list_lookup_fmap.
    destruct (c !! i) as [row|]; simpl; [|reflexivity]. apply list_lookup_fmap. }
  assert (Hlen : length (munkres_cells c) = length c) by (unfold munkres_cells; apply length_map).
  destruct (np_any (np_invert (np_isfinite c))) eqn:Hany.
  - rewrite !bind_assoc, bind_alloc, bind_assoc, bind_store, bind_ret.
    simpl heap. simpl calls. rewrite length_app. simpl length.
    replace (length (heap w) + 1) with (length (heap w ++ [FloatArr c]))
      by (rewrite length_app; reflexivity).
    rewrite insert_fresh, setitem_mask_disallowed.
    erewrite bind_deref by apply lookup_fresh.
    cbv beta iota. exists [FloatArr c; ObjArr (munkres_cells c)].
    split; [|split; [discriminate|split; [exact Hlen|exact Hcells]]].
    unfold bind, invoke. simpl. rewrite <- app_assoc. simpl.
    destruct (compute (munkres_cells c)) as [[|p l]| |]; reflexivity.
  - rewrite bind_ret. erewrite bind_deref by apply lookup_fresh.
    cbv beta iota. rewrite (munkres_cells_all_finite _ Hany).
    exists [FloatArr c].
    split; [|split; [discriminate|split; [exact Hlen|exact Hcells]]].
    unfold bind, invoke. simpl.
    destruct (compute (munkres_cells c)) as [[|p l]| |]; reflexivity.
Qed.

(** A munkres that pairs row [i] with column [i] wherever that cell is
    allowed, and an installation that has it. *)
Definition diagonal_allowed (cells : list (list cell)) : outcome (list (nat * nat)) :=
  Ok (List.filter (fun p => match entry cells (fst p) (snd p) with
                            | Some (Num _) => true
                            | _ => false
                            end)
                  (map (fun i => (i, i)) (seq 0 (length cells)))).

Definition with_munkres : third_party :=
  {| scipy_solve := None;
     solve_dense := None;
     munkres_compute := Some diagonal_allowed;
     pywrapgraph := None;
     np_log10 := fun _ => PrimFloat.nan |}.

(** X7, witness: the costs [[1, NaN], [NaN, NaN]]. *)
Lemma munkres_receives_disallowed_witness :
  exists cells fresh,
    lsa_solve_munkres with_munkres 0
      (examples.one_array [[1%float; PrimFloat.nan]; [PrimFloat.nan; PrimFloat.nan]])
    = (match diagonal_allowed cells with
       | Ok [] => Raise (IndexError "too many indices for array")
       | Ok indices => Ok (map fst indices, map snd indices)
       | Raise e => Raise e
       | Diverge => Diverge
       end,
       {| heap := [FloatArr [[1%float; PrimFloat.nan]; [PrimFloat.nan; PrimFloat.nan]]] ++ fresh;
          calls := [CallMunkres cells] |}) /\
    fresh <> [] /\
    length cells = 2 /\
    forall i j,
      entry cells i j
      = (fun x => if PrimFloat.is_finite x then Num x else DISALLOWED)
          <$> entry [[1%float; PrimFloat.nan]; [PrimFloat.nan; PrimFloat.nan]] i j.
Proof.
  exact (munkres_receives_disallowed with_munkres diagonal_allowed
           (examples.one_array [[1%float; PrimFloat.nan]; [PrimFloat.nan; PrimFloat.nan]]) 0
           [[1%float; PrimFloat.nan]; [PrimFloat.nan; PrimFloat.nan]] eq_refl eq_refl).
Defined.

(** The contract of munkres on [DISALLOWED] cells: no pair it returns is a
    [DISALLOWED] cell (or lies outside the array). *)
Definition avoids_disallowed (compute : list (list cell) -> outcome (list (nat * nat))) : Prop :=
  forall cells pairs,
    compute cells = Ok pairs ->
    Forall (fun p => exists x, entry cells (fst p) (snd p) = Some (Num x)) pairs.

Lemma zip_fst_snd {A B} (l : list (A * B)) : zip (map fst l) (map snd l) = l.
Proof. induction l as [|[a b] l IH]; simpl; [reflexivity|]. rewrite IH. reflexivity. Qed.

(** X8: with a munkres that keeps to this contract, the munkres adapter
    never returns a pair whose cost is non-finite: whenever it returns,
    the two index sequences have the same length and every (row, column)
    pair has a finite cost in the caller's matrix. *)
Theorem munkres_pairs_have_finite_costs tp compute w costs c rows cols w' :
  munkres_compute tp = Some compute ->
  avoids_disallowed compute ->
  heap w !! costs = Some (FloatArr c) ->
  lsa_solve_munkres tp costs w = (Ok (rows, cols), w') ->
  length rows = length cols /\
  Forall (fun p => exists x, entry c (fst p) (snd p) = Some x /\
                             PrimFloat.is_finite x = true)
         (zip rows cols).
Proof.
  intros Hm Hcontract Hc Hrun.
  destruct (lsa_solve_munkres_run tp compute w costs c Hm Hc) as [fresh Hrun'].
  rewrite Hrun' in Hrun.
  destruct (compute (munkres_cells c)) as [pairs| |] eqn:Hpairs; try discriminate.
  assert (Hok : rows = map fst pairs /\ cols = map snd pairs).
  { destruct pairs; [discriminate|]. inversion Hrun. auto. }
  destruct Hok as [-> ->]. split; [rewrite !length_map; reflexivity|].
  rewrite zip_fst_snd.
  eapply Forall_impl; [exact (Hcontract _ _ Hpairs)|].
  intros [i j] [y Hy]. simpl in *.
  unfold entry, munkres_cells in Hy. rewrite list_lookup_fmap in Hy.
  unfold entry. destruct (c !! i) as [row|]; simpl in Hy; [|discriminate].
  rewrite list_lookup_fmap in Hy.
  destruct (row !! j) as [x|]; simpl in Hy; [|discriminate].
  exists x. split; [reflexivity|].
  destruct (PrimFloat.is_finite x); [reflexivity|discriminate].
Qed.

Lemma diagonal_allowed_avoids_disallowed : avoids_disallowed diagonal_allowed.
Proof.
  intros cells pairs H. unfold diagonal_allowed in H. inversion H; subst.
  apply Forall_forall. intros p Hp. apply list_elem_of_In, filter_In in Hp as [_ Hp].
  destruct (entry cells (fst p) (snd p)) as [[x|]|]; try discriminate. eauto.
Qed.

(** X8, witness: the costs [[1, NaN], [NaN, NaN]]; only the pair (0, 0) is
    returned. *)
Lemma munkres_pairs_have_finite_costs_witness :
  length [0] = length [0] /\
  Forall (fun p => exists x,
            entry [[1%float; PrimFloat.nan]; [PrimFloat.nan; PrimFloat.nan]] (fst p) (snd p)
            = Some x /\ PrimFloat.is_finite x = true)
         (zip [0] [0]).
Proof.
  refine (munkres_pairs_have_finite_costs with_munkres diagonal_allowed
            (examples.one_array [[1%float; PrimFloat.nan]; [PrimFloat.nan; PrimFloat.nan]]) 0
            [[1%float; PrimFloat.nan]; [PrimFloat.nan; PrimFloat.nan]] [0] [0] _
            eq_refl diagonal_allowed_avoids_disallowed eq_refl _).
  vm_compute. reflexivity.
Defined.

(** ** The ortools adapter *)

Lemma row_arcs_In f r j0 row arcs :
  row_arcs f r j0 row = Ok arcs ->
  forall r' j z,
    In (Arc r' j z) arcs <->
    r' = r /\ j0 <= j /\
    exists x, row !! (j - j0) = Some x /\ PrimFloat.is_finite x = true /\
              py_int (PrimFloat.mul x (float_of_Z f)) = Ok z.
Proof.
  intros H r' j z. revert j0 arcs H.
  induction row as [|x row IH]; intros j0 arcs H; cbn [row_arcs] in H.
  - inversion H; subst. split; [intros []|].
    intros (_ & _ & x & Hx & _). rewrite lookup_nil in Hx. discriminate.
  - destruct (PrimFloat.is_finite x) eqn:Hfin.
    + destruct (py_int (PrimFloat.mul x (float_of_Z f))) as [k| |] eqn:Hk;
        cbn [obind] in H; try discriminate.
      destruct (row_arcs f r (S j0) row) as [rest| |] eqn:Hrest;
        cbn [obind] in H; try discriminate.
      inversion H; subst. cbn [In]. rewrite (IH _ _ Hrest). split.
      * intros [Heq | (Hr & Hj & y & Hy & Hfy & Hz)].
        -- inversion Heq; subst. split; [reflexivity|]. split; [lia|].
           exists x. rewrite Nat.sub_diag. auto.
        -- split; [exact Hr|]. split; [lia|]. exists y.
           replace (j - j0) with (S (j - S j0)) by lia. auto.
      * intros (Hr & Hj & y & Hy & Hfy & Hz). destruct (decide (j = j0)) as [->|Hne].
        -- left. rewrite Nat.sub_diag in Hy. cbn in Hy. inversion Hy; subst.
           rewrite Hk in Hz. inversion Hz; subst. reflexivity.
        -- right. split; [exact Hr|]. split; [lia|]. exists y.
           replace (j - j0) with (S (j - S j0)) in Hy by lia. auto.
    + rewrite (IH _ _ H). split.
      * intros (Hr & Hj & y & Hy & Hfy & Hz). split; [exact Hr|]. split; [lia|].
        exists y. replace (j - j0) with (S (j - S j0)) by lia. auto.
      * intros (Hr & Hj & y & Hy & Hfy & Hz). destruct (decide (j = j0)) as [->|Hne].
        -- rewrite Nat.sub_diag in Hy. cbn in Hy. inversion Hy; subst. congruence.
        -- split; [exact Hr|]. split; [lia|]. exists y.
           replace (j - j0) with (S (j - S j0)) in Hy by lia. auto.
Qed.

Lemma matrix_arcs_In f r0 c arcs :
  matrix_arcs f r0 c = Ok arcs ->
  forall r j z,
    In (Arc r j z) arcs <->
    r0 <= r /\
    exists x, entry c (r - r0) j = Some x /\ PrimFloat.is_finite x = true /\
              py_int (PrimFloat.mul x (float_of_Z f)) = Ok z.
Proof.
  intros H r j z. revert r0 arcs H.
  induction c as [|row c IH]; intros r0 arcs H; cbn [matrix_arcs] in H.
  - inversion H; subst. split; [intros []|].
    intros (_ & x & Hx & _). unfold entry in Hx. rewrite lookup_nil in Hx. discriminate.
  - destruct (row_arcs f r0 0 row) as [here| |] eqn:Hhere; cbn [obind] in H; try discriminate.
    destruct (matrix_arcs f (S r0) c) as [rest| |] eqn:Hrest; cbn [obind] in H; try discriminate.
    inversion H; subst. rewrite in_app_iff, (row_arcs_In _ _ _ _ _ Hhere), (IH _ _ Hrest).
    rewrite Nat.sub_0_r. unfold entry. split.
    + intros [(-> & _ & x & Hx & Hfx & Hz) | (Hr & x & Hx & Hfx & Hz)].
      * split; [lia|]. exists x. rewrite Nat.sub_diag. auto.
      * split; [lia|]. exists x. replace (r - r0) with (S (r - S r0)) by lia. auto.
    + intros (Hr & x & Hx & Hfx & Hz). destruct (decide (r = r0)) as [->|Hne].
      * left. rewrite Nat.sub_diag in Hx. split; [reflexivity|]. split; [lia|]. eauto.
      * right. split; [lia|]. exists x.
        replace (r - r0) with (S (r - S r0)) in Hx by lia. auto.
Qed.

(** The scale factor is a power of ten between [10^0] and [10^8]. *)
Lemma scaled_arcs_factor tp c arcs :
  scaled_arcs tp c = Ok arcs ->
  exists k, (0 <= k <= 8)%Z /\ matrix_arcs (10 ^ k) 0 c = Ok arcs.
Proof.
  unfold scaled_arcs. cbv zeta. intros H.
  destruct (if length _ =? 1 then _ else _) as [min_diff| |]; cbn [obind] in H;
    try discriminate.
  destruct (if negb _ then _ else _) as [min_diff_e| |]; cbn [obind] in H;
    try discriminate.
  exists (Z.abs (Z.min (Z.max (-8) min_diff_e) 0)). split; [lia|exact H].
Qed.

Lemma scaled_arcs_In tp c arcs :
  scaled_arcs tp c = Ok arcs ->
  exists k, (0 <= k <= 8)%Z /\
    forall r j z,
      In (Arc r j z) arcs <->
      exists x, entry c r j = Some x /\ PrimFloat.is_finite x = true /\
                py_int (PrimFloat.mul x (float_of_Z (10 ^ k))) = Ok z.
Proof.
  intros H. destruct (scaled_arcs_factor tp c arcs H) as (k & Hk & Harcs).
  exists k. split; [exact Hk|]. intros r j z.
  rewrite (matrix_arcs_In _ _ _ _ Harcs), Nat.sub_0_r. split.
  - intros [_ Hx]. exact Hx.
  - intros Hx. split; [lia|exact Hx].
Qed.

(** X9: the arcs [lsa_solve_ortools] adds are exactly the finite costs:
    there is an arc from row [r] to column [j] if and only if the cost at
    [(r, j)] is finite, and its integer cost is that cost times [10^k],
    truncated, for one exponent [0 <= k <= 8] shared by all arcs. *)
Theorem ortools_arcs_are_the_finite_costs tp c arcs :
  scaled_arcs tp c = Ok arcs ->
  exists k, (0 <= k <= 8)%Z /\
    forall r j z,
      In (Arc r j z) arcs <->
      exists x, entry c r j = Some x /\ PrimFloat.is_finite x = true /\
                py_int (PrimFloat.mul x (float_of_Z (10 ^ k))) = Ok z.
Proof. exact (scaled_arcs_In tp c arcs). Qed.

(** X9, witness: the costs [[0, NaN]]. *)
Lemma ortools_arcs_are_the_finite_costs_witness :
  exists k, (0 <= k <= 8)%Z /\
    forall r j z,
      In (Arc r j z) [Arc 0 0 0] <->
      exists x, entry [[0%float; PrimFloat.nan]] r j = Some x /\
                PrimFloat.is_finite x = true /\
                py_int (PrimFloat.mul x (float_of_Z (10 ^ k))) = Ok z.
Proof.
  exact (ortools_arcs_are_the_finite_costs examples.installed
           [[0%float; PrimFloat.nan]] [Arc 0 0 0] eq_refl).
Defined.

(** An ortools that pairs the first row it was given an arc for with the
    column of that arc, and an installation that has only it. *)
Definition first_arc (arcs : list arc) : LinearSumAssignment :=
  {| Solve := OPTIMAL;
     NumNodes := match arcs with [] => 0 | _ => 1 end;
     RightMate := fun _ => match arcs with Arc _ c _ :: _ => c | [] => 0 end |}.

Definition with_ortools : third_party :=
  {| scipy_solve := None;
     solve_dense := None;
     munkres_compute := None;
     pywrapgraph := Some first_arc;
     np_log10 := fun _ => PrimFloat.nan |}.

Lemma map_fst_pairings {A} (f : nat -> A) l : map fst (map (fun i => (i, f i)) l) = l.
Proof. induction l as [|i l IH]; simpl; [reflexivity|]. rewrite IH. reflexivity. Qed.

Lemma map_snd_pairings {A} (f : nat -> A) l : map snd (map (fun i => (i, f i)) l) = map f l.
Proof. induction l as [|i l IH]; simpl; [reflexivity|]. rewrite IH. reflexivity. Qed.

Lemma zip_map_r {A} (f : nat -> A) l : zip l (map f l) = map (fun i => (i, f i)) l.
Proof. induction l as [|i l IH]; simpl; [reflexivity|]. rewrite IH. reflexivity. Qed.

(** X10: when ortools reports an optimal solution in which every left node
    is paired along an arc it was given, [lsa_solve_ortools] returns the
    rows [0 .. NumNodes-1] and one column for each, every pair has a finite
    cost in the caller's matrix, and the heap is untouched. *)
Theorem ortools_pairs_have_finite_costs tp g recur pw w costs c arcs :
  pywrapgraph tp = Some pw ->
  heap w !! costs = Some (FloatArr c) ->
  scaled_arcs tp c = Ok arcs ->
  Solve (pw arcs) = OPTIMAL ->
  (forall i, i < NumNodes (pw arcs) -> exists z, In (Arc i (RightMate (pw arcs) i) z) arcs) ->
  exists cols,
    lsa_solve_ortools tp g recur costs w
    = (Ok (seq 0 (NumNodes (pw arcs)), cols),
       {| heap := heap w; calls := calls w ++ [CallOrtools arcs] |}) /\
    length cols = NumNodes (pw arcs) /\
    Forall (fun p => exists x, entry c (fst p) (snd p) = Some x /\
                               PrimFloat.is_finite x = true)
           (zip (seq 0 (NumNodes (pw arcs))) cols).
Proof.
  intros Hp Hc Harcs Hsolve Hmate.
  exists (map (RightMate (pw arcs)) (seq 0 (NumNodes (pw arcs)))).
  rewrite (lsa_solve_ortools_run tp g recur pw w costs c arcs Hp Hc Harcs).
  cbv zeta. rewrite Hsolve. split; [|split].
  - destruct (NumNodes (pw arcs) =? 0) eqn:Hn.
    + apply Nat.eqb_eq in Hn. rewrite Hn. reflexivity.
    + rewrite map_fst_pairings, map_snd_pairings. reflexivity.
  - rewrite length_map, length_seq. reflexivity.
  - rewrite zip_map_r. apply Forall_forall. intros p Hp'.
    apply list_elem_of_In, in_map_iff in Hp' as (i & <- & Hi).
    apply in_seq in Hi. destruct (Hmate i) as [z Hz]; [lia|].
    destruct (scaled_arcs_In tp c arcs Harcs) as (k & _ & Hin).
    destruct (proj1 (Hin _ _ _) Hz) as (x & Hx & Hfx & _). exists x. auto.
Qed.

(** X10, witness: the costs [[NaN, 0]]: row 0 is paired with column 1. *)
Lemma ortools_pairs_have_finite_costs_witness :
  exists cols,
    lsa_solve_ortools with_ortools examples.globals (fun _ _ => lift Diverge) 0
      (examples.one_array [[PrimFloat.nan; 0%float]])
    = (Ok (seq 0 1, cols),
       {| heap := [FloatArr [[PrimFloat.nan; 0%float]]];
          calls := [CallOrtools [Arc 0 1 0]] |}) /\
    length cols = 1 /\
    Forall (fun p => exists x, entry [[PrimFloat.nan; 0%float]] (fst p) (snd p) = Some x /\
                               PrimFloat.is_finite x = true)
           (zip (seq 0 1) cols).
Proof.
  refine (ortools_pairs_have_finite_costs with_ortools examples.globals
            (fun _ _ => lift Diverge) first_arc
            (examples.one_array [[PrimFloat.nan; 0%float]]) 0
            [[PrimFloat.nan; 0%float]] [Arc 0 1 0] eq_refl eq_refl eq_refl eq_refl _).
  intros i Hi. exists 0%Z. cbn in Hi. replace i with 0 by lia. left. reflexivity.
Defined.

(** X11: with ortools itself as the default solver there is nothing to fall
    back to: when ortools does not reach an optimal solution, the call with
    the default solver raises [AssertionError] after the one call to
    ortools. *)
Theorem ortools_as_default_has_no_fallback tp g fuel pw w costs c arcs :
  pywrapgraph tp = Some pw ->
  heap w !! costs = Some (FloatArr c) ->
  scaled_arcs tp c = Ok arcs ->
  Solve (pw arcs) <> OPTIMAL ->
  default_solver g = "ortools" ->
  linear_sum_assignment tp g (S fuel) costs None w
  = (Raise (AssertionError ""),
     {| heap := heap w; calls := calls w ++ [CallOrtools arcs] |}).
Proof.
  intros Hp Hc Harcs Hsolve Hdefault.
  assert (Hkey : solver_key g None = "ortools").
  { unfold solver_key. rewrite Hdefault. reflexivity. }
  rewrite linear_sum_assignment_S. cbv zeta. rewrite Hkey.
  change (String.eqb "ortools" "lapsolver") with false.
  change (String.eqb "ortools" "scipy") with false.
  change (String.eqb "ortools" "munkres") with false.
  change (String.eqb "ortools" "ortools") with true. cbv iota.
  rewrite (lsa_solve_ortools_run tp g _ pw w costs c arcs Hp Hc Harcs).
  cbv zeta. rewrite Hdefault.
  destruct (Solve (pw arcs)); [contradiction|reflexivity|reflexivity].
Qed.

(** X11, witness: an installation whose default solver is ortools, and an
    ortools that reports [INFEASIBLE]. *)
Lemma ortools_as_default_has_no_fallback_witness :
  linear_sum_assignment examples.installed
    {| available_solvers := ["ortools"]; default_solver := "ortools" |} 1 0 None
    (examples.one_array [[0%float; 0%float]])
  = (Raise (AssertionError ""),
     {| heap := [FloatArr [[0%float; 0%float]]];
        calls := [CallOrtools [Arc 0 0 0; Arc 0 1 0]] |}).
Proof.
  refine (ortools_as_default_has_no_fallback examples.installed
            {| available_solvers := ["ortools"]; default_solver := "ortools" |} 0
            examples.failing_ortools (examples.one_array [[0%float; 0%float]]) 0
            [[0%float; 0%float]] [Arc 0 0 0; Arc 0 1 0] eq_refl eq_refl _ _ eq_refl).
  - vm_compute. reflexivity.
  - simpl. discriminate.
Defined.

(** ** Termination of the fallback *)

(** The installed backends return or raise on every input. *)
Definition backends_return (tp : third_party) : Prop :=
  (forall s c, scipy_solve tp = Some s -> s c <> Diverge) /\
  (forall s c, solve_dense tp = Some s -> s c <> Diverge) /\
  (forall m cells, munkres_compute tp = Some m -> m cells <> Diverge).

Lemma float_array_raises {B} r (k : list (list float) -> M B) w :
  (forall c, heap w !! r <> Some (FloatArr c)) ->
  exists e, fst (bind (float_array r) k w) = Raise e.
Proof.
  intros H. unfold float_array, deref, bind.
  destruct (heap w !! r) as [[c|o]|] eqn:Hr; [destruct (H c); reflexivity| |];
    eexists; reflexivity.
Qed.

Lemma float_array_fails_returns {B} r (k : list (list float) -> M B) w :
  (forall c, heap w !! r <> Some (FloatArr c)) ->
  fst (bind (float_array r) k w) <> Diverge.
Proof.
  intros H. destruct (float_array_raises r k w H) as [e He]. rewrite He. discriminate.
Qed.

Lemma lsa_solve_lapsolver_returns tp costs w :
  backends_return tp -> fst (lsa_solve_lapsolver tp costs w) <> Diverge.
Proof.
  intros (_ & Hl & _). unfold lsa_solve_lapsolver.
  destruct (solve_dense tp) as [s|] eqn:Hs; [|discriminate].
  rewrite bind_import. destruct (float_array_cases w costs) as [[c Hc]|Hc].
  - rewrite (bind_float_array _ _ _ _ Hc). apply (Hl s c eq_refl).
  - apply float_array_fails_returns. exact Hc.
Qed.

Lemma lsa_solve_scipy_returns tp costs w :
  backends_return tp -> fst (lsa_solve_scipy tp costs w) <> Diverge.
Proof.
  intros (Hs & _ & _).
  destruct (scipy_solve tp) as [s|] eqn:Hscipy.
  - destruct (float_array_cases w costs) as [[c Hc]|Hc].
    + destruct (lsa_solve_scipy_run tp s w costs c Hscipy Hc) as [fresh Hrun].
      rewrite Hrun. apply (Hs s _ eq_refl).
    + unfold lsa_solve_scipy. rewrite Hscipy, bind_import.
      apply float_array_fails_returns. exact Hc.
  - unfold lsa_solve_scipy. rewrite Hscipy. discriminate.
Qed.

Lemma lsa_solve_munkres_returns tp costs w :
  backends_return tp -> fst (lsa_solve_munkres tp costs w) <> Diverge.
Proof.
  intros (_ & _ & Hm).
  destruct (munkres_compute tp) as [m|] eqn:Hmunkres.
  - destruct (heap w !! costs) as [[c|o]|] eqn:Hc.
    + destruct (lsa_solve_munkres_run tp m w costs c Hmunkres Hc) as [fresh Hrun].
      rewrite Hrun. cbn [fst]. specialize (Hm m (munkres_cells c) eq_refl).
      destruct (m (munkres_cells c)) as [[|p l]| |]; congruence.
    + unfold lsa_solve_munkres. rewrite Hmunkres, bind_import.
      rewrite (bind_deref _ _ _ _ Hc), bind_alloc.
      unfold float_array, deref, bind. cbn [heap].
      rewrite lookup_app_r by lia. rewrite Nat.sub_diag. discriminate.
    + unfold lsa_solve_munkres. rewrite Hmunkres, bind_import.
      unfold deref, bind. rewrite Hc. discriminate.
  - unfold lsa_solve_munkres. rewrite Hmunkres. discriminate.
Qed.

Lemma py_int_returns x : py_int x <> Diverge.
Proof. unfold py_int. destruct (Prim2SF x); discriminate. Qed.

Lemma row_arcs_returns f r j row : row_arcs f r j row <> Diverge.
Proof.
  revert j. induction row as [|x row IH]; intros j; cbn [row_arcs]; [discriminate|].
  destruct (PrimFloat.is_finite x); [|apply IH].
  pose proof (py_int_returns (PrimFloat.mul x (float_of_Z f))) as Hk.
  destruct (py_int _); cbn [obind]; try congruence.
  specialize (IH (S j)). destruct (row_arcs f r (S j) row); cbn [obind]; congruence.
Qed.

Lemma matrix_arcs_returns f r c : matrix_arcs f r c <> Diverge.
Proof.
  revert r. induction c as [|row c IH]; intros r; cbn [matrix_arcs]; [discriminate|].
  pose proof (row_arcs_returns f r 0 row) as Hrow.
  destruct (row_arcs f r 0 row); cbn [obind]; try congruence.
  specialize (IH (S r)). destruct (matrix_arcs f (S r) c); cbn [obind]; congruence.
Qed.

Lemma scaled_arcs_returns tp c : scaled_arcs tp c <> Diverge.
Proof.
  unfold scaled_arcs. cbv zeta.
  set (unique := np_unique _).
  assert (Hmin : (if length unique =? 1 then Ok (hd 1%float unique)
                  else if 1 <? length unique then np_min (np_diff unique)
                  else Ok 1%float) <> Diverge).
  { destruct (length unique =? 1); [discriminate|].
    destruct (1 <? length unique); [|discriminate].
    unfold np_min. destruct (np_diff unique); discriminate. }
  destruct (if length unique =? 1 then _ else _) as [min_diff| |]; cbn [obind];
    try congruence.
  destruct (negb (PrimFloat.eqb min_diff 0)).
  - pose proof (py_int_returns (np_log10 tp (PrimFloat.abs min_diff))) as He.
    destruct (py_int _); cbn [obind]; try congruence. apply matrix_arcs_returns.
  - cbn [obind]. apply matrix_arcs_returns.
Qed.

Lemma dispatch_returns tp g costs solver w :
  backends_return tp ->
  solver_key g solver <> "ortools" ->
  fst (linear_sum_assignment tp g 1 costs solver w) <> Diverge.
Proof.
  intros Hb Hkey. apply String.eqb_neq in Hkey.
  rewrite linear_sum_assignment_S. cbv zeta.
  destruct (String.eqb (solver_key g solver) "lapsolver");
    [apply lsa_solve_lapsolver_returns; exact Hb|].
  destruct (String.eqb (solver_key g solver) "scipy");
    [apply lsa_solve_scipy_returns; exact Hb|].
  destruct (String.eqb (solver_key g solver) "munkres");
    [apply lsa_solve_munkres_returns; exact Hb|].
  rewrite Hkey. discriminate.
Qed.

Lemma linear_sum_assignment_returns tp g costs solver w :
  lower (default_solver g) <> "ortools" ->
  backends_return tp ->
  fst (linear_sum_assignment tp g 2 costs solver w) <> Diverge.
Proof.
  intros Hdefault Hb.
  rewrite linear_sum_assignment_S. cbv zeta.
  destruct (String.eqb (solver_key g solver) "lapsolver");
    [apply lsa_solve_lapsolver_returns; exact Hb|].
  destruct (String.eqb (solver_key g solver) "scipy");
    [apply lsa_solve_scipy_returns; exact Hb|].
  destruct (String.eqb (solver_key g solver) "munkres");
    [apply lsa_solve_munkres_returns; exact Hb|].
  destruct (String.eqb (solver_key g solver) "ortools"); [|discriminate].
  destruct (pywrapgraph tp) as [pw|] eqn:Hp.
  - destruct (float_array_cases w costs) as [[c Hc]|Hc].
    + destruct (scaled_arcs tp c) as [arcs| |] eqn:Harcs.
      * rewrite (lsa_solve_ortools_run tp g _ pw w costs c arcs Hp Hc Harcs). cbv zeta.
        destruct (Solve (pw arcs)); [discriminate| |];
          (destruct (String.eqb (default_solver g) "ortools"); [discriminate|];
           apply dispatch_returns; [exact Hb|exact Hdefault]).
      * unfold lsa_solve_ortools. rewrite Hp, bind_import.
        rewrite (bind_float_array _ _ _ _ Hc), Harcs. discriminate.
      * destruct (scaled_arcs_returns tp c Harcs).
    + unfold lsa_solve_ortools. rewrite Hp, bind_import.
      apply float_array_fails_returns. exact Hc.
  - unfold lsa_solve_ortools. rewrite Hp. discriminate.
Qed.

(** X12: [linear_sum_assignment] terminates. When the default solver is
    not a spelling of ortools and the installed scipy, lapsolver and munkres
    return or raise on every input, a call returns or raises within two
    nested calls, whatever the solver, the array and the state; a larger
    budget gives the same result. *)
Theorem fallback_recursion_is_bounded tp g fuel costs solver w :
  lower (default_solver g) <> "ortools" ->
  backends_return tp ->
  fst (linear_sum_assignment tp g 2 costs solver w) <> Diverge /\
  linear_sum_assignment tp g (S (S fuel)) costs solver w
  = linear_sum_assignment tp g 2 costs solver w.
Proof.
  intros Hdefault Hb. split.
  - apply linear_sum_assignment_returns; assumption.
  - apply linear_sum_assignment_fuel. exact Hdefault.
Qed.

Lemma examples_backends_return : backends_return examples.installed.
Proof.
  repeat split; intros s c H; inversion H; subst. discriminate.
Qed.

(** X12, witness: the fallback from a failing ortools to scipy. *)
Lemma fallback_recursion_is_bounded_witness :
  fst (linear_sum_assignment examples.installed examples.globals 2 0 (Some "ortools")
         (examples.one_array [[0%float; 0%float]])) <> Diverge /\
  linear_sum_assignment examples.installed examples.globals 7 0 (Some "ortools")
    (examples.one_array [[0%float; 0%float]])
  = linear_sum_assignment examples.installed examples.globals 2 0 (Some "ortools")
      (examples.one_array [[0%float; 0%float]]).
Proof.
  refine (fallback_recursion_is_bounded examples.installed examples.globals 5 0
            (Some "ortools") (examples.one_array [[0%float; 0%float]]) _
            examples_backends_return).
  vm_compute. discriminate.
Defined.

(** X13: the guard [assert default_solver != 'ortools'] compares the name
    as it is, while the dispatch lower-cases it. With a default solver that
    spells ortools in another case (["ORTOOLS"]), a failing ortools falls
    back to itself: at no recursion depth has the call returned or raised. *)
Theorem case_variant_default_recurses_without_bound tp g pw c costs solver :
  pywrapgraph tp = Some pw ->
  (forall arcs, Solve (pw arcs) <> OPTIMAL) ->
  default_solver g <> "ortools" ->
  lower (default_solver g) = "ortools" ->
  solver_key g solver = "ortools" ->
  forall fuel w arcs,
    heap w !! costs = Some (FloatArr c) ->
    scaled_arcs tp c = Ok arcs ->
    fst (linear_sum_assignment tp g fuel costs solver w) = Diverge.
Proof.
  intros Hp Hsolve Hdefault Hlower Hkey fuel. revert solver Hkey.
  induction fuel as [|fuel IH]; intros solver Hkey w arcs Hc Harcs; [reflexivity|].
  rewrite linear_sum_assignment_S. cbv zeta. rewrite Hkey.
  change (String.eqb "ortools" "lapsolver") with false.
  change (String.eqb "ortools" "scipy") with false.
  change (String.eqb "ortools" "munkres") with false.
  change (String.eqb "ortools" "ortools") with true. cbv iota.
  rewrite (lsa_solve_ortools_run tp g _ pw w costs c arcs Hp Hc Harcs). cbv zeta.
  apply String.eqb_neq in Hdefault. rewrite Hdefault.
  specialize (Hsolve arcs).
  destruct (Solve (pw arcs)); [contradiction| |];
    (apply (IH (Some (default_solver g)) Hlower _ arcs); [exact Hc|exact Harcs]).
Qed.

(** X13, witness: the default solver ["ORTOOLS"] with an ortools that
    reports [INFEASIBLE], at a recursion depth of 1000. *)
Lemma case_variant_default_recurses_without_bound_witness :
  fst (linear_sum_assignment examples.installed
         {| available_solvers := ["ortools"]; default_solver := "ORTOOLS" |} 1000 0 None
         (examples.one_array [[0%float; 0%float]])) = Diverge.
Proof.
  refine (case_variant_default_recurses_without_bound examples.installed
            {| available_solvers := ["ortools"]; default_solver := "ORTOOLS" |}
            examples.failing_ortools [[0%float; 0%float]] 0 None eq_refl _ _ eq_refl eq_refl
            1000 (examples.one_array [[0%float; 0%float]]) [Arc 0 0 0; Arc 0 1 0] eq_refl _).
  - intros arcs. simpl. discriminate.
  - simpl. discriminate.
  - vm_compute. reflexivity.
Defined.

End lap_more.

(** * Further properties of the metrics engine *)

Module metrics_more.

Import metrics metrics_spec.

(** ** Registration *)

Lemma dict_get_set_eq {V} k (v : V) d : dict_get k (dict_set k v d) = Some v.
Proof.
  induction d as [|[k' v'] d IH]; simpl.
  - rewrite String.eqb_refl. reflexivity.
  - destruct (String.eqb k k') eqn:Hk; simpl; rewrite ?String.eqb_refl, ?Hk; auto.
Qed.

Lemma dict_get_set_ne {V} k k0 (v : V) d :
  k0 <> k -> dict_get k0 (dict_set k v d) = dict_get k0 d.
Proof.
  intros Hne. induction d as [|[k' v'] d IH]; simpl.
  - apply String.eqb_neq in Hne. rewrite Hne. reflexivity.
  - destruct (String.eqb k k') eqn:Hk; simpl.
    + apply String.eqb_eq in Hk. subst k'.
      apply String.eqb_neq in Hne. rewrite Hne. reflexivity.
    + rewrite IH. reflexivity.
Qed.

Lemma dict_set_keys {V} k (v : V) d :
  map fst (dict_set k v d)
  = if bool_decide (k ∈ map fst d) then map fst d else map fst d ++ [k].
Proof.
  induction d as [|[k' v'] d IH]; simpl; [reflexivity|].
  destruct (String.eqb k k') eqn:Hk; simpl.
  - apply String.eqb_eq in Hk. subst k'.
    rewrite bool_decide_eq_true_2 by (left). reflexivity.
  - apply String.eqb_neq in Hk. rewrite IH.
    destruct (bool_decide (k ∈ map fst d)) eqn:Hin.
    + apply bool_decide_eq_true in Hin.
      rewrite bool_decide_eq_true_2 by (right; exact Hin). reflexivity.
    + apply bool_decide_eq_false in Hin.
      rewrite bool_decide_eq_false_2; [reflexivity|].
      intros Hin'. apply elem_of_cons in Hin' as [?|?]; [congruence|contradiction].
Qed.

Lemma dict_set_entries {V} (P : string * V -> Prop) k v d :
  P (k, v) -> Forall P d -> Forall P (dict_set k v d).
Proof.
  intros Hkv. induction 1 as [|[k' v'] d Hhd Htl IH]; simpl.
  - repeat constructor. exact Hkv.
  - destruct (String.eqb k k'); constructor; auto.
Qed.

(** The name and the dependencies [register] settles on. *)
Definition registered_name (f : function) (nm : option string) : string :=
  match nm with Some n => n | None => __name__ f end.

(** X14: [register] stores the metric under its name (the given one, or
    the function's): looking that name up gives the function and its
    dependencies ([deps='auto']: the parameters after the first), every
    other name is looked up as before, and the order of the keys is the
    order of first registration. Without a function it raises
    [AssertionError]. *)
Theorem register_stores_metric self f d nm :
  (exists e, register self None d nm = Raise (AssertionError e)) /\
  exists m',
    register self (Some f) d nm = Ok m' /\
    dict_get (registered_name f nm) (metrics m')
    = Some {| name := registered_name f nm; fnc := f;
              deps := match d with
                      | DepsNone => []
                      | DepsAuto => tail (args f)
                      | DepsList l => l
                      end |} /\
    (forall k, k <> registered_name f nm ->
               dict_get k (metrics m') = dict_get k (metrics self)) /\
    map fst (metrics m')
    = if bool_decide (registered_name f nm ∈ map fst (metrics self))
      then map fst (metrics self)
      else map fst (metrics self) ++ [registered_name f nm].
Proof.
  split; [eexists; reflexivity|].
  eexists. split; [reflexivity|]. cbn [metrics].
  fold (registered_name f nm). split; [apply dict_get_set_eq|]. split.
  - intros k Hk. apply dict_get_set_ne. exact Hk.
  - apply dict_set_keys.
Qed.

(** A registry whose keys are distinct and are the names of the entries. *)
Definition well_formed (self : MetricsContainer) : Prop :=
  NoDup (map fst (metrics self)) /\
  Forall (fun kv => name (snd kv) = fst kv) (metrics self).

(** X15: every registry built from [MetricsContainer()] by [register]
    calls is well formed, and [names] of a well-formed registry lists its
    keys, each once, in registration order. *)
Theorem names_are_the_registered_keys :
  well_formed __init__ /\
  (forall self f d nm m',
     well_formed self -> register self f d nm = Ok m' -> well_formed m') /\
  (forall self,
     well_formed self -> names self = map fst (metrics self) /\ NoDup (names self)).
Proof.
  split; [|split].
  - split; [apply NoDup_nil_2|constructor].
  - intros self [f|] d nm m' [Hnd Hnames] Hreg; [|discriminate].
    inversion Hreg; subst; clear Hreg. split; cbn [metrics].
    + rewrite dict_set_keys. destruct (bool_decide _) eqn:Hin; [exact Hnd|].
      apply bool_decide_eq_false in Hin. apply NoDup_app. split; [exact Hnd|].
      split; [|apply NoDup_singleton].
      intros x Hx Hx'. apply list_elem_of_singleton in Hx'. subst x. contradiction.
    + apply dict_set_entries; [reflexivity|exact Hnames].
  - intros self [Hnd Hnames].
    assert (Heq : names self = map fst (metrics self)).
    { unfold names. induction Hnames as [|kv l Hkv _ IH]; simpl; [reflexivity|].
      rewrite Hkv. f_equal. apply IH. inversion Hnd; assumption. }
    split; [exact Heq|]. rewrite Heq. exact Hnd.
Qed.

(** ** Evaluation *)

Lemma deps_loop_cached compute deps vals0 vals st :
  Forall2 (fun d v => cache st !! d = Some v) deps vals ->
  deps_loop compute deps vals0 st = (Ok (vals0 ++ vals), st).
Proof.
  intros H. revert vals0. induction H as [|d v deps vals Hd _ IH]; intros vals0.
  - simpl. rewrite app_nil_r. reflexivity.
  - cbn [deps_loop]. unfold bind at 1. unfold in_cache at 1. rewrite Hd.
    rewrite bool_decide_eq_true_2 by (eexists; reflexivity). cbn [negb].
    unfold bind at 1. unfold ret at 1. unfold bind at 1. unfold cache_get at 1.
    rewrite Hd. rewrite IH, <- app_assoc. reflexivity.
Qed.

(** X16: when the dependencies of a metric are all in the cache,
    [_compute] executes the metric's function alone, once, on the cached
    values in the order of the dependency list; no dependency is computed
    again and the cache is left as it is. *)
Theorem cached_dependencies_are_not_recomputed self fuel df n parent mi vals st :
  dict_get n (metrics self) = Some mi ->
  Forall2 (fun d v => cache st !! d = Some v) (deps mi) vals ->
  _compute self (S fuel) df n parent st
  = (py_call (fnc mi) df vals,
     {| cache := cache st; executed := executed st ++ [name mi] |}).
Proof.
  intros Hget Hdeps. cbn [_compute]. rewrite Hget.
  unfold bind. rewrite (deps_loop_cached _ _ [] vals st Hdeps). reflexivity.
Qed.

(** X16, witness: [num_unique_objects] in the default registry, with
    [obj_frequencies] cached. *)
Lemma cached_dependencies_are_not_recomputed_witness :
  _compute (registry examples.left_to_right) 1 examples.log "num_unique_objects" "summarize"
    {| cache := {[ "obj_frequencies" := VCounts [("a", 2); ("b", 1)] ]}; executed := [] |}
  = (py_call num_unique_objects examples.log [VCounts [("a", 2); ("b", 1)]],
     {| cache := {[ "obj_frequencies" := VCounts [("a", 2); ("b", 1)] ]};
        executed := [] ++ ["num_unique_objects"] |}).
Proof.
  refine (cached_dependencies_are_not_recomputed (registry examples.left_to_right) 0
            examples.log
            "num_unique_objects" "summarize"
            {| name := "num_unique_objects"; fnc := num_unique_objects;
               deps := ["obj_frequencies"] |}
            [VCounts [("a", 2); ("b", 1)]]
            {| cache := {[ "obj_frequencies" := VCounts [("a", 2); ("b", 1)] ]};
               executed := [] |} eq_refl _).
  repeat constructor.
Defined.

(** X17: [register] does not check the dependency names. A dependency
    that is not registered is found out when the metric is evaluated:
    [_compute] raises [AssertionError] naming the missing metric and the
    metric that requires it, before any further function is executed. *)
Theorem missing_dependency_is_reported self fuel df n parent mi pre d post st :
  dict_get n (metrics self) = Some mi ->
  deps mi = pre ++ d :: post ->
  Forall (fun k => is_Some (cache st !! k)) pre ->
  cache st !! d = None ->
  dict_get d (metrics self) = None ->
  _compute self (S (S fuel)) df n parent st
  = (Raise (AssertionError ("Cannot find metric " ++ d ++ " required by " ++ n ++ ".")), st).
Proof.
  intros Hget Hdeps Hpre Hd Hmissing.
  cbn [_compute]. rewrite Hget, Hdeps.
  unfold bind at 1.
  destruct (deps_loop_cached_prefix
              (fun depname =>
                 match dict_get depname (metrics self) with
                 | Some minfo =>
                     vals <- deps_loop (fun depname0 => _compute self fuel df depname0 depname)
                                       (deps minfo) [] ;;
                     execute minfo df vals
                 | None =>
                     raise (AssertionError ("Cannot find metric " ++ depname
                                            ++ " required by " ++ n ++ "."))
                 end) pre (d :: post) [] st Hpre) as [vals' Hloop].
  rewrite Hloop. cbn [deps_loop]. unfold bind at 1. unfold in_cache at 1. rewrite Hd.
  rewrite bool_decide_eq_false_2 by (intros [? ?]; discriminate). cbn [negb].
  unfold bind at 1. unfold bind at 1. rewrite Hmissing. reflexivity.
Qed.

(** A registry that holds [num_unique_objects] without the metric it
    depends on. *)
Definition incomplete : MetricsContainer :=
  {| metrics := [("num_unique_objects",
                  {| name := "num_unique_objects"; fnc := num_unique_objects;
                     deps := ["obj_frequencies"] |})] |}.

(** X17, witness: [num_unique_objects] asked of that registry. *)
Lemma missing_dependency_is_reported_witness :
  register __init__ (Some num_unique_objects) DepsAuto None = Ok incomplete /\
  _compute incomplete 2 examples.log "num_unique_objects" "summarize"
    {| cache := ∅; executed := [] |}
  = (Raise (AssertionError
              "Cannot find metric obj_frequencies required by num_unique_objects."),
     {| cache := ∅; executed := [] |}).
Proof.
  split; [reflexivity|].
  refine (missing_dependency_is_reported incomplete 0 examples.log "num_unique_objects"
            "summarize" {| name := "num_unique_objects"; fnc := num_unique_objects;
                           deps := ["obj_frequencies"] |}
            [] "obj_frequencies" [] {| cache := ∅; executed := [] |}
            eq_refl eq_refl _ eq_refl eq_refl).
  constructor.
Defined.

(** [st'] continues [st]: what was cached is still cached, with the same
    value, and the record of executions has only grown. *)
Definition continues (st st' : evaluation) : Prop :=
  cache st ⊆ cache st' /\ exists l, executed st' = executed st ++ l.

Lemma continues_refl st : continues st st.
Proof. split; [reflexivity|]. exists []. rewrite app_nil_r. reflexivity. Qed.

Lemma continues_trans st1 st2 st3 : continues st1 st2 -> continues st2 st3 -> continues st1 st3.
Proof.
  intros [Hc1 [l1 He1]] [Hc2 [l2 He2]]. split; [etransitivity; eassumption|].
  exists (l1 ++ l2). rewrite He2, He1, app_assoc. reflexivity.
Qed.

Lemma deps_loop_continues (compute : string -> E value) :
  (forall d st, continues st (snd (compute d st))) ->
  forall deps vals st, continues st (snd (deps_loop compute deps vals st)).
Proof.
  intros Hcompute deps. induction deps as [|d deps IH]; intros vals st.
  - apply continues_refl.
  - cbn [deps_loop]. unfold bind at 1. unfold in_cache at 1. cbn beta iota.
    destruct (cache st !! d) as [v|] eqn:Hd.
    + rewrite bool_decide_eq_true_2 by (eexists; reflexivity). cbn [negb].
      unfold bind at 1. unfold ret at 1. unfold bind at 1. unfold cache_get at 1.
      rewrite Hd. apply IH.
    + rewrite bool_decide_eq_false_2 by (intros [? ?]; discriminate). cbn [negb].
      unfold bind at 1. unfold bind at 1.
      specialize (Hcompute d st).
      destruct (compute d st) as [[v| |] st1]; cbn [snd] in *; try exact Hcompute.
      unfold cache_set at 1. unfold bind at 1. unfold cache_get at 1. cbn [cache].
      rewrite lookup_insert_eq.
      eapply continues_trans; [|apply IH].
      destruct Hcompute as [Hc [l He]]. split; cbn [cache executed].
      * apply insert_subseteq_r; [exact Hd|exact Hc].
      * exists l. exact He.
Qed.

Lemma compute_continues self fuel df :
  forall n parent st, continues st (snd (_compute self fuel df n parent st)).
Proof.
  induction fuel as [|fuel IH]; intros n parent st; [apply continues_refl|].
  cbn [_compute]. destruct (dict_get n (metrics self)) as [mi|]; [|apply continues_refl].
  unfold bind.
  pose proof (deps_loop_continues (fun depname => _compute self fuel df depname n)
                (fun d st0 => IH d n st0) (deps mi) [] st) as Hloop.
  destruct (deps_loop _ (deps mi) [] st) as [[vals| |] st1]; cbn [snd] in *;
    try exact Hloop.
  eapply continues_trans; [exact Hloop|].
  split; [reflexivity|]. exists [name mi]. reflexivity.
Qed.

(** X18: [_compute] only adds to the cache. Whatever the registry, the
    budget and the outcome, every value that was cached before the call is
    cached unchanged after it, and the executions recorded before are a
    prefix of those recorded after. *)
Theorem compute_keeps_cached_values self fuel df n parent st k v :
  let st' := snd (_compute self fuel df n parent st) in
  (cache st !! k = Some v -> cache st' !! k = Some v) /\
  exists l, executed st' = executed st ++ l.
Proof.
  cbv zeta. destruct (compute_continues self fuel df n parent st) as [Hc Hl].
  split; [|exact Hl]. intros Hk. eapply lookup_weaken; eassumption.
Qed.

(** ** Termination on registries without cycles *)

(** [rank] decreases along every dependency of the registry. *)
Definition ranked (self : MetricsContainer) (rank : string -> nat) : Prop :=
  Forall (fun kv => Forall (fun d => rank d < rank (fst kv)) (deps (snd kv))) (metrics self).

(** The registered functions return or raise on [df]. *)
Definition functions_return (self : MetricsContainer) (df : DataFrame) : Prop :=
  Forall (fun kv => forall vals, py_call (fnc (snd kv)) df vals <> Diverge) (metrics self).

Lemma dict_get_In {V} k (v : V) d : dict_get k d = Some v -> In (k, v) d.
Proof.
  induction d as [|[k' v'] d IH]; simpl; [discriminate|].
  destruct (String.eqb_spec k k') as [->|Hne].
  - intros H. inversion H. left. reflexivity.
  - intros H. right. apply IH, H.
Qed.

Lemma deps_loop_returns (compute : string -> E value) deps :
  (forall d st, In d deps -> fst (compute d st) <> Diverge) ->
  forall vals st, fst (deps_loop compute deps vals st) <> Diverge.
Proof.
  induction deps as [|d deps IH]; intros Hcompute vals st; [discriminate|].
  cbn [deps_loop]. unfold bind at 1. unfold in_cache at 1. cbn beta iota.
  destruct (cache st !! d) as [v|] eqn:Hd.
  - rewrite bool_decide_eq_true_2 by (eexists; reflexivity). cbn [negb].
    unfold bind at 1. unfold ret at 1. unfold bind at 1. unfold cache_get at 1.
    rewrite Hd. apply IH. intros d' st' Hd'. apply Hcompute. right. exact Hd'.
  - rewrite bool_decide_eq_false_2 by (intros [? ?]; discriminate). cbn [negb].
    unfold bind at 1. unfold bind at 1.
    pose proof (Hcompute d st (or_introl eq_refl)) as Hd1.
    destruct (compute d st) as [[v| |] st1]; cbn [fst] in *; try congruence.
    unfold cache_set at 1. unfold bind at 1. unfold cache_get at 1. cbn [cache].
    rewrite lookup_insert_eq.
    apply IH. intros d' st' Hd'. apply Hcompute. right. exact Hd'.
Qed.

Lemma compute_returns self rank df :
  ranked self rank -> functions_return self df ->
  forall fuel n parent st,
    rank n < fuel -> fst (_compute self fuel df n parent st) <> Diverge.
Proof.
  intros Hrank Hfun. induction fuel as [|fuel IH]; intros n parent st Hn; [lia|].
  cbn [_compute]. destruct (dict_get n (metrics self)) as [mi|] eqn:Hget; [|discriminate].
  apply dict_get_In in Hget.
  pose proof (proj1 (List.Forall_forall _ _) Hrank _ Hget) as Hdeps.
  pose proof (proj1 (List.Forall_forall _ _) Hfun _ Hget) as Hcall.
  cbn [fst snd] in Hdeps, Hcall.
  unfold bind.
  pose proof (deps_loop_returns (fun depname => _compute self fuel df depname n) (deps mi))
    as Hloop.
  specialize (Hloop (fun d st0 Hd =>
                       IH d n st0 ltac:(pose proof (proj1 (List.Forall_forall _ _) Hdeps d Hd);
                                        cbv beta in *; lia)) [] st).
  destruct (deps_loop _ (deps mi) [] st) as [[vals| |] st1]; cbn [fst] in *;
    try congruence.
  unfold execute. cbn [fst]. apply Hcall.
Qed.

Lemma summarize_loop_returns self fuel df metrics :
  (forall n st, In n metrics -> fst (_compute self fuel df n "summarize" st) <> Diverge) ->
  forall st, fst (summarize_loop self fuel df metrics st) <> Diverge.
Proof.
  induction metrics as [|n metrics IH]; intros Hcompute st; [discriminate|].
  cbn [summarize_loop]. unfold bind at 1.
  pose proof (Hcompute n st (or_introl eq_refl)) as Hn.
  destruct (_compute self fuel df n "summarize" st) as [[v| |] st1]; cbn [fst] in *;
    try congruence.
  unfold bind at 1. unfold cache_set at 1.
  apply IH. intros n' st' Hn'. apply Hcompute. right. exact Hn'.
Qed.

Lemma collect_returns metrics st : fst (collect metrics st) <> Diverge.
Proof.
  induction metrics as [|k metrics IH]; [discriminate|].
  cbn [collect]. unfold bind at 1. unfold cache_get at 1.
  destruct (cache st !! k) as [v|]; [|discriminate].
  unfold bind at 1.
  destruct (collect metrics st) as [[rest| |] st1]; cbn [fst] in *;
    try congruence; discriminate.
Qed.

(** X19: evaluation terminates on a registry without dependency cycles.
    When some rank decreases along every registered dependency and the
    registered functions return or raise, [summarize] returns or raises as
    soon as the recursion budget exceeds the ranks of the requested
    metrics, whatever is requested. *)
Theorem acyclic_registry_terminates self rank df metrics fuel :
  ranked self rank ->
  functions_return self df ->
  (forall n, In n metrics -> rank n < fuel) ->
  (exists result, fst (MetricsContainer_summarize self fuel df (Some metrics)) = Ok result) \/
  (exists e, fst (MetricsContainer_summarize self fuel df (Some metrics)) = Raise e).
Proof.
  intros Hrank Hfun Hfuel.
  enough (H : fst (MetricsContainer_summarize self fuel df (Some metrics)) <> Diverge).
  { destruct (fst (MetricsContainer_summarize self fuel df (Some metrics)));
      [left; eauto|right; eauto|congruence]. }
  unfold MetricsContainer_summarize. unfold bind at 1.
  pose proof (summarize_loop_returns self fuel df metrics
                (fun n st Hn => compute_returns self rank df Hrank Hfun fuel n "summarize" st
                                  (Hfuel n Hn))
                {| cache := ∅; executed := [] |}) as Hloop.
  destruct (summarize_loop self fuel df metrics _) as [[[]| |] st1]; cbn [fst] in *;
    try congruence.
  unfold bind at 1.
  pose proof (collect_returns metrics st1) as Hcollect.
  destruct (collect metrics st1) as [[pairs| |] st2]; cbn [fst] in *;
    try congruence; discriminate.
Qed.

(** The default registry has no cycle: its metrics are ranked by the
    number of dependency levels below them. *)
Definition default_rank (k : string) : nat :=
  if existsb (String.eqb k) ["mostly_tracked"; "partially_tracked"; "mostly_lost"] then 2
  else if existsb (String.eqb k)
            ["num_unique_objects"; "track_ratios"; "num_fragmentation"; "motp"; "mota";
             "precision"; "recall"] then 1
  else 0.

Lemma registry_ranked Series_sum : ranked (registry Series_sum) default_rank.
Proof. unfold ranked. cbn. repeat constructor. Qed.

Lemma obind_returns {A B} (m : outcome A) (k : A -> outcome B) :
  m <> Diverge -> (forall a, k a <> Diverge) -> obind m k <> Diverge.
Proof. destruct m; simpl; auto. Qed.

Lemma py_add_returns a b : py_add a b <> Diverge.
Proof. destruct a, b; discriminate. Qed.

Lemma py_sub_returns a b : py_sub a b <> Diverge.
Proof. destruct a, b; discriminate. Qed.

Lemma py_div_returns a b : py_div a b <> Diverge.
Proof. destruct a, b; simpl; try discriminate; destruct (PrimFloat.eqb _ _); discriminate. Qed.

Lemma py_len_returns v : py_len v <> Diverge.
Proof. destruct v; discriminate. Qed.

Lemma py_compare_returns op v x : py_compare op v x <> Diverge.
Proof. destruct v; discriminate. Qed.

Lemma py_getitem_mask_returns v mask : py_getitem_mask v mask <> Diverge.
Proof. destruct v; discriminate. Qed.

Lemma py_count_returns v : py_count v <> Diverge.
Proof. destruct v; discriminate. Qed.

Lemma py_oid_value_counts_returns v : py_oid_value_counts v <> Diverge.
Proof. destruct v; discriminate. Qed.

Lemma py_div_fillna_returns a b : py_div_fillna a b <> Diverge.
Proof. destruct a, b; discriminate. Qed.

Lemma py_index_returns v : py_index v <> Diverge.
Proof. destruct v; discriminate. Qed.

Lemma load_global_returns n : load_global n <> Diverge.
Proof. unfold load_global. destruct (existsb _ _); discriminate. Qed.

Lemma fragmentation_loop_returns df index : forall fra,
  fragmentation_loop df index fra <> Diverge.
Proof.
  induction index as [|o index IH]; intros fra; [discriminate|].
  cbn [fragmentation_loop]. apply obind_returns; [|intros n; apply IH].
  unfold fragments_of, loc_slice. cbv zeta.
  destruct (not_missed _); [discriminate|].
  destruct (lexsort_depth _) as [|[|depth]]; discriminate.
Qed.

Lemma fragmentation_returns df index : fragmentation df index <> Diverge.
Proof. apply fragmentation_loop_returns. Qed.

Create HintDb returns.

#[local] Hint Resolve py_add_returns py_sub_returns py_div_returns py_len_returns
  py_compare_returns py_getitem_mask_returns py_count_returns py_oid_value_counts_returns
  py_div_fillna_returns py_index_returns load_global_returns fragmentation_returns
  : returns.

Ltac function_returns :=
  let vals := fresh "vals" in
  intros vals; unfold py_call; cbn [snd fnc args body length __name__];
  destruct (_ =? _); [|discriminate];
  destruct vals as [|? [|? [|? [|? [|? ?]]]]]; try discriminate;
  repeat (apply obind_returns; [|intros]); auto with returns; try discriminate.

Lemma registry_functions_return Series_sum df : functions_return (registry Series_sum) df.
Proof.
  unfold functions_return, registry, default_metrics, register, __init__.
  cbn [obind metrics dict_set String.eqb Ascii.eqb Bool.eqb __name__ args tail
       num_frames obj_frequencies num_matches num_switches num_falsepositives num_misses
       num_detections num_objects num_unique_objects track_ratios mostly_tracked
       partially_tracked mostly_lost num_fragmentation motp mota precision recall].
  repeat apply List.Forall_cons; [..|apply List.Forall_nil].
  all: function_returns.
  all: cbv [body num_detections motp recall]; auto with returns.
Qed.

(** X19, witness: the default registry, which needs a budget of three
    nested calls, on the example log. *)
Lemma acyclic_registry_terminates_witness :
  (exists result,
     fst (MetricsContainer_summarize (registry examples.left_to_right) 3 examples.log
            (Some ["num_frames"; "mostly_tracked"; "mota"])) = Ok result) \/
  (exists e,
     fst (MetricsContainer_summarize (registry examples.left_to_right) 3 examples.log
            (Some ["num_frames"; "mostly_tracked"; "mota"])) = Raise e).
Proof.
  refine (acyclic_registry_terminates (registry examples.left_to_right) default_rank
            examples.log ["num_frames"; "mostly_tracked"; "mota"] 3
            (registry_ranked examples.left_to_right)
            (registry_functions_return examples.left_to_right examples.log) _).
  intros n [<-|[<-|[<-|[]]]]; vm_compute; lia.
Defined.

(** ** Exact counts

    [float(n)] is exact for a count below [2^53], and [int] gives the
    count back. *)

Lemma binary_round_aux_exact m e :
  Zpos (SpecFloat.digits2_pos m) = 53%Z -> (-1074 <= e <= 971)%Z ->
  SpecFloat.binary_round_aux prec emax false (Zpos m) e SpecFloat.loc_Exact
  = S754_finite false m e.
Proof.
  intros Hd He.
  assert (Hf : (SpecFloat.fexp prec emax (SpecFloat.Zdigits2 (Zpos m) + e) - e = 0)%Z).
  { unfold SpecFloat.fexp, SpecFloat.emin, SpecFloat.Zdigits2, prec, emax. lia. }
  unfold SpecFloat.binary_round_aux, SpecFloat.shr_fexp. rewrite Hf.
  cbn [SpecFloat.shr SpecFloat.shr_record_of_loc SpecFloat.shr_m
       SpecFloat.loc_of_shr_record SpecFloat.round_nearest_even
       SpecFloat.shr_r SpecFloat.shr_s].
  rewrite Hf.
  cbn [SpecFloat.shr SpecFloat.shr_record_of_loc SpecFloat.shr_m].
  assert (Hle : (e <=? emax - prec)%Z = true).
  { apply Z.leb_le. unfold emax, prec. lia. }
  rewrite Hle. reflexivity.
Qed.

Lemma iter_xO_pow p k : Zpos (Pos.iter xO p k) = (Zpos p * 2 ^ Zpos k)%Z.
Proof.
  induction k as [|k IH] using Pos.peano_ind.
  - simpl. lia.
  - rewrite Pos.iter_succ, Pos2Z.inj_succ, Z.pow_succ_r by lia.
    rewrite Pos2Z.inj_xO, IH. lia.
Qed.

Lemma binary_normalize_small p :
  (Zpos p < 2 ^ 53)%Z ->
  exists m e,
    SpecFloat.binary_normalize prec emax (Zpos p) 0 false = S754_finite false m e /\
    (e <= 0)%Z /\ Zpos m = (Zpos p * 2 ^ (- e))%Z.
Proof.
  intros Hlt.
  pose proof (float_facts.digits2_pos_bound p 53 ltac:(lia) Hlt) as Hd.
  assert (Hd1 : (1 <= Zpos (SpecFloat.digits2_pos p))%Z) by lia.
  unfold SpecFloat.binary_normalize, SpecFloat.binary_round, SpecFloat.shl_align.
  set (ex' := SpecFloat.fexp prec emax (Z.pos (SpecFloat.digits2_pos p) + 0)).
  assert (Hex' : ex' = (Zpos (SpecFloat.digits2_pos p) - 53)%Z).
  { unfold ex', SpecFloat.fexp, SpecFloat.emin, prec, emax. lia. }
  destruct (ex' - 0)%Z as [|k|k] eqn:Hk; [|lia|].
  - exists p, 0%Z. split; [|split; [lia|simpl; lia]].
    apply binary_round_aux_exact; lia.
  - exists (Pos.iter xO p k), ex'. split; [|split; [lia|]].
    + apply binary_round_aux_exact; [|lia].
      rewrite float_facts.digits2_pos_iter_xO. lia.
    + rewrite iter_xO_pow. f_equal. f_equal. lia.
Qed.

Lemma py_int_float_of_nat_exact n :
  (Z.of_nat n < 2 ^ 53)%Z -> py_int (float_of_nat n) = Ok (Z.of_nat n).
Proof.
  intros Hn. unfold py_int, float_of_nat. rewrite of_uint63_spec, Uint63.of_Z_spec.
  assert (Hw : (2 ^ 53 < wB)%Z) by reflexivity.
  rewrite Z.mod_small by lia.
  destruct (Z.of_nat n) as [|p|p] eqn:Hz; [reflexivity| |lia].
  destruct (binary_normalize_small p Hn) as (m & e & Hnorm & He & Hm).
  rewrite Hnorm. f_equal. destruct e as [|k|k]; [|lia|].
  - rewrite Z.shiftl_0_r. simpl in Hm. lia.
  - rewrite Z.shiftr_div_pow2 by lia. rewrite Hm.
    change (- Z.neg k)%Z with (Zpos k). apply Z.div_mul. lia.
Qed.

Lemma length_filter_le {A} (f : A -> bool) l : length (List.filter f l) <= length l.
Proof. induction l as [|x l IH]; simpl; [lia|]. destruct (f x); simpl; lia. Qed.

Lemma distinct_length l : length (distinct l) <= length l.
Proof.
  induction l as [|x l IH]; simpl; [lia|].
  pose proof (length_filter_le (fun y => negb (Z.eqb x y)) (distinct l)). lia.
Qed.

Lemma distinct_In l x : In x (distinct l) <-> In x l.
Proof.
  induction l as [|y l IH]; simpl; [tauto|].
  rewrite filter_In, IH. split.
  - intros [H|[H _]]; auto.
  - intros [H|H]; [auto|]. destruct (Z.eqb_spec y x) as [Heq|Hne]; [auto|].
    right. split; [exact H|reflexivity].
Qed.

Lemma distinct_NoDup l : List.NoDup (distinct l).
Proof.
  induction l as [|y l IH]; simpl; constructor.
  - rewrite filter_In. intros [_ H]. rewrite Z.eqb_refl in H. discriminate.
  - apply List.NoDup_filter. exact IH.
Qed.

(** X20: the counts of [compute_metrics] are exact. For a sliceable event
    log of fewer than [2^53] rows, the detour through [float] loses
    nothing: [Frames] is the number of distinct frame ids, and [Match],
    [Switch], [FalsePos] and [Miss] are the numbers of rows of that type. *)
Theorem compute_metrics_counts_are_exact Series_sum d :
  sliceable (events_of d) = true ->
  (Z.of_nat (length (events_of d)) < 2 ^ 53)%Z ->
  exists metr frames,
    compute_metrics Series_sum d = Ok metr /\
    List.NoDup frames /\
    (forall f, In f frames <-> In f (map FrameId (events_of d))) /\
    dict_get "Frames" metr = Some (VInt (Z.of_nat (length frames))) /\
    dict_get "Match" metr = Some (VInt (Z.of_nat (count_type "MATCH" (events_of d)))) /\
    dict_get "Switch" metr = Some (VInt (Z.of_nat (count_type "SWITCH" (events_of d)))) /\
    dict_get "FalsePos" metr = Some (VInt (Z.of_nat (count_type "FP" (events_of d)))) /\
    dict_get "Miss" metr = Some (VInt (Z.of_nat (count_type "MISS" (events_of d)))).
Proof.
  intros Hd Hlen.
  assert (Hcount : forall t, (Z.of_nat (count_type t (events_of d)) < 2 ^ 53)%Z).
  { intros t. unfold count_type.
    pose proof (length_filter_le (fun r => String.eqb (Type_ r) t) (events_of d)). lia. }
  assert (Hframes : (Z.of_nat (length (distinct (map FrameId (events_of d)))) < 2 ^ 53)%Z).
  { pose proof (distinct_length (map FrameId (events_of d))) as H.
    rewrite length_map in H. lia. }
  destruct (fragmentation_sliceable _ Hd) as [fra Hfra].
  unfold compute_metrics. cbv zeta. rewrite Hfra.
  rewrite (py_int_float_of_nat_exact _ Hframes), !(py_int_float_of_nat_exact _ (Hcount _)).
  cbn [obind].
  eexists _, (distinct (map FrameId (events_of d))).
  split; [reflexivity|]. split; [apply distinct_NoDup|]. split; [apply distinct_In|].
  repeat split.
Qed.

(** X20, witness: the four-row example log. *)
Lemma compute_metrics_counts_are_exact_witness :
  exists metr frames,
    compute_metrics examples.left_to_right (Frame examples.log) = Ok metr /\
    List.NoDup frames /\
    (forall f, In f frames <-> In f (map FrameId examples.log)) /\
    dict_get "Frames" metr = Some (VInt (Z.of_nat (length frames))) /\
    dict_get "Match" metr = Some (VInt (Z.of_nat (count_type "MATCH" examples.log))) /\
    dict_get "Switch" metr = Some (VInt (Z.of_nat (count_type "SWITCH" examples.log))) /\
    dict_get "FalsePos" metr = Some (VInt (Z.of_nat (count_type "FP" examples.log))) /\
    dict_get "Miss" metr = Some (VInt (Z.of_nat (count_type "MISS" examples.log))).
Proof.
  refine (compute_metrics_counts_are_exact examples.left_to_right (Frame examples.log)
            eq_refl _).
  vm_compute. reflexivity.
Defined.

(** ** The classification of objects *)

Lemma SFleb_negb_SFltb a b :
  a <> S754_nan -> b <> S754_nan -> SpecFloat.SFleb a b = negb (SpecFloat.SFltb b a).
Proof.
  unfold SpecFloat.SFleb, SpecFloat.SFltb, SpecFloat.SFcompare.
  destruct a as [sa|sa| |sa ma ea], b as [sb|sb| |sb mb eb];
    intros Ha Hb; try congruence; try reflexivity;
    try destruct sa; try destruct sb; simpl; try reflexivity;
    float_facts.cmp_cases; simpl in *; try congruence; try reflexivity; try lia.
Qed.

Lemma leb_negb_ltb a b :
  PrimFloat.is_nan a = false -> PrimFloat.is_nan b = false ->
  PrimFloat.leb a b = negb (PrimFloat.ltb b a).
Proof.
  intros Ha Hb. rewrite FloatAxioms.leb_spec, FloatAxioms.ltb_spec.
  apply SFleb_negb_SFltb; apply float_facts.not_nan_spec; assumption.
Qed.

(** A ratio that is not NaN falls in exactly one of the three classes. *)
Lemma one_class x :
  PrimFloat.is_nan x = false ->
  (if PrimFloat.leb 0.8 x then 1 else 0)
  + (if PrimFloat.leb 0.2 x && PrimFloat.ltb x 0.8 then 1 else 0)
  + (if PrimFloat.ltb x 0.2 then 1 else 0) = 1.
Proof.
  intros Hx.
  rewrite (leb_negb_ltb 0.8 x eq_refl Hx), (leb_negb_ltb 0.2 x eq_refl Hx).
  destruct (PrimFloat.ltb x 0.8) eqn:H8, (PrimFloat.ltb x 0.2) eqn:H2; try reflexivity.
  assert (Hc : PrimFloat.ltb x 0.2 = false).
  { apply (float_facts.ltb_neg_trans x 0.8 0.2); [reflexivity|exact H8|reflexivity]. }
  congruence.
Qed.

Lemma classes_partition (s : list (ident * float)) :
  Forall (fun kv => PrimFloat.is_nan (snd kv) = false) s ->
  count_notna (List.filter (fun '(_, x) => PrimFloat.leb 0.8 x) s)
  + count_notna (List.filter (fun '(_, x) => PrimFloat.leb 0.2 x && PrimFloat.ltb x 0.8) s)
  + count_notna (List.filter (fun '(_, x) => PrimFloat.ltb x 0.2) s)
  = length s.
Proof.
  unfold count_notna. induction 1 as [|[o x] s Hx _ IH]; [reflexivity|].
  cbn [List.filter length snd] in *.
  pose proof (one_class x Hx) as Hone.
  destruct (PrimFloat.leb 0.8 x), (PrimFloat.leb 0.2 x && PrimFloat.ltb x 0.8),
    (PrimFloat.ltb x 0.2); cbn [List.filter length] in *; rewrite ?Hx in *;
    cbn [negb length] in *; lia.
Qed.

Lemma div_fillna_not_nan tracked objs :
  Forall (fun kv => PrimFloat.is_nan (snd kv) = false) (div_fillna tracked objs).
Proof.
  unfold div_fillna. apply Forall_app. split.
  - apply Forall_forall. intros kv Hkv.
    apply list_elem_of_In, in_map_iff in Hkv as ([o n] & <- & _).
    destruct (series_get o tracked) as [t|]; [|reflexivity].
    cbn [snd]. destruct (PrimFloat.is_nan (PrimFloat.div _ _)) eqn:Hq; [reflexivity|exact Hq].
  - apply Forall_forall. intros kv Hkv.
    apply list_elem_of_In, in_map_iff in Hkv as ([o n] & <- & _). reflexivity.
Qed.

Lemma series_get_bump o o' (s : list (ident * nat)) :
  is_Some (series_get o (bump o' s)) <-> o = o' \/ is_Some (series_get o s).
Proof.
  induction s as [|[k n] s IH]; simpl.
  - destruct (String.eqb_spec o o') as [->|Hne].
    + split; [auto|]. intros _. eexists; reflexivity.
    + split; [intros [? ?]; discriminate|]. intros [?|[? ?]]; [contradiction|discriminate].
  - destruct (String.eqb_spec o' k) as [->|Hne]; simpl.
    + destruct (String.eqb_spec o k) as [->|Hne'].
      * split; [auto|]. intros _. eexists; reflexivity.
      * split; [auto|]. intros [?|?]; [contradiction|assumption].
    + destruct (String.eqb_spec o k) as [->|Hne'].
      * split; [intros _; right; eexists; reflexivity|intros _; eexists; reflexivity].
      * exact IH.
Qed.

Lemma bump_keys o' (s : list (ident * nat)) k :
  In k (map fst (bump o' s)) -> k = o' \/ In k (map fst s).
Proof.
  induction s as [|[k' n] s IH]; simpl.
  - intros [<-|[]]. auto.
  - destruct (String.eqb o' k'); simpl; intros [<-|H]; auto.
    destruct (IH H); auto.
Qed.

Lemma value_counts_keys labels k :
  In k (map fst (value_counts labels)) -> In k labels.
Proof.
  unfold value_counts.
  enough (H : forall s, In k (map fst (fold_left (fun s o => bump o s) labels s)) ->
                        In k labels \/ In k (map fst s)).
  { intros Hk. destruct (H [] Hk) as [?|[]]. assumption. }
  induction labels as [|o labels IH]; intros s; simpl; [auto|].
  intros Hk. destruct (IH _ Hk) as [?|Hb]; [auto|].
  destruct (bump_keys _ _ _ Hb); auto.
Qed.

Lemma value_counts_covers labels k :
  In k labels -> is_Some (series_get k (value_counts labels)).
Proof.
  unfold value_counts.
  enough (H : forall s, In k labels \/ is_Some (series_get k s) ->
                        is_Some (series_get k (fold_left (fun s o => bump o s) labels s))).
  { intros Hk. apply H. left. exact Hk. }
  induction labels as [|o labels IH]; intros s; simpl.
  - intros [[]|H]. exact H.
  - intros [[->|H]|H]; apply IH.
    + right. apply series_get_bump. left. reflexivity.
    + left. exact H.
    + right. apply series_get_bump. right. exact H.
Qed.

Lemma oids_not_missed df k : In k (oids (not_missed df)) -> In k (oids df).
Proof.
  unfold oids, not_missed. intros H.
  apply list_elem_of_In, list_elem_of_omap in H as (r & Hr & Ho).
  apply list_elem_of_In, filter_In in Hr as [Hr _].
  apply list_elem_of_In, list_elem_of_omap. exists r. split; [|exact Ho].
  apply list_elem_of_In. exact Hr.
Qed.

Lemma filter_none {A} (f : A -> bool) l :
  (forall x, In x l -> f x = false) -> List.filter f l = [].
Proof.
  induction l as [|x l IH]; intros H; simpl; [reflexivity|].
  rewrite (H x (or_introl eq_refl)). apply IH. intros y Hy. apply H. right. exact Hy.
Qed.

(** Every object that was tracked at some time is an object of the log,
    so the ratios are indexed by the objects of the log. *)
Lemma track_ratio_length df :
  length (div_fillna (value_counts (oids (not_missed df))) (value_counts (oids df)))
  = length (value_counts (oids df)).
Proof.
  unfold div_fillna. rewrite length_app, !length_map.
  rewrite filter_none; [simpl; lia|].
  intros [o n] Hin. apply negb_false_iff, bool_decide_eq_true.
  apply value_counts_covers, oids_not_missed, (value_counts_keys _ o).
  apply in_map_iff. exists (o, n). split; [reflexivity|exact Hin].
Qed.

(** X21: [compute_metrics] classifies every object exactly once: on a
    sliceable event log, the numbers of mostly tracked, partially tracked
    and mostly lost objects add up to the number of objects. *)
Theorem every_object_is_classified_once Series_sum d :
  sliceable (events_of d) = true ->
  exists metr mt pt ml objs,
    compute_metrics Series_sum d = Ok metr /\
    dict_get "MT" metr = Some (VInt mt) /\
    dict_get "PT" metr = Some (VInt pt) /\
    dict_get "ML" metr = Some (VInt ml) /\
    dict_get "Objs" metr = Some (VInt objs) /\
    (mt + pt + ml = objs)%Z.
Proof.
  intros Hd. unfold compute_metrics. cbv zeta.
  destruct (fragmentation_sliceable _ Hd) as [fra Hfra].
  destruct (float_facts.py_int_float_of_nat
              (length (distinct (map FrameId (events_of d))))) as [z1 H1].
  destruct (float_facts.py_int_float_of_nat (count_type "MATCH" (events_of d))) as [z2 H2].
  destruct (float_facts.py_int_float_of_nat (count_type "SWITCH" (events_of d))) as [z3 H3].
  destruct (float_facts.py_int_float_of_nat (count_type "FP" (events_of d))) as [z4 H4].
  destruct (float_facts.py_int_float_of_nat (count_type "MISS" (events_of d))) as [z5 H5].
  rewrite Hfra, H1, H2, H3, H4, H5. cbn [obind].
  eexists _, _, _, _, _. split; [reflexivity|].
  split; [reflexivity|]. split; [reflexivity|]. split; [reflexivity|].
  split; [reflexivity|].
  rewrite <- !Nat2Z.inj_add. f_equal.
  rewrite classes_partition by apply div_fillna_not_nan.
  apply track_ratio_length.
Qed.

(** X21, witness: the example log, with its two objects. *)
Lemma every_object_is_classified_once_witness :
  exists metr mt pt ml objs,
    compute_metrics examples.left_to_right (Frame examples.log) = Ok metr /\
    dict_get "MT" metr = Some (VInt mt) /\
    dict_get "PT" metr = Some (VInt pt) /\
    dict_get "ML" metr = Some (VInt ml) /\
    dict_get "Objs" metr = Some (VInt objs) /\
    (mt + pt + ml = objs)%Z.
Proof.
  exact (every_object_is_classified_once examples.left_to_right (Frame examples.log)
           eq_refl).
Defined.

(** ** Division by zero *)

(** X22: [savediv] keeps [compute_metrics] from dividing by zero. On a
    sliceable log without a [MATCH] or [SWITCH] row, [MOTP] is [np.nan], a
    Python [float]; on a log without an object id, [Recall] and [MOTA] are
    NaN, where a plain division of Python floats by the number of objects
    raises [ZeroDivisionError]. *)
Theorem savediv_gives_nan Series_sum d :
  sliceable (events_of d) = true ->
  exists metr,
    compute_metrics Series_sum d = Ok metr /\
    (count_type "MATCH" (events_of d) = 0 -> count_type "SWITCH" (events_of d) = 0 ->
     dict_get "MOTP" metr = Some (VFloat PrimFloat.nan)) /\
    (oids (events_of d) = [] ->
     dict_get "Recall" metr = Some (VFloat PrimFloat.nan) /\
     dict_get "MOTA" metr = Some (VFloat PrimFloat.nan) /\
     forall x, py_div (VFloat x) (VFloat (float_of_nat (length (oids (events_of d)))))
               = Raise (ZeroDivisionError "float division by zero")).
Proof.
  intros Hd. unfold compute_metrics. cbv zeta.
  destruct (fragmentation_sliceable _ Hd) as [fra Hfra].
  destruct (float_facts.py_int_float_of_nat
              (length (distinct (map FrameId (events_of d))))) as [z1 H1].
  destruct (float_facts.py_int_float_of_nat (count_type "MATCH" (events_of d))) as [z2 H2].
  destruct (float_facts.py_int_float_of_nat (count_type "SWITCH" (events_of d))) as [z3 H3].
  destruct (float_facts.py_int_float_of_nat (count_type "FP" (events_of d))) as [z4 H4].
  destruct (float_facts.py_int_float_of_nat (count_type "MISS" (events_of d))) as [z5 H5].
  rewrite Hfra, H1, H2, H3, H4, H5. cbn [obind].
  eexists. split; [reflexivity|]. split.
  - intros Hm Hs. rewrite Hm, Hs. reflexivity.
  - intros Ho. rewrite Ho. repeat split.
Qed.

(** A log that holds one false alarm: no object, no detection of one. *)
Definition false_alarm_log : DataFrame :=
  [ {| FrameId := 0; EventId := 0; Type_ := "FP"; OId := None; HId := Some "1";
       D := PrimFloat.nan |} ].

(** X22, witness: that log. *)
Lemma savediv_gives_nan_witness :
  exists metr,
    compute_metrics examples.left_to_right (Frame false_alarm_log) = Ok metr /\
    (count_type "MATCH" false_alarm_log = 0 -> count_type "SWITCH" false_alarm_log = 0 ->
     dict_get "MOTP" metr = Some (VFloat PrimFloat.nan)) /\
    (oids false_alarm_log = [] ->
     dict_get "Recall" metr = Some (VFloat PrimFloat.nan) /\
     dict_get "MOTA" metr = Some (VFloat PrimFloat.nan) /\
     forall x, py_div (VFloat x) (VFloat (float_of_nat (length (oids false_alarm_log))))
               = Raise (ZeroDivisionError "float division by zero")).
Proof.
  exact (savediv_gives_nan examples.left_to_right (Frame false_alarm_log) eq_refl).
Defined.

(** ** Fragmentation *)

Lemma count_rises_none flags : Forall (fun b => b = false) flags -> count_rises flags = 0.
Proof.
  induction 1 as [|a flags Ha Hflags IH]; [reflexivity|].
  destruct Hflags as [|b flags' Hb Hflags']; [reflexivity|].
  change (count_rises (a :: b :: flags'))
    with ((if negb a && b then 1 else 0) + count_rises (b :: flags')).
  rewrite IH, Hb, andb_false_r. reflexivity.
Qed.

Lemma count_type_none t df :
  count_type t df = 0 -> forall r, In r df -> String.eqb (Type_ r) t = false.
Proof.
  unfold count_type. intros H r Hr.
  destruct (String.eqb (Type_ r) t) eqn:Ht; [|reflexivity].
  assert (Hin : In r (List.filter (fun r => String.eqb (Type_ r) t) df)).
  { apply filter_In. split; assumption. }
  destruct (List.filter _ df); [destruct Hin|discriminate].
Qed.

Lemma fragments_of_none df o n :
  count_type "MISS" df = 0 -> fragments_of df o = Ok n -> n = 0.
Proof.
  intros Hmiss. unfold fragments_of, loc_slice. cbv zeta.
  destruct (not_missed _) as [|r0 notmiss]; [intros H; inversion H; reflexivity|].
  destruct (lexsort_depth _) as [|[|depth]]; try discriminate.
  cbn [obind]. intros H. inversion H; subst; clear H.
  apply count_rises_none, Forall_forall. intros b Hb.
  apply list_elem_of_In, in_map_iff in Hb as (r & <- & Hr).
  apply filter_In in Hr as [Hr _]. apply filter_In in Hr as [Hr _].
  apply (count_type_none _ _ Hmiss r Hr).
Qed.

Lemma fragmentation_loop_none df index :
  count_type "MISS" df = 0 ->
  forall fra n, fragmentation_loop df index fra = Ok n -> n = fra.
Proof.
  intros Hmiss. induction index as [|o index IH]; intros fra n H.
  - inversion H. reflexivity.
  - cbn [fragmentation_loop] in H.
    destruct (fragments_of df o) as [k| |] eqn:Hk; try discriminate.
    cbn [obind] in H. rewrite (fragments_of_none df o k Hmiss Hk) in H.
    rewrite (IH _ _ H). lia.
Qed.

(** X23: a sliceable log without a [MISS] row has no fragmentation: [Frag]
    and [Miss] are both [0]. *)
Theorem no_miss_no_fragmentation Series_sum d :
  sliceable (events_of d) = true ->
  count_type "MISS" (events_of d) = 0 ->
  exists metr,
    compute_metrics Series_sum d = Ok metr /\
    dict_get "Miss" metr = Some (VInt 0) /\
    dict_get "Frag" metr = Some (VInt 0).
Proof.
  intros Hd Hmiss. unfold compute_metrics. cbv zeta.
  destruct (fragmentation_sliceable _ Hd) as [fra Hfra].
  assert (Hzero : fra = 0) by exact (fragmentation_loop_none _ _ Hmiss _ _ Hfra).
  subst fra.
  destruct (float_facts.py_int_float_of_nat
              (length (distinct (map FrameId (events_of d))))) as [z1 H1].
  destruct (float_facts.py_int_float_of_nat (count_type "MATCH" (events_of d))) as [z2 H2].
  destruct (float_facts.py_int_float_of_nat (count_type "SWITCH" (events_of d))) as [z3 H3].
  destruct (float_facts.py_int_float_of_nat (count_type "FP" (events_of d))) as [z4 H4].
  rewrite Hfra, H1, H2, H3, H4, Hmiss. cbn [obind].
  eexists. split; [reflexivity|]. split; reflexivity.
Qed.

(** A log in which object [a] is matched in two frames. *)
Definition tracked_log : DataFrame :=
  [ {| FrameId := 0; EventId := 0; Type_ := "MATCH"; OId := Some "a"; HId := Some "1";
       D := 0.1 |};
    {| FrameId := 1; EventId := 0; Type_ := "MATCH"; OId := Some "a"; HId := Some "1";
       D := 0.2 |} ].

(** X23, witness: that log. *)
Lemma no_miss_no_fragmentation_witness :
  exists metr,
    compute_metrics examples.left_to_right (Frame tracked_log) = Ok metr /\
    dict_get "Miss" metr = Some (VInt 0) /\
    dict_get "Frag" metr = Some (VInt 0).
Proof.
  exact (no_miss_no_fragmentation examples.left_to_right (Frame tracked_log)
           eq_refl eq_refl).
Defined.

(** ** Event logs that are not in index order *)

Lemma index_leb_trans a b c :
  index_leb a b = true -> index_leb b c = true -> index_leb a c = true.
Proof.
  destruct a as [a1 a2], b as [b1 b2], c as [c1 c2]. unfold index_leb. cbn [fst snd].
  rewrite !orb_true_iff, !andb_true_iff, !Z.ltb_lt, !Z.eqb_eq, !Z.leb_le. lia.
Qed.

Lemma is_lexsorted_cons a l :
  is_lexsorted (a :: l) = true <->
  Forall (fun b => index_leb a b = true) l /\ is_lexsorted l = true.
Proof.
  revert a. induction l as [|b l IH]; intros a.
  - split; [intros _; split; [constructor|reflexivity]|reflexivity].
  - change (is_lexsorted (a :: b :: l)) with (index_leb a b && is_lexsorted (b :: l)).
    rewrite andb_true_iff. split.
    + intros [Hab Hbl]. split; [|exact Hbl].
      constructor; [exact Hab|].
      apply IH in Hbl as [Hb _].
      eapply Forall_impl; [exact Hb|]. intros c Hbc. cbv beta in *.
      eapply index_leb_trans; eassumption.
    + intros [Hall Hbl]. split; [|exact Hbl]. inversion Hall; assumption.
Qed.

Lemma is_lexsorted_filter (f : row -> bool) df :
  is_lexsorted (map index_of df) = true ->
  is_lexsorted (map index_of (List.filter f df)) = true.
Proof.
  induction df as [|r df IH]; [reflexivity|].
  cbn [map List.filter]. intros H. apply is_lexsorted_cons in H as [Hall Hdf].
  destruct (f r); [|apply IH, Hdf].
  cbn [map]. apply is_lexsorted_cons. split; [|apply IH, Hdf].
  apply Forall_forall. intros b Hb.
  apply list_elem_of_In, in_map_iff in Hb as (r' & <- & Hr').
  apply filter_In in Hr' as [Hr' _].
  apply (proj1 (Forall_forall _ _) Hall). apply list_elem_of_In, in_map_iff.
  exists r'. auto.
Qed.

Lemma index_sorted_sliceable df : index_sorted df = true -> sliceable df = true.
Proof.
  unfold index_sorted, sliceable. intros H. apply forallb_forall. intros o _.
  unfold object_sliceable. cbv zeta.
  destruct (not_missed _); [reflexivity|]. apply is_lexsorted_filter, H.
Qed.

(** X29: [compute_metrics] slices the rows of every tracked object by
    index label, which pandas refuses on rows that are not in index order.
    It returns its fourteen columns exactly on the sliceable event logs and
    raises [UnsortedIndexError] on every other one; [num_fragmentation] of
    the default registry fails on the same logs. An event log whose rows
    are in index order is sliceable. *)
Theorem unsorted_rows_raise (Series_sum : list float -> float) (d : accumulator)
    (fuel : nat) :
  (sliceable (events_of d) = true ->
   exists metr, compute_metrics Series_sum d = Ok metr /\ map fst metr = columns) /\
  (sliceable (events_of d) = false ->
   exists msg,
     compute_metrics Series_sum d = Raise (UnsortedIndexError msg) /\
     fst (MetricsContainer_summarize (registry Series_sum) (S (S fuel)) (events_of d)
            (Some ["num_fragmentation"]))
     = Raise (UnsortedIndexError msg)) /\
  (index_sorted (events_of d) = true -> sliceable (events_of d) = true).
Proof.
  split; [apply compute_metrics_total|]. split; [|apply index_sorted_sliceable].
  intros Hd.
  destruct (fragmentation_loop_unsliceable _ _ Hd 0) as [msg Hmsg].
  fold (fragmentation (events_of d) (map fst (value_counts (oids (events_of d))))) in Hmsg.
  exists msg. split.
  - unfold compute_metrics. cbv zeta. rewrite Hmsg. reflexivity.
  - generalize dependent (events_of d). intros df _ Hmsg.
    vm_compute. vm_compute in Hmsg. rewrite Hmsg. reflexivity.
Qed.

(** The rows of object [a] in frames 1, 0: the slice is refused. *)
Example unsorted_log_raises :
  compute_metrics examples.left_to_right (Frame unsorted_log)
  = Raise (UnsortedIndexError
             "Key length (2) was greater than MultiIndex lexsort depth (0)").
Proof. vm_compute. reflexivity. Qed.

(** ** The module-level summarize at its edges *)

Lemma zip_nil_r {A B} (l : list A) : zip l (@nil B) = [].
Proof. destruct l; reflexivity. Qed.

(** X24: [summarize] has nothing to concatenate, and raises [ValueError],
    when there is no (name, log) pair: for an empty list of logs whatever
    the names, and for an empty list of names or the empty string whatever
    the logs. *)
Theorem summarize_without_pairs_raises (Series_sum : list float -> float) :
  (forall names,
     summarize Series_sum (Several []) names
     = Raise (ValueError "No objects to concatenate")) /\
  (forall accs,
     summarize Series_sum accs (NamesList [])
     = Raise (ValueError "No objects to concatenate")) /\
  (forall accs,
     summarize Series_sum accs (NamesStr "")
     = Raise (ValueError "No objects to concatenate")).
Proof.
  split; [|split].
  - intros names. unfold summarize. cbn [map length seq]. rewrite zip_nil_r. reflexivity.
  - intros accs. reflexivity.
  - intros accs. reflexivity.
Qed.

(** X25: a single accumulator or data frame is summarized as the list that
    holds only it, and a name that is not iterable as the list that holds
    only it: for a sliceable first log the table has one row, for that
    log, and further logs are left out. *)
Theorem summarize_wraps_single_arguments Series_sum d rest n :
  sliceable (events_of d) = true ->
  exists metr,
    compute_metrics Series_sum d = Ok metr /\
    summarize Series_sum (One d) NamesNone = Ok [(LInt 0, metr)] /\
    summarize Series_sum (Several (d :: rest)) (NamesScalar n) = Ok [(LInt n, metr)] /\
    forall names,
      summarize Series_sum (One d) names = summarize Series_sum (Several [d]) names.
Proof.
  intros Hd.
  destruct (compute_metrics_total Series_sum d Hd) as (metr & Hmetr & _).
  exists metr. split; [exact Hmetr|].
  unfold summarize. cbn [map length seq zip zip_with rows_of].
  rewrite !compute_metrics_events, Hmetr. cbn [obind].
  destruct (map events_of rest); repeat split.
Qed.

(** X25, witness: the example log, followed by a log that is not
    sliceable and is left out. *)
Lemma summarize_wraps_single_arguments_witness :
  exists metr,
    compute_metrics examples.left_to_right (Frame examples.log) = Ok metr /\
    summarize examples.left_to_right (One (Frame examples.log)) NamesNone
    = Ok [(LInt 0, metr)] /\
    summarize examples.left_to_right
      (Several [Frame examples.log; Frame unsorted_log]) (NamesScalar 7)
    = Ok [(LInt 7, metr)] /\
    forall names,
      summarize examples.left_to_right (One (Frame examples.log)) names
      = summarize examples.left_to_right (Several [Frame examples.log]) names.
Proof.
  exact (summarize_wraps_single_arguments examples.left_to_right (Frame examples.log)
           [Frame unsorted_log] 7 eq_refl).
Defined.

(** ** The default registry *)

(** X26: in the default registry [num_detections] is registered without
    its dependencies, so it is called with the data frame alone and raises
    [TypeError], for every event log; so do [motp], [precision] and
    [recall], which depend on it, and [summarize] without a list of
    metrics, which asks for all of them. *)
Theorem default_registry_cannot_count_detections (Series_sum : list float -> float)
    (df : DataFrame) (fuel : nat) :
  let registry := registry Series_sum in
  deps <$> dict_get "num_detections" (metrics registry) = Some [] /\
  args num_detections = ["df"; "num_matches"; "num_switches"] /\
  Forall (fun m =>
            fst (MetricsContainer_summarize registry (S (S fuel)) df (Some [m]))
            = Raise (TypeError "num_detections() called with the wrong number of positional arguments"))
         ["num_detections"; "motp"; "precision"; "recall"] /\
  fst (MetricsContainer_summarize registry (S fuel) df None)
  = Raise (TypeError "num_detections() called with the wrong number of positional arguments").
Proof.
  split; [reflexivity|]. split; [reflexivity|]. split.
  - repeat constructor.
  - vm_compute. reflexivity.
Qed.

(** X27: the metrics that the default registry can evaluate agree with
    [compute_metrics] on every sliceable event log: the four counts are the
    floats whose integer values [compute_metrics] reports, and the number
    of objects and of fragmentations are the same numbers. *)
Theorem registry_agrees_with_compute_metrics (Series_sum : list float -> float)
    (df : DataFrame) (fuel : nat) :
  sliceable df = true ->
  let registry := registry Series_sum in
  exists metr,
    compute_metrics Series_sum (Frame df) = Ok metr /\
    Forall (fun '(m, column) =>
              exists x z,
                fst (MetricsContainer_summarize registry (S fuel) df (Some [m]))
                = Ok [(m, VFloat x)] /\
                py_int x = Ok z /\
                dict_get column metr = Some (VInt z))
           [("num_frames", "Frames"); ("num_matches", "Match"); ("num_switches", "Switch");
            ("num_falsepositives", "FalsePos")] /\
    (exists n,
       fst (MetricsContainer_summarize registry (S (S fuel)) df (Some ["num_unique_objects"]))
       = Ok [("num_unique_objects", VFloat (float_of_nat n))] /\
       dict_get "Objs" metr = Some (VInt (Z.of_nat n))) /\
    (exists k,
       fst (MetricsContainer_summarize registry (S (S fuel)) df (Some ["num_fragmentation"]))
       = Ok [("num_fragmentation", VInt k)] /\
       dict_get "Frag" metr = Some (VInt k)).
Proof.
  intros Hd registry0. subst registry0.
  unfold compute_metrics. cbv zeta. cbn [events_of].
  destruct (fragmentation_sliceable _ Hd) as [fra Hfra].
  destruct (float_facts.py_int_float_of_nat (length (distinct (map FrameId df)))) as [z1 H1].
  destruct (float_facts.py_int_float_of_nat (count_type "MATCH" df)) as [z2 H2].
  destruct (float_facts.py_int_float_of_nat (count_type "SWITCH" df)) as [z3 H3].
  destruct (float_facts.py_int_float_of_nat (count_type "FP" df)) as [z4 H4].
  destruct (float_facts.py_int_float_of_nat (count_type "MISS" df)) as [z5 H5].
  rewrite Hfra, H1, H2, H3, H4, H5. cbn [obind].
  eexists. split; [reflexivity|]. split; [|split].
  - repeat apply List.Forall_cons; [| | | |apply List.Forall_nil].
    + exists (float_of_nat (length (distinct (map FrameId df)))), z1.
      split; [vm_compute; reflexivity|]. split; [exact H1|reflexivity].
    + exists (float_of_nat (count_type "MATCH" df)), z2.
      split; [vm_compute; reflexivity|]. split; [exact H2|reflexivity].
    + exists (float_of_nat (count_type "SWITCH" df)), z3.
      split; [vm_compute; reflexivity|]. split; [exact H3|reflexivity].
    + exists (float_of_nat (count_type "FP" df)), z4.
      split; [vm_compute; reflexivity|]. split; [exact H4|reflexivity].
  - exists (length (value_counts (oids df))). split; [vm_compute; reflexivity|reflexivity].
  - exists (Z.of_nat fra). split; [|reflexivity].
    vm_compute. vm_compute in Hfra. rewrite Hfra. reflexivity.
Qed.

(** X27, witness: the example log. *)
Lemma registry_agrees_with_compute_metrics_witness :
  exists metr,
    compute_metrics examples.left_to_right (Frame examples.log) = Ok metr /\
    Forall (fun '(m, column) =>
              exists x z,
                fst (MetricsContainer_summarize (registry examples.left_to_right) 1
                       examples.log (Some [m]))
                = Ok [(m, VFloat x)] /\
                py_int x = Ok z /\
                dict_get column metr = Some (VInt z))
           [("num_frames", "Frames"); ("num_matches", "Match"); ("num_switches", "Switch");
            ("num_falsepositives", "FalsePos")] /\
    (exists n,
       fst (MetricsContainer_summarize (registry examples.left_to_right) 2 examples.log
              (Some ["num_unique_objects"]))
       = Ok [("num_unique_objects", VFloat (float_of_nat n))] /\
       dict_get "Objs" metr = Some (VInt (Z.of_nat n))) /\
    (exists k,
       fst (MetricsContainer_summarize (registry examples.left_to_right) 2 examples.log
              (Some ["num_fragmentation"]))
       = Ok [("num_fragmentation", VInt k)] /\
       dict_get "Frag" metr = Some (VInt k)).
Proof.
  exact (registry_agrees_with_compute_metrics examples.left_to_right examples.log 0
           eq_refl).
Defined.

(** ** The dictionary that summarize returns *)

Lemma collect_spec ms : forall st pairs st',
  collect ms st = (Ok pairs, st') ->
  st' = st /\ map fst pairs = ms /\
  Forall (fun kv => cache st !! fst kv = Some (snd kv)) pairs.
Proof.
  induction ms as [|k ms IH]; intros st pairs st' H.
  - inversion H; subst. repeat split. constructor.
  - cbn [collect] in H. unfold bind at 1 in H. unfold cache_get at 1 in H.
    destruct (cache st !! k) as [v|] eqn:Hk; [|discriminate].
    unfold bind at 1 in H.
    destruct (collect ms st) as [[rest| |] st1] eqn:Hrest; try discriminate.
    destruct (IH _ _ _ Hrest) as (-> & Hkeys & Hvals).
    inversion H; subst. repeat split. constructor; [exact Hk|exact Hvals].
Qed.

Lemma dict_set_get {V} k0 (v0 : V) d k v :
  dict_get k (dict_set k0 v0 d) = Some v -> (k = k0 /\ v = v0) \/ dict_get k d = Some v.
Proof.
  destruct (String.eqb_spec k k0) as [->|Hne].
  - rewrite dict_get_set_eq. intros H. inversion H. auto.
  - rewrite dict_get_set_ne by exact Hne. auto.
Qed.

Lemma dict_set_In_keys {V} k0 (v0 : V) d k :
  In k (map fst (dict_set k0 v0 d)) <-> In k (map fst d) \/ k = k0.
Proof.
  rewrite dict_set_keys. destruct (bool_decide _) eqn:Hin.
  - apply bool_decide_eq_true, list_elem_of_In in Hin. split; [auto|].
    intros [H| ->]; assumption.
  - rewrite in_app_iff. simpl. split; intros [H|H]; auto.
    + destruct H as [<-|[]]. auto.
Qed.

Lemma dict_set_NoDup {V} k0 (v0 : V) d :
  NoDup (map fst d) -> NoDup (map fst (dict_set k0 v0 d)).
Proof.
  intros Hnd. rewrite dict_set_keys. destruct (bool_decide _) eqn:Hin; [exact Hnd|].
  apply bool_decide_eq_false in Hin. apply NoDup_app. split; [exact Hnd|].
  split; [|apply NoDup_singleton].
  intros x Hx Hx'. apply list_elem_of_singleton in Hx'. subst x. contradiction.
Qed.

Lemma fold_dict_set_spec {V} (pairs : list (string * V)) : forall acc,
  NoDup (map fst acc) ->
  let d := fold_left (fun d kv => dict_set (fst kv) (snd kv) d) pairs acc in
  NoDup (map fst d) /\
  (forall k, In k (map fst d) <-> In k (map fst acc) \/ In k (map fst pairs)) /\
  (forall k v, dict_get k d = Some v -> dict_get k acc = Some v \/ In (k, v) pairs).
Proof.
  induction pairs as [|[k0 v0] pairs IH]; intros acc Hnd; cbv zeta; cbn [fold_left].
  - split; [exact Hnd|]. split; [|auto]. intros k. simpl. tauto.
  - destruct (IH (dict_set k0 v0 acc) (dict_set_NoDup k0 v0 acc Hnd)) as (H1 & H2 & H3).
    cbn [fst snd]. split; [exact H1|]. split.
    + intros k. rewrite H2, dict_set_In_keys. simpl. intuition.
    + intros k v Hk. destruct (H3 k v Hk) as [Hacc|Hin]; [|right; right; exact Hin].
      destruct (dict_set_get _ _ _ _ _ Hacc) as [[-> ->]|Hacc']; [right; left|left]; auto.
Qed.

Lemma dict_get_is_Some {V} k (d : dict V) : In k (map fst d) -> is_Some (dict_get k d).
Proof.
  induction d as [|[k' v'] d IH]; simpl; [intros []|].
  destruct (String.eqb_spec k k') as [->|Hne]; [eexists; reflexivity|].
  intros [Heq|H]; [congruence|apply IH, H].
Qed.

(** X28: when [MetricsContainer.summarize] returns, the dictionary has the
    requested names as its keys, each once however often it was requested,
    and the value under a name is the one the cache holds for it at the
    end. *)
Theorem summarize_returns_the_requested_names self fuel df ms result st :
  MetricsContainer_summarize self fuel df (Some ms) = (Ok result, st) ->
  NoDup (map fst result) /\
  (forall k, In k (map fst result) <-> In k ms) /\
  (forall k v, dict_get k result = Some v <-> In k ms /\ cache st !! k = Some v).
Proof.
  unfold MetricsContainer_summarize. unfold bind at 1.
  destruct (summarize_loop self fuel df ms _) as [[[]| |] st1]; try discriminate.
  unfold bind at 1.
  destruct (collect ms st1) as [[pairs| |] st2] eqn:Hcollect; try discriminate.
  intros H. inversion H; subst; clear H.
  destruct (collect_spec _ _ _ _ Hcollect) as (-> & Hkeys & Hvals).
  destruct (fold_dict_set_spec pairs [] (NoDup_nil_2 (A := string))) as (H1 & H2 & H3).
  fold (OrderedDict pairs) in H1, H2, H3.
  assert (Hin : forall k, In k (map fst (OrderedDict pairs)) <-> In k ms).
  { intros k. rewrite H2, Hkeys. simpl. tauto. }
  assert (Hget : forall k v, dict_get k (OrderedDict pairs) = Some v ->
                             In k ms /\ cache st1 !! k = Some v).
  { intros k v Hk. destruct (H3 k v Hk) as [Hnil|Hpair]; [discriminate|].
    split.
    - rewrite <- Hkeys. apply in_map_iff. exists (k, v). auto.
    - apply (proj1 (List.Forall_forall _ _) Hvals (k, v) Hpair). }
  split; [exact H1|]. split; [exact Hin|].
  intros k v. split; [apply Hget|].
  intros [Hk Hv]. destruct (dict_get_is_Some k (OrderedDict pairs)) as [v' Hv'].
  { apply Hin, Hk. }
  destruct (Hget k v' Hv') as [_ Hv'']. congruence.
Qed.

(** X28, witness: [num_matches] requested twice, around [num_frames]. *)
Lemma summarize_returns_the_requested_names_witness :
  NoDup (map fst [("num_matches", VFloat 1); ("num_frames", VFloat 2)]) /\
  (forall k, In k (map fst [("num_matches", VFloat 1); ("num_frames", VFloat 2)])
             <-> In k ["num_matches"; "num_frames"; "num_matches"]) /\
  (forall k v,
     dict_get k [("num_matches", VFloat 1); ("num_frames", VFloat 2)] = Some v
     <-> In k ["num_matches"; "num_frames"; "num_matches"] /\
         cache (snd (MetricsContainer_summarize (registry examples.left_to_right) 1
                       examples.log
                       (Some ["num_matches"; "num_frames"; "num_matches"]))) !! k = Some v).
Proof.
  refine (summarize_returns_the_requested_names (registry examples.left_to_right) 1
            examples.log
            ["num_matches"; "num_frames"; "num_matches"]
            [("num_matches", VFloat 1); ("num_frames", VFloat 2)]
            (snd (MetricsContainer_summarize (registry examples.left_to_right) 1 examples.log
                    (Some ["num_matches"; "num_frames"; "num_matches"]))) _).
  vm_compute. reflexivity.
Defined.

End metrics_more.
